(** * IDE backend (IDE/backend/main.py): shallow embedding and verified properties

  The development follows the layout of the Python module:
  text and byte strings, pure POSIX paths, the path guard
  [safe_workspace_path], the workspace file endpoints, the one-shot
  process runner with its language dispatch, and the interactive
  websocket session.

  Modelling conventions.
  - A Python [str] is a list of Unicode code points ([N]); [bytes] is a
    list of octets ([N] below 256).  String literals of the source are
    written [py "..."].
  - Paths are POSIX paths.  An absolute path is the list of its
    components below the root; a leading double slash is not
    distinguished from a single one.
  - A raised exception is a value of [exn]; code that can raise returns
    a [result]. *)

From Stdlib Require Import List NArith ZArith Arith Bool String Ascii Lia.
From Stdlib Require Import Sorting.Permutation Sorting.Sorted.
From Equations Require Import Equations.
Import ListNotations.

Set Implicit Arguments.
Set Warnings "-register-all".
Open Scope N_scope.

(* ===================================================================== *)
(** ** Text and bytes *)
(* ===================================================================== *)

Module Text.

Definition str := list N.
Definition bytes := list N.

(** A literal of the source, as code points. *)
Definition py (s : string) : str :=
  List.map N_of_ascii (list_ascii_of_string s).

Fixpoint str_eqb (a b : str) : bool :=
  match a, b with
  | [], [] => true
  | x :: a', y :: b' => (x =? y) && str_eqb a' b'
  | _, _ => false
  end.

(** [x in (a, b, ...)] on strings. *)
Definition str_in (x : str) (l : list str) : bool :=
  existsb (str_eqb x) l.

(** *** [str.lower()]

    CPython lowers a string code point by code point with the full
    lowercase mapping of the Unicode Character Database, and decides
    between the two small sigmas by the context of a capital one.  The
    tables are those of Unicode 14.0, which CPython 3.11 carries. *)

(** The simple lowercase mappings, as runs [(first, last, step, image of
    first)]: the code points [first], [first + step], ... up to [last]
    are mapped to [image], [image + step], ... in order. *)
Definition lower_runs : list (N * N * N * N) :=
  [(0x41, 0x5A, 1, 0x61); (0xC0, 0xD6, 1, 0xE0); (0xD8, 0xDE, 1, 0xF8);
   (0x100, 0x12E, 2, 0x101); (0x132, 0x136, 2, 0x133);
   (0x139, 0x147, 2, 0x13A); (0x14A, 0x176, 2, 0x14B);
   (0x178, 0x178, 1, 0xFF); (0x179, 0x17D, 2, 0x17A);
   (0x181, 0x181, 1, 0x253); (0x182, 0x184, 2, 0x183);
   (0x186, 0x186, 1, 0x254); (0x187, 0x187, 1, 0x188);
   (0x189, 0x18A, 1, 0x256); (0x18B, 0x18B, 1, 0x18C);
   (0x18E, 0x18E, 1, 0x1DD); (0x18F, 0x18F, 1, 0x259);
   (0x190, 0x190, 1, 0x25B); (0x191, 0x191, 1, 0x192);
   (0x193, 0x193, 1, 0x260); (0x194, 0x194, 1, 0x263);
   (0x196, 0x196, 1, 0x269); (0x197, 0x197, 1, 0x268);
   (0x198, 0x198, 1, 0x199); (0x19C, 0x19C, 1, 0x26F);
   (0x19D, 0x19D, 1, 0x272); (0x19F, 0x19F, 1, 0x275);
   (0x1A0, 0x1A4, 2, 0x1A1); (0x1A6, 0x1A6, 1, 0x280);
   (0x1A7, 0x1A7, 1, 0x1A8); (0x1A9, 0x1A9, 1, 0x283);
   (0x1AC, 0x1AC, 1, 0x1AD); (0x1AE, 0x1AE, 1, 0x288);
   (0x1AF, 0x1AF, 1, 0x1B0); (0x1B1, 0x1B2, 1, 0x28A);
   (0x1B3, 0x1B5, 2, 0x1B4); (0x1B7, 0x1B7, 1, 0x292);
   (0x1B8, 0x1B8, 1, 0x1B9); (0x1BC, 0x1BC, 1, 0x1BD);
   (0x1C4, 0x1C4, 1, 0x1C6); (0x1C5, 0x1C5, 1, 0x1C6);
   (0x1C7, 0x1C7, 1, 0x1C9); (0x1C8, 0x1C8, 1, 0x1C9);
   (0x1CA, 0x1CA, 1, 0x1CC); (0x1CB, 0x1DB, 2, 0x1CC);
   (0x1DE, 0x1EE, 2, 0x1DF); (0x1F1, 0x1F1, 1, 0x1F3);
   (0x1F2, 0x1F4, 2, 0x1F3); (0x1F6, 0x1F6, 1, 0x195);
   (0x1F7, 0x1F7, 1, 0x1BF); (0x1F8, 0x21E, 2, 0x1F9);
   (0x220, 0x220, 1, 0x19E); (0x222, 0x232, 2, 0x223);
   (0x23A, 0x23A, 1, 0x2C65); (0x23B, 0x23B, 1, 0x23C);
   (0x23D, 0x23D, 1, 0x19A); (0x23E, 0x23E, 1, 0x2C66);
   (0x241, 0x241, 1, 0x242); (0x243, 0x243, 1, 0x180);
   (0x244, 0x244, 1, 0x289); (0x245, 0x245, 1, 0x28C);
   (0x246, 0x24E, 2, 0x247); (0x370, 0x372, 2, 0x371);
   (0x376, 0x376, 1, 0x377); (0x37F, 0x37F, 1, 0x3F3);
   (0x386, 0x386, 1, 0x3AC); (0x388, 0x38A, 1, 0x3AD);
   (0x38C, 0x38C, 1, 0x3CC); (0x38E, 0x38F, 1, 0x3CD);
   (0x391, 0x3A1, 1, 0x3B1); (0x3A3, 0x3AB, 1, 0x3C3);
   (0x3CF, 0x3CF, 1, 0x3D7); (0x3D8, 0x3EE, 2, 0x3D9);
   (0x3F4, 0x3F4, 1, 0x3B8); (0x3F7, 0x3F7, 1, 0x3F8);
   (0x3F9, 0x3F9, 1, 0x3F2); (0x3FA, 0x3FA, 1, 0x3FB);
   (0x3FD, 0x3FF, 1, 0x37B); (0x400, 0x40F, 1, 0x450);
   (0x410, 0x42F, 1, 0x430); (0x460, 0x480, 2, 0x461);
   (0x48A, 0x4BE, 2, 0x48B); (0x4C0, 0x4C0, 1, 0x4CF);
   (0x4C1, 0x4CD, 2, 0x4C2); (0x4D0, 0x52E, 2, 0x4D1);
   (0x531, 0x556, 1, 0x561); (0x10A0, 0x10C5, 1, 0x2D00);
   (0x10C7, 0x10C7, 1, 0x2D27); (0x10CD, 0x10CD, 1, 0x2D2D);
   (0x13A0, 0x13EF, 1, 0xAB70); (0x13F0, 0x13F5, 1, 0x13F8);
   (0x1C90, 0x1CBA, 1, 0x10D0); (0x1CBD, 0x1CBF, 1, 0x10FD);
   (0x1E00, 0x1E94, 2, 0x1E01); (0x1E9E, 0x1E9E, 1, 0xDF);
   (0x1EA0, 0x1EFE, 2, 0x1EA1); (0x1F08, 0x1F0F, 1, 0x1F00);
   (0x1F18, 0x1F1D, 1, 0x1F10); (0x1F28, 0x1F2F, 1, 0x1F20);
   (0x1F38, 0x1F3F, 1, 0x1F30); (0x1F48, 0x1F4D, 1, 0x1F40);
   (0x1F59, 0x1F5F, 2, 0x1F51); (0x1F68, 0x1F6F, 1, 0x1F60);
   (0x1F88, 0x1F8F, 1, 0x1F80); (0x1F98, 0x1F9F, 1, 0x1F90);
   (0x1FA8, 0x1FAF, 1, 0x1FA0); (0x1FB8, 0x1FB9, 1, 0x1FB0);
   (0x1FBA, 0x1FBB, 1, 0x1F70); (0x1FBC, 0x1FBC, 1, 0x1FB3);
   (0x1FC8, 0x1FCB, 1, 0x1F72); (0x1FCC, 0x1FCC, 1, 0x1FC3);
   (0x1FD8, 0x1FD9, 1, 0x1FD0); (0x1FDA, 0x1FDB, 1, 0x1F76);
   (0x1FE8, 0x1FE9, 1, 0x1FE0); (0x1FEA, 0x1FEB, 1, 0x1F7A);
   (0x1FEC, 0x1FEC, 1, 0x1FE5); (0x1FF8, 0x1FF9, 1, 0x1F78);
   (0x1FFA, 0x1FFB, 1, 0x1F7C); (0x1FFC, 0x1FFC, 1, 0x1FF3);
   (0x2126, 0x2126, 1, 0x3C9); (0x212A, 0x212A, 1, 0x6B);
   (0x212B, 0x212B, 1, 0xE5); (0x2132, 0x2132, 1, 0x214E);
   (0x2160, 0x216F, 1, 0x2170); (0x2183, 0x2183, 1, 0x2184);
   (0x24B6, 0x24CF, 1, 0x24D0); (0x2C00, 0x2C2F, 1, 0x2C30);
   (0x2C60, 0x2C60, 1, 0x2C61); (0x2C62, 0x2C62, 1, 0x26B);
   (0x2C63, 0x2C63, 1, 0x1D7D); (0x2C64, 0x2C64, 1, 0x27D);
   (0x2C67, 0x2C6B, 2, 0x2C68); (0x2C6D, 0x2C6D, 1, 0x251);
   (0x2C6E, 0x2C6E, 1, 0x271); (0x2C6F, 0x2C6F, 1, 0x250);
   (0x2C70, 0x2C70, 1, 0x252); (0x2C72, 0x2C72, 1, 0x2C73);
   (0x2C75, 0x2C75, 1, 0x2C76); (0x2C7E, 0x2C7F, 1, 0x23F);
   (0x2C80, 0x2CE2, 2, 0x2C81); (0x2CEB, 0x2CED, 2, 0x2CEC);
   (0x2CF2, 0x2CF2, 1, 0x2CF3); (0xA640, 0xA66C, 2, 0xA641);
   (0xA680, 0xA69A, 2, 0xA681); (0xA722, 0xA72E, 2, 0xA723);
   (0xA732, 0xA76E, 2, 0xA733); (0xA779, 0xA77B, 2, 0xA77A);
   (0xA77D, 0xA77D, 1, 0x1D79); (0xA77E, 0xA786, 2, 0xA77F);
   (0xA78B, 0xA78B, 1, 0xA78C); (0xA78D, 0xA78D, 1, 0x265);
   (0xA790, 0xA792, 2, 0xA791); (0xA796, 0xA7A8, 2, 0xA797);
   (0xA7AA, 0xA7AA, 1, 0x266); (0xA7AB, 0xA7AB, 1, 0x25C);
   (0xA7AC, 0xA7AC, 1, 0x261); (0xA7AD, 0xA7AD, 1, 0x26C);
   (0xA7AE, 0xA7AE, 1, 0x26A); (0xA7B0, 0xA7B0, 1, 0x29E);
   (0xA7B1, 0xA7B1, 1, 0x287); (0xA7B2, 0xA7B2, 1, 0x29D);
   (0xA7B3, 0xA7B3, 1, 0xAB53); (0xA7B4, 0xA7C2, 2, 0xA7B5);
   (0xA7C4, 0xA7C4, 1, 0xA794); (0xA7C5, 0xA7C5, 1, 0x282);
   (0xA7C6, 0xA7C6, 1, 0x1D8E); (0xA7C7, 0xA7C9, 2, 0xA7C8);
   (0xA7D0, 0xA7D0, 1, 0xA7D1); (0xA7D6, 0xA7D8, 2, 0xA7D7);
   (0xA7F5, 0xA7F5, 1, 0xA7F6); (0xFF21, 0xFF3A, 1, 0xFF41);
   (0x10400, 0x10427, 1, 0x10428); (0x104B0, 0x104D3, 1, 0x104D8);
   (0x10570, 0x1057A, 1, 0x10597); (0x1057C, 0x1058A, 1, 0x105A3);
   (0x1058C, 0x10592, 1, 0x105B3); (0x10594, 0x10595, 1, 0x105BB);
   (0x10C80, 0x10CB2, 1, 0x10CC0); (0x118A0, 0x118BF, 1, 0x118C0);
   (0x16E40, 0x16E5F, 1, 0x16E60); (0x1E900, 0x1E921, 1, 0x1E922)].

Definition in_run (c : N) (r : N * N * N * N) : bool :=
  let '(lo, hi, step, _) := r in
  (lo <=? c) && (c <=? hi) && ((c - lo) mod step =? 0).

(** [_PyUnicode_ToLowerFull]: the image of one code point.  Only U+0130
    has an image of two code points. *)
Definition lower_cp (c : N) : str :=
  if c =? 0x130 then [0x69; 0x307]
  else match find (in_run c) lower_runs with
       | Some (lo, _, _, image) => [image + (c - lo)]
       | None => [c]
       end.

Definition in_ranges (c : N) (l : list (N * N)) : bool :=
  existsb (fun r => (fst r <=? c) && (c <=? snd r)) l.

(** The code points with the property Case_Ignorable. *)
Definition case_ignorable_ranges : list (N * N) :=
  [(0x27, 0x27); (0x2E, 0x2E); (0x3A, 0x3A); (0x5E, 0x5E); (0x60, 0x60);
   (0xA8, 0xA8); (0xAD, 0xAD); (0xAF, 0xAF); (0xB4, 0xB4); (0xB7, 0xB8);
   (0x2B0, 0x36F); (0x374, 0x375); (0x37A, 0x37A); (0x384, 0x385);
   (0x387, 0x387); (0x483, 0x489); (0x559, 0x559); (0x55F, 0x55F);
   (0x591, 0x5BD); (0x5BF, 0x5BF); (0x5C1, 0x5C2); (0x5C4, 0x5C5);
   (0x5C7, 0x5C7); (0x5F4, 0x5F4); (0x600, 0x605); (0x610, 0x61A);
   (0x61C, 0x61C); (0x640, 0x640); (0x64B, 0x65F); (0x670, 0x670);
   (0x6D6, 0x6DD); (0x6DF, 0x6E8); (0x6EA, 0x6ED); (0x70F, 0x70F);
   (0x711, 0x711); (0x730, 0x74A); (0x7A6, 0x7B0); (0x7EB, 0x7F5);
   (0x7FA, 0x7FA); (0x7FD, 0x7FD); (0x816, 0x82D); (0x859, 0x85B);
   (0x888, 0x888); (0x890, 0x891); (0x898, 0x89F); (0x8C9, 0x902);
   (0x93A, 0x93A); (0x93C, 0x93C); (0x941, 0x948); (0x94D, 0x94D);
   (0x951, 0x957); (0x962, 0x963); (0x971, 0x971); (0x981, 0x981);
   (0x9BC, 0x9BC); (0x9C1, 0x9C4); (0x9CD, 0x9CD); (0x9E2, 0x9E3);
   (0x9FE, 0x9FE); (0xA01, 0xA02); (0xA3C, 0xA3C); (0xA41, 0xA42);
   (0xA47, 0xA48); (0xA4B, 0xA4D); (0xA51, 0xA51); (0xA70, 0xA71);
   (0xA75, 0xA75); (0xA81, 0xA82); (0xABC, 0xABC); (0xAC1, 0xAC5);
   (0xAC7, 0xAC8); (0xACD, 0xACD); (0xAE2, 0xAE3); (0xAFA, 0xAFF);
   (0xB01, 0xB01); (0xB3C, 0xB3C); (0xB3F, 0xB3F); (0xB41, 0xB44);
   (0xB4D, 0xB4D); (0xB55, 0xB56); (0xB62, 0xB63); (0xB82, 0xB82);
   (0xBC0, 0xBC0); (0xBCD, 0xBCD); (0xC00, 0xC00); (0xC04, 0xC04);
   (0xC3C, 0xC3C); (0xC3E, 0xC40); (0xC46, 0xC48); (0xC4A, 0xC4D);
   (0xC55, 0xC56); (0xC62, 0xC63); (0xC81, 0xC81); (0xCBC, 0xCBC);
   (0xCBF, 0xCBF); (0xCC6, 0xCC6); (0xCCC, 0xCCD); (0xCE2, 0xCE3);
   (0xD00, 0xD01); (0xD3B, 0xD3C); (0xD41, 0xD44); (0xD4D, 0xD4D);
   (0xD62, 0xD63); (0xD81, 0xD81); (0xDCA, 0xDCA); (0xDD2, 0xDD4);
   (0xDD6, 0xDD6); (0xE31, 0xE31); (0xE34, 0xE3A); (0xE46, 0xE4E);
   (0xEB1, 0xEB1); (0xEB4, 0xEBC); (0xEC6, 0xEC6); (0xEC8, 0xECD);
   (0xF18, 0xF19); (0xF35, 0xF35); (0xF37, 0xF37); (0xF39, 0xF39);
   (0xF71, 0xF7E); (0xF80, 0xF84); (0xF86, 0xF87); (0xF8D, 0xF97);
   (0xF99, 0xFBC); (0xFC6, 0xFC6); (0x102D, 0x1030); (0x1032, 0x1037);
   (0x1039, 0x103A); (0x103D, 0x103E); (0x1058, 0x1059); (0x105E, 0x1060);
   (0x1071, 0x1074); (0x1082, 0x1082); (0x1085, 0x1086); (0x108D, 0x108D);
   (0x109D, 0x109D); (0x10FC, 0x10FC); (0x135D, 0x135F); (0x1712, 0x1714);
   (0x1732, 0x1733); (0x1752, 0x1753); (0x1772, 0x1773); (0x17B4, 0x17B5);
   (0x17B7, 0x17BD); (0x17C6, 0x17C6); (0x17C9, 0x17D3); (0x17D7, 0x17D7);
   (0x17DD, 0x17DD); (0x180B, 0x180F); (0x1843, 0x1843); (0x1885, 0x1886);
   (0x18A9, 0x18A9); (0x1920, 0x1922); (0x1927, 0x1928); (0x1932, 0x1932);
   (0x1939, 0x193B); (0x1A17, 0x1A18); (0x1A1B, 0x1A1B); (0x1A56, 0x1A56);
   (0x1A58, 0x1A5E); (0x1A60, 0x1A60); (0x1A62, 0x1A62); (0x1A65, 0x1A6C);
   (0x1A73, 0x1A7C); (0x1A7F, 0x1A7F); (0x1AA7, 0x1AA7); (0x1AB0, 0x1ACE);
   (0x1B00, 0x1B03); (0x1B34, 0x1B34); (0x1B36, 0x1B3A); (0x1B3C, 0x1B3C);
   (0x1B42, 0x1B42); (0x1B6B, 0x1B73); (0x1B80, 0x1B81); (0x1BA2, 0x1BA5);
   (0x1BA8, 0x1BA9); (0x1BAB, 0x1BAD); (0x1BE6, 0x1BE6); (0x1BE8, 0x1BE9);
   (0x1BED, 0x1BED); (0x1BEF, 0x1BF1); (0x1C2C, 0x1C33); (0x1C36, 0x1C37);
   (0x1C78, 0x1C7D); (0x1CD0, 0x1CD2); (0x1CD4, 0x1CE0); (0x1CE2, 0x1CE8);
   (0x1CED, 0x1CED); (0x1CF4, 0x1CF4); (0x1CF8, 0x1CF9); (0x1D2C, 0x1D6A);
   (0x1D78, 0x1D78); (0x1D9B, 0x1DFF); (0x1FBD, 0x1FBD); (0x1FBF, 0x1FC1);
   (0x1FCD, 0x1FCF); (0x1FDD, 0x1FDF); (0x1FED, 0x1FEF); (0x1FFD, 0x1FFE);
   (0x200B, 0x200F); (0x2018, 0x2019); (0x2024, 0x2024); (0x2027, 0x2027);
   (0x202A, 0x202E); (0x2060, 0x2064); (0x2066, 0x206F); (0x2071, 0x2071);
   (0x207F, 0x207F); (0x2090, 0x209C); (0x20D0, 0x20F0); (0x2C7C, 0x2C7D);
   (0x2CEF, 0x2CF1); (0x2D6F, 0x2D6F); (0x2D7F, 0x2D7F); (0x2DE0, 0x2DFF);
   (0x2E2F, 0x2E2F); (0x3005, 0x3005); (0x302A, 0x302D); (0x3031, 0x3035);
   (0x303B, 0x303B); (0x3099, 0x309E); (0x30FC, 0x30FE); (0xA015, 0xA015);
   (0xA4F8, 0xA4FD); (0xA60C, 0xA60C); (0xA66F, 0xA672); (0xA674, 0xA67D);
   (0xA67F, 0xA67F); (0xA69C, 0xA69F); (0xA6F0, 0xA6F1); (0xA700, 0xA721);
   (0xA770, 0xA770); (0xA788, 0xA78A); (0xA7F2, 0xA7F4); (0xA7F8, 0xA7F9);
   (0xA802, 0xA802); (0xA806, 0xA806); (0xA80B, 0xA80B); (0xA825, 0xA826);
   (0xA82C, 0xA82C); (0xA8C4, 0xA8C5); (0xA8E0, 0xA8F1); (0xA8FF, 0xA8FF);
   (0xA926, 0xA92D); (0xA947, 0xA951); (0xA980, 0xA982); (0xA9B3, 0xA9B3);
   (0xA9B6, 0xA9B9); (0xA9BC, 0xA9BD); (0xA9CF, 0xA9CF); (0xA9E5, 0xA9E6);
   (0xAA29, 0xAA2E); (0xAA31, 0xAA32); (0xAA35, 0xAA36); (0xAA43, 0xAA43);
   (0xAA4C, 0xAA4C); (0xAA70, 0xAA70); (0xAA7C, 0xAA7C); (0xAAB0, 0xAAB0);
   (0xAAB2, 0xAAB4); (0xAAB7, 0xAAB8); (0xAABE, 0xAABF); (0xAAC1, 0xAAC1);
   (0xAADD, 0xAADD); (0xAAEC, 0xAAED); (0xAAF3, 0xAAF4); (0xAAF6, 0xAAF6);
   (0xAB5B, 0xAB5F); (0xAB69, 0xAB6B); (0xABE5, 0xABE5); (0xABE8, 0xABE8);
   (0xABED, 0xABED); (0xFB1E, 0xFB1E); (0xFBB2, 0xFBC2); (0xFE00, 0xFE0F);
   (0xFE13, 0xFE13); (0xFE20, 0xFE2F); (0xFE52, 0xFE52); (0xFE55, 0xFE55);
   (0xFEFF, 0xFEFF); (0xFF07, 0xFF07); (0xFF0E, 0xFF0E); (0xFF1A, 0xFF1A);
   (0xFF3E, 0xFF3E); (0xFF40, 0xFF40); (0xFF70, 0xFF70); (0xFF9E, 0xFF9F);
   (0xFFE3, 0xFFE3); (0xFFF9, 0xFFFB); (0x101FD, 0x101FD);
   (0x102E0, 0x102E0); (0x10376, 0x1037A); (0x10780, 0x10785);
   (0x10787, 0x107B0); (0x107B2, 0x107BA); (0x10A01, 0x10A03);
   (0x10A05, 0x10A06); (0x10A0C, 0x10A0F); (0x10A38, 0x10A3A);
   (0x10A3F, 0x10A3F); (0x10AE5, 0x10AE6); (0x10D24, 0x10D27);
   (0x10EAB, 0x10EAC); (0x10F46, 0x10F50); (0x10F82, 0x10F85);
   (0x11001, 0x11001); (0x11038, 0x11046); (0x11070, 0x11070);
   (0x11073, 0x11074); (0x1107F, 0x11081); (0x110B3, 0x110B6);
   (0x110B9, 0x110BA); (0x110BD, 0x110BD); (0x110C2, 0x110C2);
   (0x110CD, 0x110CD); (0x11100, 0x11102); (0x11127, 0x1112B);
   (0x1112D, 0x11134); (0x11173, 0x11173); (0x11180, 0x11181);
   (0x111B6, 0x111BE); (0x111C9, 0x111CC); (0x111CF, 0x111CF);
   (0x1122F, 0x11231); (0x11234, 0x11234); (0x11236, 0x11237);
   (0x1123E, 0x1123E); (0x112DF, 0x112DF); (0x112E3, 0x112EA);
   (0x11300, 0x11301); (0x1133B, 0x1133C); (0x11340, 0x11340);
   (0x11366, 0x1136C); (0x11370, 0x11374); (0x11438, 0x1143F);
   (0x11442, 0x11444); (0x11446, 0x11446); (0x1145E, 0x1145E);
   (0x114B3, 0x114B8); (0x114BA, 0x114BA); (0x114BF, 0x114C0);
   (0x114C2, 0x114C3); (0x115B2, 0x115B5); (0x115BC, 0x115BD);
   (0x115BF, 0x115C0); (0x115DC, 0x115DD); (0x11633, 0x1163A);
   (0x1163D, 0x1163D); (0x1163F, 0x11640); (0x116AB, 0x116AB);
   (0x116AD, 0x116AD); (0x116B0, 0x116B5); (0x116B7, 0x116B7);
   (0x1171D, 0x1171F); (0x11722, 0x11725); (0x11727, 0x1172B);
   (0x1182F, 0x11837); (0x11839, 0x1183A); (0x1193B, 0x1193C);
   (0x1193E, 0x1193E); (0x11943, 0x11943); (0x119D4, 0x119D7);
   (0x119DA, 0x119DB); (0x119E0, 0x119E0); (0x11A01, 0x11A0A);
   (0x11A33, 0x11A38); (0x11A3B, 0x11A3E); (0x11A47, 0x11A47);
   (0x11A51, 0x11A56); (0x11A59, 0x11A5B); (0x11A8A, 0x11A96);
   (0x11A98, 0x11A99); (0x11C30, 0x11C36); (0x11C38, 0x11C3D);
   (0x11C3F, 0x11C3F); (0x11C92, 0x11CA7); (0x11CAA, 0x11CB0);
   (0x11CB2, 0x11CB3); (0x11CB5, 0x11CB6); (0x11D31, 0x11D36);
   (0x11D3A, 0x11D3A); (0x11D3C, 0x11D3D); (0x11D3F, 0x11D45);
   (0x11D47, 0x11D47); (0x11D90, 0x11D91); (0x11D95, 0x11D95);
   (0x11D97, 0x11D97); (0x11EF3, 0x11EF4); (0x13430, 0x13438);
   (0x16AF0, 0x16AF4); (0x16B30, 0x16B36); (0x16B40, 0x16B43);
   (0x16F4F, 0x16F4F); (0x16F8F, 0x16F9F); (0x16FE0, 0x16FE1);
   (0x16FE3, 0x16FE4); (0x1AFF0, 0x1AFF3); (0x1AFF5, 0x1AFFB);
   (0x1AFFD, 0x1AFFE); (0x1BC9D, 0x1BC9E); (0x1BCA0, 0x1BCA3);
   (0x1CF00, 0x1CF2D); (0x1CF30, 0x1CF46); (0x1D167, 0x1D169);
   (0x1D173, 0x1D182); (0x1D185, 0x1D18B); (0x1D1AA, 0x1D1AD);
   (0x1D242, 0x1D244); (0x1DA00, 0x1DA36); (0x1DA3B, 0x1DA6C);
   (0x1DA75, 0x1DA75); (0x1DA84, 0x1DA84); (0x1DA9B, 0x1DA9F);
   (0x1DAA1, 0x1DAAF); (0x1E000, 0x1E006); (0x1E008, 0x1E018);
   (0x1E01B, 0x1E021); (0x1E023, 0x1E024); (0x1E026, 0x1E02A);
   (0x1E130, 0x1E13D); (0x1E2AE, 0x1E2AE); (0x1E2EC, 0x1E2EF);
   (0x1E8D0, 0x1E8D6); (0x1E944, 0x1E94B); (0x1F3FB, 0x1F3FF);
   (0xE0001, 0xE0001); (0xE0020, 0xE007F); (0xE0100, 0xE01EF)].

(** The code points with the property Cased, those that are also
    Case_Ignorable left out (the context of a sigma is looked at through
    [case_ignorable] first). *)
Definition cased_ranges : list (N * N) :=
  [(0x41, 0x5A); (0x61, 0x7A); (0xAA, 0xAA); (0xB5, 0xB5); (0xBA, 0xBA);
   (0xC0, 0xD6); (0xD8, 0xF6); (0xF8, 0x1BA); (0x1BC, 0x1BF); (0x1C4, 0x293);
   (0x295, 0x2AF); (0x370, 0x373); (0x376, 0x377); (0x37B, 0x37D);
   (0x37F, 0x37F); (0x386, 0x386); (0x388, 0x38A); (0x38C, 0x38C);
   (0x38E, 0x3A1); (0x3A3, 0x3F5); (0x3F7, 0x481); (0x48A, 0x52F);
   (0x531, 0x556); (0x560, 0x588); (0x10A0, 0x10C5); (0x10C7, 0x10C7);
   (0x10CD, 0x10CD); (0x10D0, 0x10FA); (0x10FD, 0x10FF); (0x13A0, 0x13F5);
   (0x13F8, 0x13FD); (0x1C80, 0x1C88); (0x1C90, 0x1CBA); (0x1CBD, 0x1CBF);
   (0x1D00, 0x1D2B); (0x1D6B, 0x1D77); (0x1D79, 0x1D9A); (0x1E00, 0x1F15);
   (0x1F18, 0x1F1D); (0x1F20, 0x1F45); (0x1F48, 0x1F4D); (0x1F50, 0x1F57);
   (0x1F59, 0x1F59); (0x1F5B, 0x1F5B); (0x1F5D, 0x1F5D); (0x1F5F, 0x1F7D);
   (0x1F80, 0x1FB4); (0x1FB6, 0x1FBC); (0x1FBE, 0x1FBE); (0x1FC2, 0x1FC4);
   (0x1FC6, 0x1FCC); (0x1FD0, 0x1FD3); (0x1FD6, 0x1FDB); (0x1FE0, 0x1FEC);
   (0x1FF2, 0x1FF4); (0x1FF6, 0x1FFC); (0x2102, 0x2102); (0x2107, 0x2107);
   (0x210A, 0x2113); (0x2115, 0x2115); (0x2119, 0x211D); (0x2124, 0x2124);
   (0x2126, 0x2126); (0x2128, 0x2128); (0x212A, 0x212D); (0x212F, 0x2134);
   (0x2139, 0x2139); (0x213C, 0x213F); (0x2145, 0x2149); (0x214E, 0x214E);
   (0x2160, 0x217F); (0x2183, 0x2184); (0x24B6, 0x24E9); (0x2C00, 0x2C7B);
   (0x2C7E, 0x2CE4); (0x2CEB, 0x2CEE); (0x2CF2, 0x2CF3); (0x2D00, 0x2D25);
   (0x2D27, 0x2D27); (0x2D2D, 0x2D2D); (0xA640, 0xA66D); (0xA680, 0xA69B);
   (0xA722, 0xA76F); (0xA771, 0xA787); (0xA78B, 0xA78E); (0xA790, 0xA7CA);
   (0xA7D0, 0xA7D1); (0xA7D3, 0xA7D3); (0xA7D5, 0xA7D9); (0xA7F5, 0xA7F6);
   (0xA7FA, 0xA7FA); (0xAB30, 0xAB5A); (0xAB60, 0xAB68); (0xAB70, 0xABBF);
   (0xFB00, 0xFB06); (0xFB13, 0xFB17); (0xFF21, 0xFF3A); (0xFF41, 0xFF5A);
   (0x10400, 0x1044F); (0x104B0, 0x104D3); (0x104D8, 0x104FB);
   (0x10570, 0x1057A); (0x1057C, 0x1058A); (0x1058C, 0x10592);
   (0x10594, 0x10595); (0x10597, 0x105A1); (0x105A3, 0x105B1);
   (0x105B3, 0x105B9); (0x105BB, 0x105BC); (0x10C80, 0x10CB2);
   (0x10CC0, 0x10CF2); (0x118A0, 0x118DF); (0x16E40, 0x16E7F);
   (0x1D400, 0x1D454); (0x1D456, 0x1D49C); (0x1D49E, 0x1D49F);
   (0x1D4A2, 0x1D4A2); (0x1D4A5, 0x1D4A6); (0x1D4A9, 0x1D4AC);
   (0x1D4AE, 0x1D4B9); (0x1D4BB, 0x1D4BB); (0x1D4BD, 0x1D4C3);
   (0x1D4C5, 0x1D505); (0x1D507, 0x1D50A); (0x1D50D, 0x1D514);
   (0x1D516, 0x1D51C); (0x1D51E, 0x1D539); (0x1D53B, 0x1D53E);
   (0x1D540, 0x1D544); (0x1D546, 0x1D546); (0x1D54A, 0x1D550);
   (0x1D552, 0x1D6A5); (0x1D6A8, 0x1D6C0); (0x1D6C2, 0x1D6DA);
   (0x1D6DC, 0x1D6FA); (0x1D6FC, 0x1D714); (0x1D716, 0x1D734);
   (0x1D736, 0x1D74E); (0x1D750, 0x1D76E); (0x1D770, 0x1D788);
   (0x1D78A, 0x1D7A8); (0x1D7AA, 0x1D7C2); (0x1D7C4, 0x1D7CB);
   (0x1DF00, 0x1DF09); (0x1DF0B, 0x1DF1E); (0x1E900, 0x1E943);
   (0x1F130, 0x1F149); (0x1F150, 0x1F169); (0x1F170, 0x1F189)].

Definition case_ignorable (c : N) : bool := in_ranges c case_ignorable_ranges.

Definition cased (c : N) : bool := in_ranges c cased_ranges.

(** The first code point of [s] that is not case-ignorable is cased. *)
Fixpoint cased_ahead (s : str) : bool :=
  match s with
  | [] => false
  | c :: r => if case_ignorable c then cased_ahead r else cased c
  end.

(** Lowering from left to right.  [before] tells whether the nearest
    code point to the left that is not case-ignorable is cased.  A
    capital sigma (U+03A3) becomes the final sigma (U+03C2) when it is
    preceded by a cased letter and not followed by one, and the small
    sigma (U+03C3) otherwise. *)
Fixpoint lower_from (before : bool) (s : str) : str :=
  match s with
  | [] => []
  | c :: r =>
      (if c =? 0x3A3
       then [if before && negb (cased_ahead r) then 0x3C2 else 0x3C3]
       else lower_cp c)
      ++ lower_from (if case_ignorable c then before else cased c) r
  end.

(** [s.lower()]. *)
Definition lower (s : str) : str := lower_from false s.

(** [str.isspace()] per character: the Unicode white space set. *)
Definition isspace (c : N) : bool :=
  ((9 <=? c) && (c <=? 13)) || ((28 <=? c) && (c <=? 32))
  || (c =? 133) || (c =? 160) || (c =? 5760)
  || ((8192 <=? c) && (c <=? 8202))
  || (c =? 8232) || (c =? 8233) || (c =? 8239) || (c =? 8287)
  || (c =? 12288).

Fixpoint lstrip (s : str) : str :=
  match s with
  | [] => []
  | c :: r => if isspace c then lstrip r else s
  end.

(** [str.strip()] with no argument. *)
Definition strip (s : str) : str := rev (lstrip (rev (lstrip s))).

Fixpoint startswith (p s : str) : bool :=
  match p, s with
  | [], _ => true
  | x :: p', y :: s' => (x =? y) && startswith p' s'
  | _ :: _, [] => false
  end.

(** [needle in hay] on strings. *)
Fixpoint contains (needle hay : str) : bool :=
  startswith needle hay ||
  match hay with
  | [] => false
  | _ :: r => contains needle r
  end.

(** *** UTF-8 *)

Definition is_surrogate (c : N) : bool := (0xD800 <=? c) && (c <=? 0xDFFF).

(** Encoding of one code point; [None] is [UnicodeEncodeError]
    (a surrogate, which strict UTF-8 refuses). *)
Definition utf8_encode_cp (c : N) : option bytes :=
  if c <? 0x80 then Some [c]
  else if c <? 0x800 then Some [0xC0 + c / 64; 0x80 + c mod 64]
  else if c <? 0x10000 then
    if is_surrogate c then None
    else Some [0xE0 + c / 4096; 0x80 + (c / 64) mod 64; 0x80 + c mod 64]
  else if c <? 0x110000 then
    Some [0xF0 + c / 262144; 0x80 + (c / 4096) mod 64;
          0x80 + (c / 64) mod 64; 0x80 + c mod 64]
  else None.

(** [s.encode("utf-8")]. *)
Fixpoint utf8_encode (s : str) : option bytes :=
  match s with
  | [] => Some []
  | c :: r =>
      match utf8_encode_cp c, utf8_encode r with
      | Some b, Some br => Some (b ++ br)
      | _, _ => None
      end
  end.

Definition is_cont (b : N) : bool := (0x80 <=? b) && (b <=? 0xBF).

Definition cons_opt (c : N) (o : option str) : option str :=
  match o with Some s => Some (c :: s) | None => None end.

(** The UTF-8 decoder.  With [strict = true] an ill-formed sequence is
    an error ([None], [UnicodeDecodeError]); with [strict = false] the
    offending octet is dropped and decoding goes on
    ([errors='ignore']). *)
Fixpoint utf8_decode_gen (strict : bool) (bs : bytes) : option str :=
  match bs with
  | [] => Some []
  | b0 :: r =>
      let bad := if strict then None else utf8_decode_gen strict r in
      if b0 <? 0x80 then cons_opt b0 (utf8_decode_gen strict r)
      else if (0xC2 <=? b0) && (b0 <=? 0xDF) then
        match r with
        | b1 :: r1 =>
            if is_cont b1
            then cons_opt ((b0 - 0xC0) * 64 + (b1 - 0x80))
                          (utf8_decode_gen strict r1)
            else bad
        | _ => bad
        end
      else if (0xE0 <=? b0) && (b0 <=? 0xEF) then
        match r with
        | b1 :: b2 :: r2 =>
            let c := (b0 - 0xE0) * 4096 + (b1 - 0x80) * 64 + (b2 - 0x80) in
            if is_cont b1 && is_cont b2 && (0x800 <=? c)
               && negb (is_surrogate c)
            then cons_opt c (utf8_decode_gen strict r2)
            else bad
        | _ => bad
        end
      else if (0xF0 <=? b0) && (b0 <=? 0xF4) then
        match r with
        | b1 :: b2 :: b3 :: r3 =>
            let c := (b0 - 0xF0) * 262144 + (b1 - 0x80) * 4096
                     + (b2 - 0x80) * 64 + (b3 - 0x80) in
            if is_cont b1 && is_cont b2 && is_cont b3
               && (0x10000 <=? c) && (c <? 0x110000)
            then cons_opt c (utf8_decode_gen strict r3)
            else bad
        | _ => bad
        end
      else bad
  end.

(** [b.decode("utf-8")]. *)
Definition utf8_decode (bs : bytes) : option str := utf8_decode_gen true bs.

(** [b.decode(errors='ignore')]: never fails. *)
Definition decode_ignore (bs : bytes) : str :=
  match utf8_decode_gen false bs with
  | Some s => s
  | None => []
  end.

(** Reading in text mode with [newline=None]: a carriage return, alone
    or followed by a line feed, comes out as one line feed. *)
Fixpoint universal_newlines (s : str) : str :=
  match s with
  | [] => []
  | c :: r =>
      if c =? 13 then
        10 :: match r with
              | [] => []
              | d :: r' =>
                  if d =? 10 then universal_newlines r'
                  else universal_newlines r
              end
      else c :: universal_newlines r
  end.

End Text.
Import Text.


(* ===================================================================== *)
(** ** Exceptions, results, JSON values *)
(* ===================================================================== *)

Module Py.

(** Built-in exceptions the code can meet. *)
Inductive pyexc :=
| FileExistsError | FileNotFoundError | NotADirectoryError
| IsADirectoryError | UnicodeEncodeError | UnicodeDecodeError
| ValueError | TypeError | RuntimeError | OSError.

(** The [detail] of an [HTTPException]: a literal of the source, or
    [str(e)] of a caught exception, whose wording is the platform's. *)
Inductive detail :=
| Msg (s : str)
| StrOf (e : pyexc).

(** What a handler can raise: an [HTTPException], or an exception no
    handler catches (the framework answers 500). *)
Inductive exn :=
| HTTPException (status_code : N) (d : detail)
| Uncaught (e : pyexc).

Inductive result (A : Type) :=
| Ok (a : A)
| Raise (e : exn).
Arguments Ok {A} a.
Arguments Raise {A} e.

(** The outcome of a library or system call: a value, or a built-in
    exception. *)
Inductive io (A : Type) :=
| Done (a : A)
| Fail (e : pyexc).
Arguments Done {A} a.
Arguments Fail {A} e.

(** A call outside any [try]: its exception leaves the handler. *)
Definition uncaught {A : Type} (r : io A) : result A :=
  match r with
  | Done a => Ok a
  | Fail e => Raise (Uncaught e)
  end.

(** [except Exception as e: raise HTTPException(status_code=500,
    detail=str(e))]. *)
Definition as_http_500 {A : Type} (r : io A) : result A :=
  match r with
  | Done a => Ok a
  | Fail e => Raise (HTTPException 500 (StrOf e))
  end.

(** JSON values (Python dicts, lists and strings of the responses);
    numbers are integers. *)
Inductive json :=
| JNull
| JBool (b : bool)
| JNum (n : Z)
| JStr (s : str)
| JArr (items : list json)
| JObj (fields : list (str * json)).

Fixpoint assoc {A : Type} (k : str) (l : list (str * A)) : option A :=
  match l with
  | [] => None
  | (k', v) :: r => if str_eqb k k' then Some v else assoc k r
  end.

(** [d.get(key, default)] on a dict. *)
Definition dict_get (d : json) (key : str) (default : json) : json :=
  match d with
  | JObj fields =>
      match assoc key fields with
      | Some v => v
      | None => default
      end
  | _ => default
  end.

End Py.
Import Py.

(* ===================================================================== *)
(** ** Pure POSIX paths (pathlib) *)
(* ===================================================================== *)

Module Pathlib.

(** An absolute path: its components below the root. *)
Definition PosixPath := list str.

Definition path_eqb (a b : PosixPath) : bool :=
  (List.length a =? List.length b)%nat && forallb (fun xy => str_eqb (fst xy) (snd xy)) (combine a b).

(** [p in paths]. *)
Definition path_in (p : PosixPath) (l : list PosixPath) : bool :=
  existsb (path_eqb p) l.

(** [s.split(sep)]. *)
Fixpoint split_on (sep : N) (s : str) : list str :=
  match s with
  | [] => [[]]
  | c :: r =>
      if c =? sep then [] :: split_on sep r
      else match split_on sep r with
           | h :: t => (c :: h) :: t
           | [] => [[c]]
           end
  end.

(** Components of a path string as pathlib parses it: empty components
    and [.] are dropped, [..] is kept. *)
Definition path_parts (s : str) : list str :=
  filter (fun c => negb (str_eqb c [] || str_eqb c (py "."))) (split_on 47 s).

Definition is_absolute (s : str) : bool :=
  match s with
  | c :: _ => c =? 47
  | [] => false
  end.

(** [base / s]: an absolute right operand replaces the left one. *)
Definition joinpath (base : PosixPath) (s : str) : PosixPath :=
  if is_absolute s then path_parts s else base ++ path_parts s.

(** [p.parent]; the root is its own parent. *)
Definition parent (p : PosixPath) : PosixPath := removelast p.

(** Proper prefixes of a component list, shortest first. *)
Fixpoint proper_prefixes (p : PosixPath) : list PosixPath :=
  match p with
  | [] => []
  | x :: r => [] :: List.map (cons x) (proper_prefixes r)
  end.

(** [p.parents]: the ancestors, nearest first, ending with the root. *)
Definition parents (p : PosixPath) : list PosixPath := rev (proper_prefixes p).

(** [p.relative_to(base)]: the components of [p] below [base]; [None] is
    [ValueError].  The test is on components only. *)
Fixpoint relative_to (p base : PosixPath) : option (list str) :=
  match base, p with
  | [], _ => Some p
  | b :: base', x :: p' => if str_eqb b x then relative_to p' base' else None
  | _ :: _, [] => None
  end.

(** [str(rel)] of a relative path. *)
Fixpoint join_slash (l : list str) : str :=
  match l with
  | [] => []
  | [x] => x
  | x :: r => x ++ 47 :: join_slash r
  end.

Definition str_of_relative (l : list str) : str :=
  match l with
  | [] => py "."
  | _ => join_slash l
  end.

(** [..] and the lexical part of [Path.resolve()]: each [..] removes the
    component before it, and is dropped at the root. *)
Fixpoint normalize (done : PosixPath) (todo : list str) : PosixPath :=
  match todo with
  | [] => done
  | c :: r =>
      if str_eqb c (py "..") then normalize (removelast done) r
      else normalize (done ++ [c]) r
  end.

End Pathlib.
Import Pathlib.

(* ===================================================================== *)
(** ** The path guard *)
(* ===================================================================== *)

Section PathGuard.

(** The file system state, and [Path.resolve()] on it: the canonical
    path, with [.], [..] and symbolic links resolved, or the exception
    the call raises (a symbolic link loop, an embedded NUL, a name that
    cannot be encoded). *)
Variable FS : Type.
Variable resolve : FS -> PosixPath -> io PosixPath.

(** [BASE_DIR = Path(__file__).resolve().parent]: where the module is
    installed. *)
Variable BASE_DIR : PosixPath.

Definition WORKSPACE_DIR : PosixPath := joinpath BASE_DIR (py "workspace").

(** [safe_workspace_path], in state-passing form. *)
Definition safe_workspace_path (rel_path : str) (fs : FS)
  : result PosixPath * FS :=
  match resolve fs (joinpath WORKSPACE_DIR rel_path) with
  | Fail e => (Raise (Uncaught e), fs)
  | Done target =>
      if negb (path_in WORKSPACE_DIR (parents target))
         && negb (path_eqb target WORKSPACE_DIR)
      then (Raise (HTTPException 400 (Msg (py "Invalid path"))), fs)
      else (Ok target, fs)
  end.

End PathGuard.

(* ===================================================================== *)
(** ** The file system *)
(* ===================================================================== *)

Module FileSystem.

(** A tree of regular files and directories.  Symbolic links and
    special files (sockets, pipes, devices) are not part of the model,
    and the paths of the nodes the tree holds are taken to fit the limits
    of the system.  The entries of a directory are in the order
    [iterdir()] yields them, which is the system's. *)
Inductive node :=
| File (data : bytes)
| Dir (entries : list (str * node)).

Definition is_file (n : node) : bool :=
  match n with File _ => true | Dir _ => false end.

Definition is_dir (n : node) : bool :=
  match n with File _ => false | Dir _ => true end.

(** The node at a canonical path. *)
Fixpoint lookup (n : node) (p : PosixPath) : option node :=
  match p with
  | [] => Some n
  | c :: r =>
      match n with
      | Dir es =>
          match assoc c es with
          | Some ch => lookup ch r
          | None => None
          end
      | File _ => None
      end
  end.

(** Replace the entry of that name, or add one. *)
Fixpoint put (k : str) (v : node) (l : list (str * node))
  : list (str * node) :=
  match l with
  | [] => [(k, v)]
  | (k', v') :: r =>
      if str_eqb k k' then (k, v) :: r else (k', v') :: put k v r
  end.

(** *** Paths as the system calls take them *)

(** [os.fsencode]: UTF-8 with the [surrogateescape] error handler.  The
    surrogates U+DC80..U+DCFF stand for one octet each; no other
    surrogate can be encoded. *)
Definition is_escape (c : N) : bool := (0xDC80 <=? c) && (c <=? 0xDCFF).

Definition fs_unencodable (c : N) : bool :=
  (is_surrogate c && negb (is_escape c)) || (0x110000 <=? c).

(** The number of octets of an encoded name. *)
Definition fs_width (c : N) : N :=
  if c <? 0x80 then 1
  else if c <? 0x800 then 2
  else if is_escape c then 1
  else if c <? 0x10000 then 3
  else 4.

Definition fs_length (s : str) : N :=
  fold_right (fun c n => fs_width c + n) 0 s.

(** The limits of Linux: a name of at most 255 octets, a path of fewer
    than 4096. *)
Definition NAME_MAX : N := 255.
Definition PATH_MAX : N := 4096.

(** The number of octets of [str(p)]. *)
Definition path_length (p : PosixPath) : N :=
  match p with
  | [] => 1
  | _ => fold_right (fun c n => 1 + fs_length c + n) 0 p
  end.

(** What converting one name raises: [UnicodeEncodeError] for a
    surrogate that cannot be encoded, else [ValueError] for an embedded
    NUL. *)
Definition name_error (c : str) : option pyexc :=
  if existsb fs_unencodable c then Some UnicodeEncodeError
  else if existsb (N.eqb 0) c then Some ValueError
  else None.

(** What a system call raises on a path before the tree is looked at:
    the path is encoded as a whole, then refused by the kernel when it
    is too long ([ENAMETOOLONG], a plain [OSError]). *)
Definition getname (p : PosixPath) : option pyexc :=
  if existsb (existsb fs_unencodable) p then Some UnicodeEncodeError
  else if existsb (existsb (N.eqb 0)) p then Some ValueError
  else if PATH_MAX <=? path_length p then Some OSError
  else None.

(** The kernel's walk of an absolute path that may hold [..]: every
    component is looked up in a directory that exists, and a name longer
    than [NAME_MAX] is refused there ([ENAMETOOLONG]). *)
Fixpoint walk (fs : node) (cur : PosixPath) (todo : list str)
  : io PosixPath :=
  match todo with
  | [] => Done cur
  | c :: r =>
      match lookup fs cur with
      | Some (Dir _) =>
          if str_eqb c (py "..") then walk fs (removelast cur) r
          else if NAME_MAX <? fs_length c then Fail OSError
          else walk fs (cur ++ [c]) r
      | Some (File _) => Fail NotADirectoryError
      | None => Fail FileNotFoundError
      end
  end.

(** [os.stat(p)]: the node the path leads to, or the error. *)
Definition os_stat (fs : node) (p : PosixPath) : io node :=
  match getname p with
  | Some e => Fail e
  | None =>
      match walk fs [] p with
      | Done q =>
          match lookup fs q with
          | Some n => Done n
          | None => Fail FileNotFoundError
          end
      | Fail e => Fail e
      end
  end.

(** The node a path leads to, if any. *)
Definition stat (fs : node) (p : PosixPath) : option node :=
  match os_stat fs p with
  | Done n => Some n
  | Fail _ => None
  end.

(** The errors that [Path.exists()], [Path.is_file()] and
    [Path.is_dir()] take for the answer "no": [ENOENT] and [ENOTDIR],
    and [ValueError] with its subclasses.  Any other error is raised. *)
Definition ignore_error (e : pyexc) : bool :=
  match e with
  | FileNotFoundError | NotADirectoryError
  | ValueError | UnicodeEncodeError | UnicodeDecodeError => true
  | _ => false
  end.

(** [p.exists()], [p.is_file()]. *)
Definition path_exists (fs : node) (p : PosixPath) : io bool :=
  match os_stat fs p with
  | Done _ => Done true
  | Fail e => if ignore_error e then Done false else Fail e
  end.

Definition path_is_file (fs : node) (p : PosixPath) : io bool :=
  match os_stat fs p with
  | Done n => Done (is_file n)
  | Fail e => if ignore_error e then Done false else Fail e
  end.

(** The directories [p.mkdir(parents=True, exist_ok=True)] makes along a
    canonical path, from the root down, with the tree as it is when the
    call ends: the missing directories above a name that is refused
    have been made when the exception is raised. *)
Fixpoint mkdir_rec (n : node) (p : PosixPath) : io unit * node :=
  match p with
  | [] =>
      match n with
      | Dir _ => (Done tt, n)
      | File _ => (Fail FileExistsError, n)
      end
  | c :: r =>
      match n with
      | File _ => (Fail NotADirectoryError, n)
      | Dir es =>
          if NAME_MAX <? fs_length c then (Fail OSError, n)
          else
            let (o, ch') :=
              mkdir_rec (match assoc c es with
                         | Some ch => ch
                         | None => Dir []
                         end) r in
            (o, Dir (put c ch' es))
      end
  end.

(** [p.mkdir(parents=True, exist_ok=True)] at a canonical path. *)
Definition mkdir_p (fs : node) (p : PosixPath) : io unit * node :=
  match getname p with
  | Some e => (Fail e, fs)
  | None => mkdir_rec fs p
  end.

(** Create or truncate the file at a canonical path and set its
    content. *)
Fixpoint store (n : node) (p : PosixPath) (data : bytes) : io node :=
  match p with
  | [] =>
      match n with
      | Dir _ => Fail IsADirectoryError
      | File _ => Done (File data)
      end
  | c :: r =>
      match n with
      | File _ => Fail NotADirectoryError
      | Dir es =>
          match assoc c es with
          | Some ch =>
              match store ch r data with
              | Done ch' => Done (Dir (put c ch' es))
              | Fail e => Fail e
              end
          | None =>
              match r with
              | [] => Done (Dir (put c (File data) es))
              | _ :: _ => Fail FileNotFoundError
              end
          end
      end
  end.

(** [open(p, "wb")] followed by writing [data]. *)
Definition write_bytes (fs : node) (p : PosixPath) (data : bytes) : io node :=
  match getname p with
  | Some e => Fail e
  | None =>
      match walk fs [] p with
      | Done q => store fs q data
      | Fail e => Fail e
      end
  end.

(** [p.write_text(s, encoding="utf-8")]: the file is opened (created or
    truncated) before the text is encoded, so an encoding error leaves
    it empty.  The line separator is the POSIX one: nothing is
    translated on the way out. *)
Definition write_text (fs : node) (p : PosixPath) (s : str)
  : io unit * node :=
  match utf8_encode s with
  | Some b =>
      match write_bytes fs p b with
      | Done fs' => (Done tt, fs')
      | Fail e => (Fail e, fs)
      end
  | None =>
      match write_bytes fs p [] with
      | Done fs' => (Fail UnicodeEncodeError, fs')
      | Fail e => (Fail e, fs)
      end
  end.

(** [p.read_text(encoding="utf-8")]: strict decoding, then universal
    newlines. *)
Definition read_text (fs : node) (p : PosixPath) : io str :=
  match os_stat fs p with
  | Fail e => Fail e
  | Done (Dir _) => Fail IsADirectoryError
  | Done (File b) =>
      match utf8_decode b with
      | Some s => Done (universal_newlines s)
      | None => Fail UnicodeDecodeError
      end
  end.

(** The first name of a path, from the left, that cannot be converted,
    with what converting it raises. *)
Fixpoint first_name_error (p : PosixPath) : option pyexc :=
  match p with
  | [] => None
  | c :: r =>
      match name_error c with
      | Some e => Some e
      | None => first_name_error r
      end
  end.

(** [Path.resolve()] on a tree without symbolic links: every name is
    looked at in turn ([os.lstat]), which raises on a name that cannot
    be converted and passes over every error of the system; the result
    is the lexical normal form. *)
Definition resolve (fs : node) (p : PosixPath) : io PosixPath :=
  match first_name_error p with
  | Some e => Fail e
  | None => Done (normalize [] p)
  end.

End FileSystem.
Import FileSystem.

(* ===================================================================== *)
(** ** The workspace endpoints *)
(* ===================================================================== *)

(** *** [sorted(..., key=...)] on keys [(bool, str)] *)

(** [a < b] on strings: lexicographic on code points. *)
Fixpoint str_ltb (a b : str) : bool :=
  match a, b with
  | _, [] => false
  | [], _ :: _ => true
  | x :: a', y :: b' => (x <? y) || ((x =? y) && str_ltb a' b')
  end.

(** [k1 < k2] on tuples [(bool, str)], with [False < True]. *)
Definition key_ltb (k1 k2 : bool * str) : bool :=
  (negb (fst k1) && fst k2)
  || (Bool.eqb (fst k1) (fst k2) && str_ltb (snd k1) (snd k2)).

Section Sorted.

Variable A : Type.
Variable key : A -> bool * str.

(** Insertion in front of a sorted list, behind the elements whose key
    is strictly smaller. *)
Fixpoint insert_sorted (x : A) (l : list A) : list A :=
  match l with
  | [] => [x]
  | y :: r =>
      if key_ltb (key y) (key x) then y :: insert_sorted x r else x :: l
  end.

(** [sorted(l, key=key)]: the stable sort; elements with equal keys keep
    the order they had in [l]. *)
Definition sorted (l : list A) : list A := fold_right insert_sorted [] l.

End Sorted.

(** *** Requests *)

Record FileOpenRequest := { open_path : str }.

Record FileSaveRequest := { save_path : str; save_content : str }.

(** An uploaded part: the file name the client sent and the content. *)
Record UploadFile := { filename : str; file : bytes }.

Fixpoint node_size (n : node) : nat :=
  match n with
  | File _ => 1
  | Dir es => S (list_sum (List.map (fun e => node_size (snd e)) es))
  end.

Definition entries_size (es : list (str * node)) : nat :=
  list_sum (List.map (fun e => node_size (snd e)) es).

(** The two recursive positions of [list_directory]: a call on a
    directory (with the entries [iterdir()] yields there), and the [for]
    loop over what is left of its sorted children. *)
Inductive call :=
| ListDirectory (path : PosixPath) (es : list (str * node))
| Loop (path : PosixPath) (todo : list (str * node)).

Definition call_size (c : call) : nat :=
  match c with
  | ListDirectory _ es => 2 * entries_size es + 1
  | Loop _ todo => 2 * entries_size todo
  end.

Definition call_result (c : call) : Type :=
  match c with
  | ListDirectory _ _ => result json
  | Loop _ _ => result (list json)
  end.

(** The sort key of the source: [(p.is_file(), p.name.lower())]. *)
Definition child_key (e : str * node) : bool * str :=
  (is_file (snd e), lower (fst e)).

Section Workspace.

Variable BASE_DIR : PosixPath.

Local Abbreviation WS := (WORKSPACE_DIR BASE_DIR).

(** [str(child.relative_to(WORKSPACE_DIR))]. *)
Definition relative_str (child : PosixPath) : result str :=
  match relative_to child WS with
  | Some rel => Ok (str_of_relative rel)
  | None => Raise (Uncaught ValueError)
  end.

Equations? list_directory_rec (c : call) : call_result c
  by wf (call_size c) lt :=
list_directory_rec (ListDirectory path es) :=
  match list_directory_rec (Loop path (sorted child_key es)) with
  | Ok children =>
      Ok (JObj [(py "type", JStr (py "folder"));
                (py "name", JStr (py "workspace"));
                (py "path", JStr (py ""));
                (py "children", JArr children)])
  | Raise e => Raise e
  end;
list_directory_rec (Loop path []) := Ok [];
list_directory_rec (Loop path ((nm, Dir ces) :: r)) :=
  match relative_str (path ++ [nm]) with
  | Raise e => Raise e
  | Ok rel =>
      match list_directory_rec (ListDirectory (path ++ [nm]) ces) with
      | Raise e => Raise e
      | Ok sub =>
          match list_directory_rec (Loop path r) with
          | Raise e => Raise e
          | Ok rest =>
              Ok (JObj [(py "type", JStr (py "folder"));
                        (py "name", JStr nm);
                        (py "path", JStr rel);
                        (py "children",
                          dict_get sub (py "children") (JArr []))]
                  :: rest)
          end
      end
  end;
list_directory_rec (Loop path ((nm, File _) :: r)) :=
  match relative_str (path ++ [nm]) with
  | Raise e => Raise e
  | Ok rel =>
      match list_directory_rec (Loop path r) with
      | Raise e => Raise e
      | Ok rest =>
          Ok (JObj [(py "type", JStr (py "file"));
                    (py "name", JStr nm);
                    (py "path", JStr rel)]
              :: rest)
      end
  end.
Proof.
  all: unfold entries_size; simpl; try lia.
  assert (Hins : forall x l,
             entries_size (insert_sorted child_key x l)
             = (node_size (snd x) + entries_size l)%nat).
  { intros x l. induction l as [|y l IH]; simpl; [reflexivity|].
    destruct (key_ltb (child_key y) (child_key x)); simpl; [|reflexivity].
    unfold entries_size in *. simpl. rewrite IH. lia. }
  assert (Hsort : forall l, entries_size (sorted child_key l) = entries_size l).
  { induction l as [|x l IH]; simpl; [reflexivity|].
    rewrite Hins, IH. reflexivity. }
  specialize (Hsort es). unfold entries_size in Hsort. lia.
Qed.

(** [list_directory(path)]: [path.iterdir()] needs a directory there. *)
Definition list_directory (fs : node) (path : PosixPath) : result json :=
  match os_stat fs path with
  | Done (Dir es) => list_directory_rec (ListDirectory path es)
  | Done (File _) => Raise (Uncaught NotADirectoryError)
  | Fail e => Raise (Uncaught e)
  end.

(** [GET /files]. *)
Definition get_files (fs : node) : result json * node :=
  (list_directory fs WS, fs).

(** [POST /files/open].  The two tests of the [if] are outside the
    [try]: what they raise leaves the handler. *)
Definition open_file (req : FileOpenRequest) (fs : node)
  : result json * node :=
  match safe_workspace_path resolve BASE_DIR (open_path req) fs with
  | (Raise e, fs1) => (Raise e, fs1)
  | (Ok path, fs1) =>
      match uncaught (path_exists fs1 path) with
      | Raise e => (Raise e, fs1)
      | Ok false =>
          (Raise (HTTPException 404 (Msg (py "File not found"))), fs1)
      | Ok true =>
          match uncaught (path_is_file fs1 path) with
          | Raise e => (Raise e, fs1)
          | Ok false =>
              (Raise (HTTPException 404 (Msg (py "File not found"))), fs1)
          | Ok true =>
              match as_http_500 (read_text fs1 path) with
              | Ok content =>
                  (Ok (JObj [(py "path", JStr (open_path req));
                             (py "content", JStr content)]), fs1)
              | Raise e => (Raise e, fs1)
              end
          end
      end
  end.

(** [POST /files/save].  [mkdir] is outside the [try]. *)
Definition save_file (req : FileSaveRequest) (fs : node)
  : result json * node :=
  match safe_workspace_path resolve BASE_DIR (save_path req) fs with
  | (Raise e, fs1) => (Raise e, fs1)
  | (Ok path, fs1) =>
      match mkdir_p fs1 (parent path) with
      | (Fail e, fs2) => (Raise (Uncaught e), fs2)
      | (Done _, fs2) =>
          match write_text fs2 path (save_content req) with
          | (Done _, fs3) => (Ok (JObj [(py "ok", JBool true)]), fs3)
          | (Fail e, fs3) => (Raise (HTTPException 500 (StrOf e)), fs3)
          end
      end
  end.

(** The [for uf in files] loop of [upload_files]. *)
Fixpoint upload_loop (destination_dir : PosixPath) (files : list UploadFile)
  (stored : list str) (fs : node) : result (list str) * node :=
  match files with
  | [] => (Ok stored, fs)
  | uf :: rest =>
      let out_path := joinpath destination_dir (filename uf) in
      match uncaught (write_bytes fs out_path (file uf)) with
      | Raise e => (Raise e, fs)
      | Ok fs1 =>
          match relative_str out_path with
          | Raise e => (Raise e, fs1)
          | Ok rel => upload_loop destination_dir rest (stored ++ [rel]) fs1
          end
      end
  end.

(** [POST /files/upload]. *)
Definition upload_files (files : list UploadFile) (dest : str) (fs : node)
  : result json * node :=
  match safe_workspace_path resolve BASE_DIR dest fs with
  | (Raise e, fs1) => (Raise e, fs1)
  | (Ok destination_dir, fs1) =>
      match mkdir_p fs1 destination_dir with
      | (Fail e, fs2) => (Raise (Uncaught e), fs2)
      | (Done _, fs2) =>
          match upload_loop destination_dir files [] fs2 with
          | (Ok stored, fs3) =>
              (Ok (JObj [(py "stored", JArr (List.map JStr stored))]), fs3)
          | (Raise e, fs3) => (Raise e, fs3)
          end
      end
  end.

End Workspace.

(* ===================================================================== *)
(** ** One-shot execution *)
(* ===================================================================== *)

(** [str(p)] of an absolute path. *)
Definition str_of_path (p : PosixPath) : str :=
  match p with
  | [] => py "/"
  | _ => List.concat (List.map (fun c => 47 :: c) p)
  end.

Record RunRequest := { language : str; code : str }.

Record PythonRunRequest := {
  py_code : str;
  py_stdin : option str;
  py_timeout : option Z
}.

(** What [subprocess.run(..., timeout=...)] does: it returns a
    [CompletedProcess], or raises [TimeoutExpired] (which carries the
    output read until then), [FileNotFoundError] (with its text), or
    something else. *)
Inductive run_outcome :=
| Completed (stdout stderr : str)
| TimeoutExpired (partial_stdout partial_stderr : str)
| NotFound (text : str)
| OtherError (e : pyexc).

Section Runner.

(** The host: its state, and the calls the endpoints make on it.  The
    scratch directory is fresh, and the host takes the source file
    written into it; what the interpreter itself refuses (a text that
    cannot be encoded) is not left to the host. *)
Variable World : Type.
Variable os_mkdtemp : World -> PosixPath * World.
Variable os_write_text : World -> PosixPath -> str -> World.
Variable os_rmtree : World -> PosixPath -> World.
Variable os_run :
  World -> list str -> PosixPath -> Z -> option str -> run_outcome * World.

(** The host together with the record of the commands spawned so far,
    oldest first. *)
Record machine := { world : World; spawned : list (list str) }.

(** [_run_subprocess]. *)
Definition _run_subprocess (args : list str) (cwd : PosixPath)
  (timeout_sec : Z) (input_text : option str) (m : machine)
  : result (str * str) * machine :=
  let (o, w) := os_run (world m) args cwd timeout_sec input_text in
  let m' := {| world := w; spawned := spawned m ++ [args] |} in
  match o with
  | Completed stdout stderr => (Ok (stdout, stderr), m')
  | TimeoutExpired _ _ => (Ok (py "", py "Execution timed out"), m')
  | NotFound text => (Ok (py "", py "Command not found: " ++ text), m')
  | OtherError e => (Raise (Uncaught e), m')
  end.

(** [with tempfile.TemporaryDirectory() as tmpdir: body]: the directory
    is removed however the body ends. *)
Definition TemporaryDirectory {A : Type}
  (body : PosixPath -> machine -> result A * machine) (m : machine)
  : result A * machine :=
  let (tmpdir, w) := os_mkdtemp (world m) in
  let (r, m') := body tmpdir {| world := w; spawned := spawned m |} in
  (r, {| world := os_rmtree (world m') tmpdir; spawned := spawned m' |}).

(** [code_path.write_text(code, encoding="utf-8")]: the file is opened
    before the text is encoded; a text that cannot be encoded (a lone
    surrogate) raises [UnicodeEncodeError] and leaves the file empty. *)
Definition write_source (code_path : PosixPath) (text : str) (m : machine)
  : io unit * machine :=
  match utf8_encode text with
  | Some _ =>
      (Done tt,
       {| world := os_write_text (world m) code_path text;
          spawned := spawned m |})
  | None =>
      (Fail UnicodeEncodeError,
       {| world := os_write_text (world m) code_path (py "");
          spawned := spawned m |})
  end.

(** [{"stdout": stdout, "stderr": stderr}]. *)
Definition response (stdout stderr : str) : json :=
  JObj [(py "stdout", JStr stdout); (py "stderr", JStr stderr)].

(** [req.timeout or 10]. *)
Definition timeout_or_10 (t : option Z) : Z :=
  match t with
  | Some v => if Z.eqb v 0 then 10%Z else v
  | None => 10%Z
  end.

(** [POST /run/python]. *)
Definition run_python (req : PythonRunRequest) (m : machine)
  : result json * machine :=
  TemporaryDirectory (fun tmp_path m0 =>
    let code_path := joinpath tmp_path (py "main.py") in
    match write_source code_path (py_code req) m0 with
    | (Fail e, m1) => (Raise (Uncaught e), m1)
    | (Done _, m1) =>
        match _run_subprocess [py "python"; str_of_path code_path] tmp_path
                (timeout_or_10 (py_timeout req)) (py_stdin req) m1 with
        | (Raise e, m2) => (Raise e, m2)
        | (Ok (stdout, stderr), m2) =>
            if contains (py "not found") (lower stderr) then
              match _run_subprocess [py "python3"; str_of_path code_path]
                      tmp_path (timeout_or_10 (py_timeout req))
                      (py_stdin req) m2 with
              | (Raise e, m3) => (Raise e, m3)
              | (Ok (stdout, stderr), m3) => (Ok (response stdout stderr), m3)
              end
            else (Ok (response stdout stderr), m2)
        end
    end) m.

(** A branch of [run_code] that runs the source directly. *)
Definition run_stage (argv : list str) (tmp_path : PosixPath) (m : machine)
  : result json * machine :=
  match _run_subprocess argv tmp_path 10%Z None m with
  | (Raise e, m1) => (Raise e, m1)
  | (Ok (stdout, stderr), m1) => (Ok (response stdout stderr), m1)
  end.

(** A branch of [run_code] that compiles first: non-empty compiler
    [stderr] is returned at once. *)
Definition compile_then_run (compile_argv run_argv : list str)
  (tmp_path : PosixPath) (m : machine) : result json * machine :=
  match _run_subprocess compile_argv tmp_path 10%Z None m with
  | (Raise e, m1) => (Raise e, m1)
  | (Ok (_, compile_err), m1) =>
      match compile_err with
      | _ :: _ => (Ok (response (py "") compile_err), m1)
      | [] => run_stage run_argv tmp_path m1
      end
  end.

(** [POST /run]. *)
Definition run_code (req : RunRequest) (m : machine)
  : result json * machine :=
  let language := strip (lower (language req)) in
  let code := code req in
  TemporaryDirectory (fun tmp_path m0 =>
    if str_in language [py "python"; py "py"] then
      let code_path := joinpath tmp_path (py "main.py") in
      match write_source code_path code m0 with
      | (Fail e, m1) => (Raise (Uncaught e), m1)
      | (Done _, m1) =>
          match _run_subprocess [py "python"; str_of_path code_path] tmp_path
                  10%Z None m1 with
          | (Raise e, m2) => (Raise e, m2)
          | (Ok (stdout, stderr), m2) =>
              if contains (py "not found") (lower stderr) then
                run_stage [py "python3"; str_of_path code_path] tmp_path m2
              else (Ok (response stdout stderr), m2)
          end
      end
    else if str_in language [py "c"] then
      let code_path := joinpath tmp_path (py "main.c") in
      match write_source code_path code m0 with
      | (Fail e, m1) => (Raise (Uncaught e), m1)
      | (Done _, m1) =>
          compile_then_run
            [py "gcc"; str_of_path code_path; py "-O2"; py "-std=c11";
             py "-o"; py "main"]
            [str_of_path (joinpath tmp_path (py "main"))] tmp_path m1
      end
    else if str_in language [py "cpp"; py "c++"] then
      let code_path := joinpath tmp_path (py "main.cpp") in
      match write_source code_path code m0 with
      | (Fail e, m1) => (Raise (Uncaught e), m1)
      | (Done _, m1) =>
          compile_then_run
            [py "g++"; str_of_path code_path; py "-O2"; py "-std=c++17";
             py "-o"; py "main"]
            [str_of_path (joinpath tmp_path (py "main"))] tmp_path m1
      end
    else if str_in language [py "javascript"; py "js"; py "node"] then
      let code_path := joinpath tmp_path (py "main.js") in
      match write_source code_path code m0 with
      | (Fail e, m1) => (Raise (Uncaught e), m1)
      | (Done _, m1) =>
          run_stage [py "node"; str_of_path code_path] tmp_path m1
      end
    else if str_in language [py "java"] then
      let code_path := joinpath tmp_path (py "Main.java") in
      match write_source code_path code m0 with
      | (Fail e, m1) => (Raise (Uncaught e), m1)
      | (Done _, m1) =>
          compile_then_run
            [py "javac"; str_of_path code_path]
            [py "java"; py "-cp"; str_of_path tmp_path; py "Main"] tmp_path m1
      end
    else
      (Raise (HTTPException 400
         (Msg (py "Unsupported language. Use python, c, cpp, javascript, or java"))),
       m0)) m.

End Runner.

(* ===================================================================== *)
(** ** The interactive session ([/ws/python]) *)
(* ===================================================================== *)

(** The handler and its two pump tasks are coroutines on one event
    loop.  The model is the transition function of the three together:
    one event is what the loop delivers to a suspended [await], with the
    answer of the environment where the resumed code makes a further
    call, and a step runs the resumed coroutine to its next [await]. *)

Inductive tag := Stdout | Stderr.

Definition tag_name (t : tag) : str :=
  match t with
  | Stdout => py "stdout"
  | Stderr => py "stderr"
  end.

(** An asyncio task: waiting, finished, ended by an exception, or
    cancelled. *)
Inductive task_state :=
| TaskPending
| TaskFinished
| TaskFailed (e : pyexc)
| TaskCancelled.

(** The handler: before the first message, in its input loop, or left
    (with the exception that left it, if any). *)
Inductive phase :=
| Created
| Running
| Terminated (e : option pyexc).

Inductive scratch_state :=
| NoScratch
| ScratchExists
| ScratchDeleted.

(** The [proc] variable once assigned. *)
Record process := {
  returncode : option Z;
  kill_sent : bool
}.

(** What was done to the subprocess's [stdin]. *)
Inductive stdin_action :=
| StdinWrite (data : bytes)
| StdinDrain.

Inductive event :=
(** [receive_text()] returns [msg].  [answer] is the environment's answer
    to what the handler does next: creating the subprocess (first
    message), or draining [stdin] (later ones). *)
| Receive (msg : str) (answer : io unit)
(** [receive_text()] raises [WebSocketDisconnect]. *)
| Disconnect
(** [receive_text()] raises another exception. *)
| ChannelError (e : pyexc)
(** [readline()] of a pump returns [line] (empty at the end of the
    stream); [answer] is the outcome of the [send_text] that follows. *)
| ReadLine (t : tag) (line : bytes) (answer : io unit)
(** [readline()] of a pump raises (a line over the stream's limit). *)
| ReadError (t : tag) (e : pyexc)
(** The subprocess exits. *)
| ProcessExit (status : Z).

Record session := {
  state : phase;
  proc : option process;
  scratch : scratch_state;
  source : option str;
  stdout_task : option task_state;
  stderr_task : option task_state;
  stdin_log : list stdin_action;
  sent : list json
}.

(** After [accept()]. *)
Definition accepted : session :=
  {| state := Created; proc := None; scratch := NoScratch; source := None;
     stdout_task := None; stderr_task := None; stdin_log := []; sent := [] |}.

(** Truth value of a JSON value, as Python's [or] tests it. *)
Definition truthy (v : json) : bool :=
  match v with
  | JNull => false
  | JBool b => b
  | JNum n => negb (Z.eqb n 0)
  | JStr s => match s with [] => false | _ => true end
  | JArr l => match l with [] => false | _ => true end
  | JObj f => match f with [] => false | _ => true end
  end.

Section Session.

(** [json.loads]; [None] when it raises. *)
Variable json_loads : str -> option json.

(** The first message: [payload.get("code", "")] when it parses to a
    dict, the message itself when parsing or [.get] raises. *)
Definition first_code (first : str) : json :=
  match json_loads first with
  | Some (JObj fields) => dict_get (JObj fields) (py "code") (JStr (py ""))
  | _ => JStr first
  end.

(** [code_path.write_text(code or "", encoding="utf-8")]: the text
    written, or the exception. *)
Definition source_text (code : json) : io str :=
  match (if truthy code then code else JStr (py "")) with
  | JStr s =>
      match utf8_encode s with
      | Some _ => Done s
      | None => Fail UnicodeEncodeError
      end
  | _ => Fail TypeError
  end.

(** Leaving the handler from inside the [with] block: the scratch
    directory is removed, then the [finally] clause kills the subprocess
    if [proc.returncode is None]. *)
Definition finally (p : option process) : option process :=
  match p with
  | Some pr =>
      match returncode pr with
      | None => Some {| returncode := None; kill_sent := true |}
      | Some _ => Some pr
      end
  | None => None
  end.

Definition leave (s : session) (e : option pyexc) : session :=
  {| state := Terminated e;
     proc := finally (proc s);
     scratch := match scratch s with
                | NoScratch => NoScratch
                | _ => ScratchDeleted
                end;
     source := source s;
     stdout_task := stdout_task s;
     stderr_task := stderr_task s;
     stdin_log := stdin_log s;
     sent := sent s |}.

Definition task_of (s : session) (t : tag) : option task_state :=
  match t with
  | Stdout => stdout_task s
  | Stderr => stderr_task s
  end.

Definition set_task (s : session) (t : tag) (v : task_state) : session :=
  {| state := state s; proc := proc s; scratch := scratch s;
     source := source s;
     stdout_task := match t with Stdout => Some v | Stderr => stdout_task s end;
     stderr_task := match t with Stdout => stderr_task s | Stderr => Some v end;
     stdin_log := stdin_log s; sent := sent s |}.

(** The frame [json.dumps({tag: line.decode(errors='ignore')})]. *)
Definition frame (t : tag) (line : bytes) : json :=
  JObj [(tag_name t, JStr (decode_ignore line))].

(** One turn of a pump resumed from [readline()]. *)
Definition pump (s : session) (t : tag) (line : bytes) (answer : io unit)
  : session :=
  match line with
  | [] => set_task s t TaskFinished
  | _ :: _ =>
      match answer with
      | Done _ =>
          let s' := set_task s t TaskPending in
          {| state := state s'; proc := proc s'; scratch := scratch s';
             source := source s';
             stdout_task := stdout_task s'; stderr_task := stderr_task s';
             stdin_log := stdin_log s'; sent := sent s ++ [frame t line] |}
      | Fail e => set_task s t (TaskFailed e)
      end
  end.

(** The handler resumed from the first [receive_text()]. *)
Definition start (s : session) (first : str) (answer : io unit) : session :=
  match source_text (first_code first) with
  | Fail e =>
      leave {| state := state s; proc := None; scratch := ScratchExists;
               source := None; stdout_task := None; stderr_task := None;
               stdin_log := stdin_log s; sent := sent s |} (Some e)
  | Done text =>
      match answer with
      | Fail e =>
          leave {| state := state s; proc := None; scratch := ScratchExists;
                   source := Some text; stdout_task := None;
                   stderr_task := None;
                   stdin_log := stdin_log s; sent := sent s |} (Some e)
      | Done _ =>
          {| state := Running;
             proc := Some {| returncode := None; kill_sent := false |};
             scratch := ScratchExists;
             source := Some text;
             stdout_task := Some TaskPending;
             stderr_task := Some TaskPending;
             stdin_log := stdin_log s; sent := sent s |}
      end
  end.

(** The handler resumed from [receive_text()] inside the loop:
    [proc.stdin.write((msg + "\n").encode())], then
    [await proc.stdin.drain()]. *)
Definition forward (s : session) (msg : str) (answer : io unit) : session :=
  match proc s with
  | None => s
  | Some _ =>
      match utf8_encode (msg ++ [10]) with
      | None => leave s (Some UnicodeEncodeError)
      | Some data =>
          let s' :=
            {| state := state s; proc := proc s; scratch := scratch s;
               source := source s;
               stdout_task := stdout_task s; stderr_task := stderr_task s;
               stdin_log := stdin_log s ++ [StdinWrite data; StdinDrain];
               sent := sent s |} in
          match answer with
          | Done _ => s'
          | Fail e => leave s' (Some e)
          end
      end
  end.

Definition exited (s : session) (status : Z) : option session :=
  match proc s with
  | Some pr =>
      match returncode pr with
      | None =>
          Some {| state := state s;
                  proc := Some {| returncode := Some status;
                                  kill_sent := kill_sent pr |};
                  scratch := scratch s; source := source s;
                  stdout_task := stdout_task s; stderr_task := stderr_task s;
                  stdin_log := stdin_log s; sent := sent s |}
      | Some _ => None
      end
  | None => None
  end.

(** One step; [None] when the event cannot happen in that state (nothing
    is waiting for it). *)
Definition step (s : session) (ev : event) : option session :=
  match ev with
  | Receive msg answer =>
      match state s with
      | Created => Some (start s msg answer)
      | Running => Some (forward s msg answer)
      | Terminated _ => None
      end
  | Disconnect =>
      match state s with
      | Terminated _ => None
      | _ => Some (leave s None)
      end
  | ChannelError e =>
      match state s with
      | Terminated _ => None
      | _ => Some (leave s (Some e))
      end
  | ReadLine t line answer =>
      match task_of s t with
      | Some TaskPending => Some (pump s t line answer)
      | _ => None
      end
  | ReadError t e =>
      match task_of s t with
      | Some TaskPending => Some (set_task s t (TaskFailed e))
      | _ => None
      end
  | ProcessExit status => exited s status
  end.

(** A schedule: the events in the order the loop delivers them. *)
Fixpoint run (s : session) (evs : list event) : option session :=
  match evs with
  | [] => Some s
  | ev :: r =>
      match step s ev with
      | Some s' => run s' r
      | None => None
      end
  end.

(** [ws_python]: the handler and its pumps from [accept()] on, under a
    schedule. *)
Definition ws_python (evs : list event) : option session := run accepted evs.

End Session.

(* ===================================================================== *)
(** ** Vocabulary of the properties *)
(* ===================================================================== *)

(** [p] lies strictly below [root]. *)
Definition is_descendant (root p : PosixPath) : Prop :=
  exists rest, rest <> [] /\ p = root ++ rest.

(** [p] is [root] or lies below it. *)
Definition within (root p : PosixPath) : Prop :=
  p = root \/ is_descendant root p.

(** The text of the error for an unknown language. *)
Definition unsupported_language : exn :=
  HTTPException 400
    (Msg (py "Unsupported language. Use python, c, cpp, javascript, or java")).

(** The identifiers [run_code] knows, aliases included. *)
Definition known_languages : list str :=
  [py "python"; py "c"; py "cpp"; py "javascript"; py "java";
   py "py"; py "c++"; py "js"; py "node"].

(** The identifiers of the languages that are compiled first. *)
Definition compiled_languages : list str :=
  [py "c"; py "cpp"; py "c++"; py "java"].


(** [s] is not the empty string. *)
Definition nonempty (s : str) : bool :=
  match s with
  | [] => false
  | _ :: _ => true
  end.

(** What an endpoint answers for the outcome of its last stage. *)
Definition answer_of (r : result (str * str)) : result json :=
  match r with
  | Ok (stdout, stderr) => Ok (response stdout stderr)
  | Raise e => Raise e
  end.

(** The machine after [write_text] has written the source. *)
Definition written {World : Type}
  (os_write_text : World -> PosixPath -> str -> World)
  (w0 : World) (code_path : PosixPath) (text : str) (m : machine World)
  : machine World :=
  {| world := os_write_text w0 code_path text; spawned := spawned m |}.

(** The compile-then-run protocol, for the answer [out] of [run_code]
    on machine [m] with scratch directory [tmp]: the source file
    [source_name] is written; a source that cannot be encoded ends the
    request there, nothing spawned; otherwise [compile_argv] is spawned
    first, and its [stderr] decides whether [run_argv] follows. *)
Definition compile_gate {World : Type}
  (os_write_text : World -> PosixPath -> str -> World)
  (os_run : World -> list str -> PosixPath -> Z -> option str
            -> run_outcome * World)
  (req : RunRequest) (m : machine World) (tmp : PosixPath) (w0 : World)
  (source_name : str) (compile_argv run_argv : list str)
  (out : result json * machine World) : Prop :=
  match utf8_encode (code req) with
  | None =>
      fst out = Raise (Uncaught UnicodeEncodeError)
      /\ spawned (snd out) = spawned m
  | Some _ =>
      let m1 := written os_write_text w0 (joinpath tmp source_name) (code req)
                  m in
      match _run_subprocess os_run compile_argv tmp 10%Z None m1 with
      | (Raise e, _) =>
          fst out = Raise e
          /\ spawned (snd out) = spawned m ++ [compile_argv]
      | (Ok (_, compile_err), m2) =>
          if nonempty compile_err
          then
            fst out = Ok (response (py "") compile_err)
            /\ spawned (snd out) = spawned m ++ [compile_argv]
          else
            fst out
            = answer_of (fst (_run_subprocess os_run run_argv tmp 10%Z None m2))
            /\ spawned (snd out) = spawned m ++ [compile_argv; run_argv]
      end
  end.

(** *** Hosts to run the endpoints on *)

(** A host on which every command exits at once and prints nothing. *)
Definition quiet_host (w : unit) (args : list str) (cwd : PosixPath)
  (timeout_sec : Z) (input_text : option str) : run_outcome * unit :=
  (Completed (py "") (py ""), tt).

(** A host on which no command ends in time. *)
Definition stuck_host (w : unit) (args : list str) (cwd : PosixPath)
  (timeout_sec : Z) (input_text : option str) : run_outcome * unit :=
  (TimeoutExpired (py "partial") (py ""), tt).

(** A host on which the compilers print a warning and everything else
    prints nothing. *)
Definition warning_host (w : unit) (args : list str) (cwd : PosixPath)
  (timeout_sec : Z) (input_text : option str) : run_outcome * unit :=
  match args with
  | cmd :: _ =>
      if str_in cmd [py "gcc"; py "g++"; py "javac"]
      then (Completed (py "") (py "warning: unused variable"), tt)
      else (Completed (py "") (py ""), tt)
  | [] => (Completed (py "") (py ""), tt)
  end.

(** A host on which [python] runs a program that writes to [stderr]
    itself, and [python3] runs it to print [ok]. *)
Definition chatty_host (w : unit) (args : list str) (cwd : PosixPath)
  (timeout_sec : Z) (input_text : option str) : run_outcome * unit :=
  match args with
  | cmd :: _ =>
      if str_eqb cmd (py "python")
      then (Completed (py "") (py "Record NOT FOUND in table"), tt)
      else (Completed (py "ok") (py ""), tt)
  | [] => (Completed (py "") (py ""), tt)
  end.

Definition tmp_host (w : unit) : PosixPath * unit := ([py "tmp"; py "tmpab12"], tt).
Definition write_host (w : unit) (p : PosixPath) (s : str) : unit := tt.
Definition rmtree_host (w : unit) (p : PosixPath) : unit := tt.

Definition boot : machine unit := {| world := tt; spawned := [] |}.

(** The command each language's pipeline starts with, in the scratch
    directory [tmp]: the interpreter or the compiler, on the source
    file. *)
Definition first_command (language : str) (tmp : PosixPath) : list str :=
  if str_in language [py "python"; py "py"] then
    [py "python"; str_of_path (joinpath tmp (py "main.py"))]
  else if str_in language [py "c"] then
    [py "gcc"; str_of_path (joinpath tmp (py "main.c")); py "-O2";
     py "-std=c11"; py "-o"; py "main"]
  else if str_in language [py "cpp"; py "c++"] then
    [py "g++"; str_of_path (joinpath tmp (py "main.cpp")); py "-O2";
     py "-std=c++17"; py "-o"; py "main"]
  else if str_in language [py "javascript"; py "js"; py "node"] then
    [py "node"; str_of_path (joinpath tmp (py "main.js"))]
  else
    [py "javac"; str_of_path (joinpath tmp (py "Main.java"))].

(** The command [argv] was spawned first after [m], and the answer is
    not an HTTP error. *)
Definition started {World : Type} (argv : list str) (m : machine World)
  (out : result json * machine World) : Prop :=
  (exists rest, spawned (snd out) = spawned m ++ argv :: rest)
  /\ (forall status d, fst out <> Raise (HTTPException status d)).

(** The request was dispatched to the pipeline of [language]: when the
    code can be written, the command that pipeline starts with is the
    first one spawned, and the answer is not an HTTP error; when it
    cannot, [write_text] raises and nothing is spawned. *)
Definition dispatched {World : Type} (language code : str) (tmp : PosixPath)
  (m : machine World) (out : result json * machine World) : Prop :=
  match utf8_encode code with
  | Some _ => started (first_command language tmp) m out
  | None =>
      fst out = Raise (Uncaught UnicodeEncodeError)
      /\ spawned (snd out) = spawned m
  end.

(** *** Schedules of a session *)

(** The messages [receive_text()] returned, in order. *)
Fixpoint received (evs : list event) : list str :=
  match evs with
  | [] => []
  | Receive msg _ :: r => msg :: received r
  | _ :: r => received r
  end.

(** What forwarding one message does to [stdin]: the encoded message
    with its line feed is written, then drained.  (A message that cannot
    be encoded is not written; the handler ends on it.) *)
Definition forwarded (msg : str) : list stdin_action :=
  match utf8_encode (msg ++ [10]) with
  | Some data => [StdinWrite data; StdinDrain]
  | None => []
  end.

Definition tag_eqb (a b : tag) : bool :=
  match a, b with
  | Stdout, Stdout | Stderr, Stderr => true
  | _, _ => false
  end.

(** The lines a pump read from its stream and whose [send_text]
    returned, in order. *)
Fixpoint delivered (t : tag) (evs : list event) : list bytes :=
  match evs with
  | [] => []
  | ReadLine t' (b :: line) (Done _) :: r =>
      if tag_eqb t t' then (b :: line) :: delivered t r else delivered t r
  | _ :: r => delivered t r
  end.

(** The frames of one stream among the frames sent. *)
Definition has_tag (t : tag) (j : json) : bool :=
  match j with
  | JObj [(k, _)] => str_eqb k (tag_name t)
  | _ => false
  end.

Definition frames_of (t : tag) (l : list json) : list json :=
  filter (has_tag t) l.

(** A task that is over: finished, failed or cancelled. *)
Definition task_over (t : option task_state) : Prop :=
  match t with
  | Some TaskPending => False
  | _ => True
  end.

(** What holds of a session in each state of its handler. *)
Definition session_inv (s : session) : Prop :=
  match state s with
  | Created =>
      proc s = None /\ scratch s = NoScratch
      /\ stdin_log s = [] /\ sent s = []
      /\ stdout_task s = None /\ stderr_task s = None
  | Running =>
      (exists p, proc s = Some p) /\ scratch s = ScratchExists
  | Terminated _ =>
      scratch s <> ScratchExists
      /\ (forall p, proc s = Some p ->
                    kill_sent p = true \/ returncode p <> None)
  end.

(** A parser that takes nothing for JSON: the first message is then the
    code itself. *)
Definition no_json (s : str) : option json := None.

(** The echo scenario: the code is sent, then [hello]; the subprocess
    prints it back on [stdout] and a warning on [stderr]. *)
Definition echo_schedule : list event :=
  [Receive (py "while True: print(input())") (Done tt);
   Receive (py "hello") (Done tt);
   ReadLine Stderr (py "warning" ++ [10]) (Done tt);
   ReadLine Stdout (py "hello" ++ [10]) (Done tt)].

Definition stdin_log_of_echo : list stdin_action :=
  match ws_python no_json echo_schedule with
  | Some s => stdin_log s
  | None => []
  end.

(** *** A small installation *)

(** The module lives in [/srv/backend]; the workspace holds a folder
    [b] with a file [x], and two files [c] and [a], listed by the system
    in that order. *)
Definition srv_backend : PosixPath := [py "srv"; py "backend"].

Definition srv_fs : node :=
  Dir [(py "srv",
        Dir [(py "backend",
              Dir [(py "workspace",
                    Dir [(py "b", Dir [(py "x", File [])]);
                         (py "c", File (py "hi"));
                         (py "a", File [])]);
                   (py "main.py", File [])])])].

(** No component is [..]. *)
Definition plain (p : list str) : Prop :=
  Forall (fun c => c <> py "..") p.

(** A path within the limits of the system: it can be encoded, it is
    shorter than [PATH_MAX], and none of its names is longer than
    [NAME_MAX]. *)
Definition within_limits (p : PosixPath) : Prop :=
  getname p = None
  /\ Forall (fun c => (NAME_MAX <? fs_length c) = false) p.

(** *** The listing of a directory *)

(** [k1 <= k2] on sort keys: [k2] is not smaller than [k1]. *)
Definition key_le (k1 k2 : bool * str) : Prop := key_ltb k2 k1 = false.

(** Children in the order of their keys. *)
Definition in_key_order (l : list (str * node)) : Prop :=
  StronglySorted (fun a b => key_le (child_key a) (child_key b)) l.

(** Nothing but files comes after a file. *)
Definition files_last (l : list (str * node)) : Prop :=
  forall l1 a l2, l = l1 ++ a :: l2 -> is_file (snd a) = true ->
                  Forall (fun e => is_file (snd e) = true) l2.

(** The entry that lists one child of the folder at [rel] (its path
    below the workspace root): a file carries its type, name and path; a
    folder carries these and its children, which are the entries of a
    rearrangement of what the folder holds, in key order. *)
Inductive entry_listed : list str -> str * node -> json -> Prop :=
| file_listed (rel : list str) (nm : str) (data : bytes) :
    entry_listed rel (nm, File data)
      (JObj [(py "type", JStr (py "file"));
             (py "name", JStr nm);
             (py "path", JStr (join_slash (rel ++ [nm])))])
| folder_listed (rel : list str) (nm : str) (es order : list (str * node))
    (children : list json) :
    Permutation order es ->
    in_key_order order ->
    Forall2 (entry_listed (rel ++ [nm])) order children ->
    entry_listed rel (nm, Dir es)
      (JObj [(py "type", JStr (py "folder"));
             (py "name", JStr nm);
             (py "path", JStr (join_slash (rel ++ [nm])));
             (py "children", JArr children)]).

(** What each recursive position of [list_directory] yields, for a
    directory at [rel] below the workspace root. *)
Definition listing_ok (WS : PosixPath) (c : call) : call_result c -> Prop :=
  match c return call_result c -> Prop with
  | ListDirectory path es => fun r =>
      forall rel, path = WS ++ rel ->
        exists order children,
          r = Ok (JObj [(py "type", JStr (py "folder"));
                        (py "name", JStr (py "workspace"));
                        (py "path", JStr (py ""));
                        (py "children", JArr children)])
          /\ Permutation order es
          /\ in_key_order order
          /\ Forall2 (entry_listed rel) order children
  | Loop path todo => fun r =>
      forall rel, path = WS ++ rel ->
        exists children,
          r = Ok children /\ Forall2 (entry_listed rel) todo children
  end.

(** *** Further vocabulary *)

(** [q] is [p] or one of its ancestors. *)
Definition is_prefix (q p : PosixPath) : Prop := exists r, p = q ++ r.

(** A file name that is one plain component: not empty, without a
    slash, and neither [.] nor [..]. *)
Definition simple_name (nm : str) : Prop :=
  nm <> [] /\ ~ In 47 nm /\ nm <> py "." /\ nm <> py "..".

(** [entry["name"]] of an entry of a listing. *)
Definition entry_name (j : json) : json := dict_get j (py "name") JNull.

(** The children of a folder entry. *)
Definition entry_children (j : json) : list json :=
  match dict_get j (py "children") JNull with
  | JArr l => l
  | _ => []
  end.

Definition key_eqb (k1 k2 : bool * str) : bool :=
  Bool.eqb (fst k1) (fst k2) && str_eqb (snd k1) (snd k2).

(** The children whose sort key is [k], in the order of the list. *)
Definition with_key (k : bool * str) (l : list (str * node))
  : list (str * node) :=
  filter (fun e => key_eqb (child_key e) k) l.

(** The number of entries (JSON objects) in a listing. *)
Fixpoint objects (j : json) : nat :=
  match j with
  | JObj fields => S (list_sum (List.map (fun kv => objects (snd kv)) fields))
  | JArr items => list_sum (List.map objects items)
  | _ => 0%nat
  end.

(** What each recursive position of [list_directory] yields, counted. *)
Definition listing_counted (WS : PosixPath) (c : call)
  : call_result c -> Prop :=
  match c return call_result c -> Prop with
  | ListDirectory path es => fun r =>
      forall rel, path = WS ++ rel ->
        exists children,
          r = Ok (JObj [(py "type", JStr (py "folder"));
                        (py "name", JStr (py "workspace"));
                        (py "path", JStr (py ""));
                        (py "children", JArr children)])
          /\ list_sum (List.map objects children) = entries_size es
  | Loop path todo => fun r =>
      forall rel, path = WS ++ rel ->
        exists children,
          r = Ok children
          /\ list_sum (List.map objects children) = entries_size todo
  end.

(** A host without any of the tools: every command is missing. *)
Definition bare_host (w : unit) (args : list str) (cwd : PosixPath)
  (timeout_sec : Z) (input_text : option str) : run_outcome * unit :=
  (NotFound (py "[Errno 2] No such file or directory"), tt).

(** A command did not run to its end: it was missing, or timed out. *)
Definition not_completed (o : run_outcome) : Prop :=
  match o with
  | NotFound _ | TimeoutExpired _ _ => True
  | _ => False
  end.

(** What holds of the subprocess in each state of the handler: none
    before the first message; one that has not been sent a kill while
    the handler is in its loop. *)
Definition process_inv (s : session) : Prop :=
  match state s with
  | Created => proc s = None
  | Running =>
      (exists rc, proc s = Some {| returncode := rc; kill_sent := false |})
      /\ source s <> None
      /\ stdout_task s <> None /\ stderr_task s <> None
  | Terminated _ => True
  end.

(** An event of a pump or of the subprocess, not of the channel. *)
Definition background (ev : event) : Prop :=
  match ev with
  | ReadLine _ _ _ | ReadError _ _ | ProcessExit _ => True
  | _ => False
  end.

Definition is_object (v : json) : bool :=
  match v with
  | JObj _ => true
  | _ => false
  end.

Definition is_string (v : json) : bool :=
  match v with
  | JStr _ => true
  | _ => false
  end.

(** The text of a JSON string. *)
Definition quoted (s : str) : str := 34 :: s ++ [34].

(** Three first messages: an object with a program, an object without
    one, and an object whose [code] is a number. *)
Definition msg_program : str :=
  py "{" ++ quoted (py "code") ++ py ": " ++ quoted (py "print(1)") ++ py "}".

Definition msg_empty : str := py "{}".

Definition msg_number : str :=
  py "{" ++ quoted (py "code") ++ py ": 5}".

(** A parser that knows these three messages and takes nothing else
    for JSON. *)
Definition toy_json (s : str) : option json :=
  if str_eqb s msg_program
  then Some (JObj [(py "code", JStr (py "print(1)"))])
  else if str_eqb s msg_empty then Some (JObj [])
  else if str_eqb s msg_number
  then Some (JObj [(py "code", JNum 5%Z)])
  else None.

(** What [mkdir(parents=True, exist_ok=True)] raises when a regular file
    is in the way: [FileExistsError] when the file is at the path itself
    ([rest] empty), [NotADirectoryError] when it is above it. *)
Definition mkdir_blocked (rest : PosixPath) : pyexc :=
  match rest with
  | [] => FileExistsError
  | _ :: _ => NotADirectoryError
  end.

(** A component as [pathlib] parses one out of a path string: not empty,
    without a slash, and not [.]. *)
Definition component (c : str) : Prop :=
  c <> [] /\ ~ In 47 c /\ c <> py ".".

(* ===================================================================== *)
(** ** UTF-8 and newlines: basic facts *)
(* ===================================================================== *)

Lemma split64 (c : N) : c = 64 * (c / 64) + c mod 64 /\ c mod 64 < 64.
Proof. split; [apply N.div_mod' | apply N.mod_lt; discriminate]. Qed.

Lemma div4096 (c : N) : c / 4096 = c / 64 / 64.
Proof. rewrite N.Div0.div_div. reflexivity. Qed.

Lemma div262144 (c : N) : c / 262144 = c / 64 / 64 / 64.
Proof. rewrite !N.Div0.div_div. reflexivity. Qed.

(** Name the base-64 digits of [c] and forget how they were computed. *)
Ltac cut64 c :=
  try rewrite (div262144 c) in *; try rewrite (div4096 c) in *;
  destruct (split64 c);
  destruct (split64 (c / 64));
  destruct (split64 (c / 64 / 64));
  generalize dependent (c mod 64);
  generalize dependent ((c / 64) mod 64);
  generalize dependent ((c / 64 / 64) mod 64);
  generalize dependent (c / 64 / 64 / 64);
  generalize dependent (c / 64 / 64);
  generalize dependent (c / 64); intros.

Ltac bool_hyps :=
  repeat match goal with
    | H : (_ <? _) = true |- _ => apply N.ltb_lt in H
    | H : (_ <? _) = false |- _ => apply N.ltb_ge in H
    | H : (_ <=? _) = true |- _ => apply N.leb_le in H
    | H : (_ <=? _) = false |- _ => apply N.leb_gt in H
    | H : (_ && _) = true |- _ => apply andb_true_iff in H; destruct H
    end.

(** Settle the comparisons of the goal that follow from the hypotheses
    on [c]. *)
Ltac settle c :=
  repeat match goal with
    | |- context [?a <? ?b] =>
        first
          [ replace (a <? b) with true
              by (symmetry; apply N.ltb_lt; cut64 c; lia)
          | replace (a <? b) with false
              by (symmetry; apply N.ltb_ge; cut64 c; lia) ]
    | |- context [?a <=? ?b] =>
        first
          [ replace (a <=? b) with true
              by (symmetry; apply N.leb_le; cut64 c; lia)
          | replace (a <=? b) with false
              by (symmetry; apply N.leb_gt; cut64 c; lia) ]
    end.

Lemma utf8_decode_gen_cons (strict : bool) (b0 : N) (r : bytes) :
  utf8_decode_gen strict (b0 :: r)
  = let bad := if strict then None else utf8_decode_gen strict r in
    if b0 <? 0x80 then cons_opt b0 (utf8_decode_gen strict r)
    else if (0xC2 <=? b0) && (b0 <=? 0xDF) then
      match r with
      | b1 :: r1 =>
          if is_cont b1
          then cons_opt ((b0 - 0xC0) * 64 + (b1 - 0x80))
                        (utf8_decode_gen strict r1)
          else bad
      | _ => bad
      end
    else if (0xE0 <=? b0) && (b0 <=? 0xEF) then
      match r with
      | b1 :: b2 :: r2 =>
          let c := (b0 - 0xE0) * 4096 + (b1 - 0x80) * 64 + (b2 - 0x80) in
          if is_cont b1 && is_cont b2 && (0x800 <=? c)
             && negb (is_surrogate c)
          then cons_opt c (utf8_decode_gen strict r2)
          else bad
      | _ => bad
      end
    else if (0xF0 <=? b0) && (b0 <=? 0xF4) then
      match r with
      | b1 :: b2 :: b3 :: r3 =>
          let c := (b0 - 0xF0) * 262144 + (b1 - 0x80) * 4096
                   + (b2 - 0x80) * 64 + (b3 - 0x80) in
          if is_cont b1 && is_cont b2 && is_cont b3
             && (0x10000 <=? c) && (c <? 0x110000)
          then cons_opt c (utf8_decode_gen strict r3)
          else bad
      | _ => bad
      end
    else bad.
Proof. reflexivity. Qed.

(** Decoding undoes the encoding of one code point. *)
Lemma decode_encode_cp (c : N) (bc rest : bytes) :
  utf8_encode_cp c = Some bc ->
  utf8_decode_gen true (bc ++ rest) = cons_opt c (utf8_decode_gen true rest).
Proof.
  unfold utf8_encode_cp.
  destruct (c <? 0x80) eqn:H1.
  { intros E. replace bc with [c] by congruence.
    cbn [app]. rewrite utf8_decode_gen_cons. cbv zeta.
    rewrite H1. reflexivity. }
  destruct (c <? 0x800) eqn:H2.
  { intros E.
    replace bc with [0xC0 + c / 64; 0x80 + c mod 64] by congruence.
    cbn [app]. rewrite utf8_decode_gen_cons. cbv zeta.
    unfold is_cont. bool_hyps. settle c. cbn [andb].
    f_equal. cut64 c. lia. }
  destruct (c <? 0x10000) eqn:H3.
  { unfold is_surrogate.
    destruct ((0xD800 <=? c) && (c <=? 0xDFFF)) eqn:H4; [discriminate|].
    intros E.
    replace bc with [0xE0 + c / 4096; 0x80 + (c / 64) mod 64; 0x80 + c mod 64]
      by congruence.
    cbn [app]. rewrite utf8_decode_gen_cons. cbv zeta.
    unfold is_cont, is_surrogate. bool_hyps.
    replace ((0xE0 + c / 4096 - 0xE0) * 4096
             + (0x80 + (c / 64) mod 64 - 0x80) * 64
             + (0x80 + c mod 64 - 0x80)) with c by (cut64 c; lia).
    rewrite H4. settle c. cbn [andb negb]. reflexivity. }
  destruct (c <? 0x110000) eqn:H4; [|discriminate].
  intros E.
  replace bc with [0xF0 + c / 262144; 0x80 + (c / 4096) mod 64;
                   0x80 + (c / 64) mod 64; 0x80 + c mod 64] by congruence.
  cbn [app]. rewrite utf8_decode_gen_cons. cbv zeta.
  unfold is_cont. bool_hyps.
  replace ((0xF0 + c / 262144 - 0xF0) * 262144
           + (0x80 + (c / 4096) mod 64 - 0x80) * 4096
           + (0x80 + (c / 64) mod 64 - 0x80) * 64
           + (0x80 + c mod 64 - 0x80)) with c by (cut64 c; lia).
  settle c. cbn [andb]. reflexivity.
Qed.

(** Strict decoding undoes encoding. *)
Lemma utf8_decode_encode (s : str) (b : bytes) :
  utf8_encode s = Some b -> utf8_decode b = Some s.
Proof.
  unfold utf8_decode. revert b.
  induction s as [|c s IH]; intros b; simpl.
  - intros [= <-]. reflexivity.
  - destruct (utf8_encode_cp c) as [bc|] eqn:Hc; [|discriminate].
    destruct (utf8_encode s) as [bs|]; [|discriminate].
    intros [= <-]. rewrite (decode_encode_cp _ _ Hc).
    rewrite (IH bs eq_refl). reflexivity.
Qed.

Lemma utf8_encode_app (a b : str) :
  utf8_encode (a ++ b)
  = match utf8_encode a, utf8_encode b with
    | Some x, Some y => Some (x ++ y)
    | _, _ => None
    end.
Proof.
  induction a as [|c a IH]; simpl.
  - destruct (utf8_encode b); reflexivity.
  - rewrite IH. destruct (utf8_encode_cp c); [|reflexivity].
    destruct (utf8_encode a); [|reflexivity].
    destruct (utf8_encode b); [|reflexivity].
    rewrite app_assoc. reflexivity.
Qed.

(** Text without a carriage return is read back as it is. *)
Lemma universal_newlines_id (s : str) :
  ~ In 13 s -> universal_newlines s = s.
Proof.
  induction s as [|c s IH]; intros H; simpl; [reflexivity|].
  destruct (c =? 13) eqn:E.
  - apply N.eqb_eq in E. subst c. exfalso. apply H. left. reflexivity.
  - rewrite IH; [reflexivity|]. intros Hin. apply H. right. exact Hin.
Qed.

(** Decoding with [errors='ignore'] keeps a final line feed in place:
    it cannot be taken for the continuation of a sequence. *)
Lemma decode_ignore_newline_aux (n : nat) (bs : bytes) :
  (List.length bs <= n)%nat ->
  exists s, utf8_decode_gen false bs = Some s
            /\ utf8_decode_gen false (bs ++ [10]) = Some (s ++ [10]).
Proof.
  revert bs. induction n as [|n IH]; intros bs Hlen.
  - destruct bs; [|simpl in Hlen; lia]. exists []. split; reflexivity.
  - destruct bs as [|b0 r]; [exists []; split; reflexivity|].
    simpl in Hlen.
    assert (Hr : exists s, utf8_decode_gen false r = Some s
               /\ utf8_decode_gen false (r ++ [10]) = Some (s ++ [10]))
      by (apply IH; lia).
    assert (Htail : forall r',
               (List.length r' < List.length r)%nat ->
               exists s, utf8_decode_gen false r' = Some s
                 /\ utf8_decode_gen false (r' ++ [10]) = Some (s ++ [10]))
      by (intros r' Hr'; apply IH; lia).
    assert (Hcons : forall c r',
               (exists s, utf8_decode_gen false r' = Some s
                  /\ utf8_decode_gen false (r' ++ [10]) = Some (s ++ [10])) ->
               exists s, cons_opt c (utf8_decode_gen false r') = Some s
                 /\ cons_opt c (utf8_decode_gen false (r' ++ [10]))
                    = Some (s ++ [10])).
    { intros c r' [s [E1 E2]]. rewrite E1, E2. exists (c :: s).
      split; reflexivity. }
    change ((b0 :: r) ++ [10]) with (b0 :: (r ++ [10])).
    rewrite (utf8_decode_gen_cons false b0 r).
    rewrite (utf8_decode_gen_cons false b0 (r ++ [10])).
    cbv zeta.
    destruct (b0 <? 0x80); [apply Hcons; exact Hr|].
    destruct ((0xC2 <=? b0) && (b0 <=? 0xDF)).
    { destruct r as [|b1 r1]; [exact Hr|]. cbn [app].
      destruct (is_cont b1); [|exact Hr].
      apply Hcons. apply Htail. simpl. lia. }
    destruct ((0xE0 <=? b0) && (b0 <=? 0xEF)).
    { destruct r as [|b1 [|b2 r2]]; cbn [app]; [exact Hr| |].
      - change (is_cont 10) with false. rewrite andb_false_r. exact Hr.
      - match goal with
        | |- context [if ?c then _ else _] => destruct c
        end; [|exact Hr].
        apply Hcons. apply Htail. simpl. lia. }
    destruct ((0xF0 <=? b0) && (b0 <=? 0xF4)); [|exact Hr].
    destruct r as [|b1 [|b2 [|b3 r3]]]; cbn [app]; [exact Hr|exact Hr| |].
    + change (is_cont 10) with false. rewrite andb_false_r. exact Hr.
    + match goal with
      | |- context [if ?c then _ else _] => destruct c
      end; [|exact Hr].
      apply Hcons. apply Htail. simpl. lia.
Qed.

Lemma decode_ignore_newline (line : bytes) :
  decode_ignore (line ++ [10]) = decode_ignore line ++ [10].
Proof.
  destruct (@decode_ignore_newline_aux (List.length line) line (le_n _))
    as [s [E1 E2]].
  unfold decode_ignore. rewrite E1, E2. reflexivity.
Qed.
(* ===================================================================== *)
(** ** Strings and paths: basic facts *)
(* ===================================================================== *)

Lemma str_eqb_refl (a : str) : str_eqb a a = true.
Proof.
  induction a as [|x a IH]; simpl; [reflexivity|].
  rewrite N.eqb_refl. exact IH.
Qed.

Lemma str_eqb_eq (a b : str) : str_eqb a b = true <-> a = b.
Proof.
  split.
  - revert b. induction a as [|x a IH]; destruct b as [|y b]; simpl;
      try discriminate; [reflexivity|].
    intros H. apply andb_true_iff in H. destruct H as [Hx Hr].
    apply N.eqb_eq in Hx. f_equal; [exact Hx | apply IH; exact Hr].
  - intros ->. apply str_eqb_refl.
Qed.

Lemma str_eqb_neq (a b : str) : str_eqb a b = false <-> a <> b.
Proof.
  split.
  - intros H E. apply str_eqb_eq in E. congruence.
  - intros H. destruct (str_eqb a b) eqn:E; [|reflexivity].
    apply str_eqb_eq in E. contradiction.
Qed.

Lemma path_eqb_eq (a b : PosixPath) : path_eqb a b = true <-> a = b.
Proof.
  unfold path_eqb. split.
  - revert b. induction a as [|x a IH]; destruct b as [|y b]; simpl;
      try discriminate; [reflexivity|].
    intros H. apply andb_true_iff in H. destruct H as [Hl H].
    apply andb_true_iff in H. destruct H as [Hx Hr].
    apply str_eqb_eq in Hx. subst y. f_equal.
    apply IH. rewrite Hl. exact Hr.
  - intros ->. induction b as [|y b IH]; simpl; [reflexivity|].
    apply andb_true_iff in IH. destruct IH as [Hl Hr].
    rewrite Hl, str_eqb_refl, Hr. reflexivity.
Qed.

Lemma path_in_In (p : PosixPath) (l : list PosixPath) :
  path_in p l = true <-> In p l.
Proof.
  unfold path_in. rewrite existsb_exists. split.
  - intros [q [Hin Heq]]. apply path_eqb_eq in Heq. subst q. exact Hin.
  - intros Hin. exists p. split; [exact Hin | apply path_eqb_eq; reflexivity].
Qed.

(** The proper prefixes of [p] are the paths [p] lies strictly below. *)
Lemma proper_prefixes_spec (p q : PosixPath) :
  In q (proper_prefixes p) <-> is_descendant q p.
Proof.
  unfold is_descendant. revert q.
  induction p as [|x p IH]; intros q; simpl.
  - split; [tauto|]. intros [rest [Hne E]].
    destruct q; destruct rest; simpl in E; congruence.
  - split.
    + intros [<- | Hin].
      * exists (x :: p). split; [discriminate | reflexivity].
      * apply in_map_iff in Hin. destruct Hin as [q' [<- Hin]].
        apply IH in Hin. destruct Hin as [rest [Hne ->]].
        exists rest. split; [exact Hne | reflexivity].
    + intros [rest [Hne E]]. destruct q as [|y q]; [left; reflexivity|].
      right. simpl in E. injection E as -> ->.
      apply in_map. apply IH. exists rest. split; [exact Hne | reflexivity].
Qed.

Lemma parents_spec (p q : PosixPath) :
  path_in q (parents p) = true <-> is_descendant q p.
Proof.
  rewrite path_in_In. unfold parents. rewrite <- in_rev.
  apply proper_prefixes_spec.
Qed.

(* ===================================================================== *)
(** ** The path guard: properties *)
(* ===================================================================== *)

Section PathGuardProperties.

Variable FS : Type.
Variable resolve : FS -> PosixPath -> io PosixPath.
Variable BASE_DIR : PosixPath.

Local Abbreviation WS := (WORKSPACE_DIR BASE_DIR).

(** C1.  Let [target] be the canonical resolution of the client's path
    against the workspace root.  If [target] is neither the root nor
    below it, [safe_workspace_path] raises HTTP 400 "Invalid path"; if it
    is the root or below it, [safe_workspace_path] returns [target].  In
    both cases the file system is left as it was. *)
Theorem safe_workspace_path_guard (p : str) (fs : FS) (target : PosixPath) :
  resolve fs (joinpath WS p) = Done target ->
  snd (safe_workspace_path resolve BASE_DIR p fs) = fs
  /\ (~ within WS target ->
      fst (safe_workspace_path resolve BASE_DIR p fs)
      = Raise (HTTPException 400 (Msg (py "Invalid path"))))
  /\ (within WS target ->
      fst (safe_workspace_path resolve BASE_DIR p fs) = Ok target).
Proof.
  intros Hres. unfold safe_workspace_path. rewrite Hres.
  destruct (path_in WS (parents target)) eqn:Hin;
    destruct (path_eqb target WS) eqn:Heq; simpl.
  - repeat split; try reflexivity. intros Hout. exfalso. apply Hout.
    left. apply path_eqb_eq. exact Heq.
  - repeat split; try reflexivity. intros Hout. exfalso. apply Hout.
    right. apply parents_spec. exact Hin.
  - repeat split; try reflexivity. intros Hout. exfalso. apply Hout.
    left. apply path_eqb_eq. exact Heq.
  - repeat split; try reflexivity. intros [E | D].
    + apply path_eqb_eq in E. congruence.
    + apply parents_spec in D. congruence.
Qed.

End PathGuardProperties.

(** The guard at work on a tree without links: a path that climbs out
    of [/srv/backend/workspace] is refused, one that climbs and comes
    back is accepted. *)
Lemma safe_workspace_path_guard_witness :
  fst (safe_workspace_path FileSystem.resolve [py "srv"; py "backend"]
         (py "docs/../../../etc/passwd") (Dir []))
  = Raise (HTTPException 400 (Msg (py "Invalid path")))
  /\ fst (safe_workspace_path FileSystem.resolve [py "srv"; py "backend"]
            (py "docs/../notes.txt") (Dir []))
     = Ok [py "srv"; py "backend"; py "workspace"; py "notes.txt"].
Proof.
  split.
  - apply (safe_workspace_path_guard FileSystem.resolve
             [py "srv"; py "backend"] (py "docs/../../../etc/passwd") (Dir [])
             (target := [py "srv"; py "etc"; py "passwd"])).
    + reflexivity.
    + intros [E | [rest [_ E]]]; vm_compute in E; discriminate.
  - apply (safe_workspace_path_guard FileSystem.resolve
             [py "srv"; py "backend"] (py "docs/../notes.txt") (Dir [])
             (target := [py "srv"; py "backend"; py "workspace"; py "notes.txt"])).
    + reflexivity.
    + right. exists [py "notes.txt"]. split; [discriminate | reflexivity].
Defined.

(* ===================================================================== *)
(** ** One-shot execution: properties *)
(* ===================================================================== *)

Section RunnerProperties.

Variable World : Type.
Variable os_mkdtemp : World -> PosixPath * World.
Variable os_write_text : World -> PosixPath -> str -> World.
Variable os_rmtree : World -> PosixPath -> World.
Variable os_run :
  World -> list str -> PosixPath -> Z -> option str -> run_outcome * World.

Local Abbreviation runner := (_run_subprocess os_run).
Local Abbreviation RunPython := (run_python os_mkdtemp os_write_text os_rmtree os_run).
Local Abbreviation RunCode := (run_code os_mkdtemp os_write_text os_rmtree os_run).

(** Every call of [_run_subprocess] spawns exactly its command. *)
Lemma run_subprocess_spawned args cwd t inp (m : machine World) :
  spawned (snd (runner args cwd t inp m)) = spawned m ++ [args].
Proof.
  unfold _run_subprocess.
  destruct (os_run (world m) args cwd t inp) as [o w].
  destruct o; reflexivity.
Qed.

Lemma run_stage_spec argv tmp (m : machine World) :
  fst (run_stage os_run argv tmp m)
  = answer_of (fst (runner argv tmp 10%Z None m))
  /\ spawned (snd (run_stage os_run argv tmp m)) = spawned m ++ [argv].
Proof.
  unfold run_stage.
  pose proof (run_subprocess_spawned argv tmp 10%Z None m) as Hs.
  destruct (runner argv tmp 10%Z None m) as [[[o e]|x] m1]; simpl in *;
    split; auto.
Qed.

(** A source that can be encoded is written; one that cannot raises
    [UnicodeEncodeError], and nothing has been spawned. *)
Lemma write_source_ok code_path text (m : machine World) :
  utf8_encode text <> None ->
  write_source os_write_text code_path text m
  = (Done tt, written os_write_text (world m) code_path text m).
Proof.
  intros H. unfold write_source, written.
  destruct (utf8_encode text); [reflexivity | congruence].
Qed.

Lemma write_source_fail code_path text (m : machine World) :
  utf8_encode text = None ->
  exists m1,
    write_source os_write_text code_path text m = (Fail UnicodeEncodeError, m1)
    /\ spawned m1 = spawned m.
Proof.
  intros H. unfold write_source. rewrite H. eexists.
  split; reflexivity.
Qed.

(** C3.  When the subprocess does not exit within the timeout
    ([subprocess.run] raises [TimeoutExpired], whatever output it had
    collected), [_run_subprocess] returns the pair of the empty string
    and "Execution timed out"; and the python endpoint, whose run timed
    out, answers normally with that pair as its body. *)
Theorem run_subprocess_timeout :
  (forall args cwd t inp (m : machine World) out err w,
      os_run (world m) args cwd t inp = (TimeoutExpired out err, w) ->
      fst (runner args cwd t inp m)
      = Ok (py "", py "Execution timed out"))
  /\ (forall req (m : machine World) tmp w0 out err w,
      os_mkdtemp (world m) = (tmp, w0) ->
      utf8_encode (py_code req) <> None ->
      os_run (os_write_text w0 (joinpath tmp (py "main.py")) (py_code req))
        [py "python"; str_of_path (joinpath tmp (py "main.py"))] tmp
        (timeout_or_10 (py_timeout req)) (py_stdin req)
      = (TimeoutExpired out err, w) ->
      fst (RunPython req m)
      = Ok (response (py "") (py "Execution timed out"))).
Proof.
  split.
  - intros args cwd t inp m out err w H. unfold _run_subprocess.
    rewrite H. reflexivity.
  - intros req m tmp w0 out err w Hmk Henc H.
    unfold run_python, TemporaryDirectory. rewrite Hmk.
    rewrite (@write_source_ok _ _ _ Henc).
    unfold _run_subprocess at 1, written. simpl. rewrite H. reflexivity.
Qed.

(** C10.  On both python endpoints, when the [stderr] of the first run
    (under [python]) holds "not found" in any letter case, the code is
    run again under [python3]; the answer is that of the second run, and
    two commands have been spawned.  What put the words there plays no
    part: a program that ran and printed them itself is run twice. *)
Theorem python_rerun_on_not_found :
  (forall req (m : machine World) tmp w0 out1 err1 m2,
      os_mkdtemp (world m) = (tmp, w0) ->
      utf8_encode (py_code req) <> None ->
      let code_path := joinpath tmp (py "main.py") in
      let first := [py "python"; str_of_path code_path] in
      let second := [py "python3"; str_of_path code_path] in
      let t := timeout_or_10 (py_timeout req) in
      runner first tmp t (py_stdin req)
        (written os_write_text w0 code_path (py_code req) m)
      = (Ok (out1, err1), m2) ->
      contains (py "not found") (lower err1) = true ->
      fst (RunPython req m)
      = answer_of (fst (runner second tmp t (py_stdin req) m2))
      /\ spawned (snd (RunPython req m)) = spawned m ++ [first; second])
  /\ (forall req (m : machine World) tmp w0 out1 err1 m2,
      str_in (strip (lower (language req))) [py "python"; py "py"] = true ->
      os_mkdtemp (world m) = (tmp, w0) ->
      utf8_encode (code req) <> None ->
      let code_path := joinpath tmp (py "main.py") in
      let first := [py "python"; str_of_path code_path] in
      let second := [py "python3"; str_of_path code_path] in
      runner first tmp 10%Z None
        (written os_write_text w0 code_path (code req) m)
      = (Ok (out1, err1), m2) ->
      contains (py "not found") (lower err1) = true ->
      fst (RunCode req m)
      = answer_of (fst (runner second tmp 10%Z None m2))
      /\ spawned (snd (RunCode req m)) = spawned m ++ [first; second]).
Proof.
  split.
  - intros req m tmp w0 out1 err1 m2 Hmk Henc code_path first second t H1 Hnf.
    pose proof (run_subprocess_spawned first tmp t (py_stdin req)
      (written os_write_text w0 code_path (py_code req) m)) as Hs1.
    rewrite H1 in Hs1. simpl in Hs1.
    pose proof (run_subprocess_spawned second tmp t (py_stdin req) m2) as Hs2.
    unfold run_python, TemporaryDirectory. rewrite Hmk.
    rewrite (@write_source_ok _ _ _ Henc).
    fold code_path. fold first. fold second. fold t.
    change (written os_write_text
              (world {| world := w0; spawned := spawned m |}) code_path
              (py_code req) {| world := w0; spawned := spawned m |})
      with (written os_write_text w0 code_path (py_code req) m).
    rewrite H1. rewrite Hnf.
    destruct (runner second tmp t (py_stdin req) m2) as [[[o e]|x] m3];
      simpl in *; rewrite Hs2, Hs1, <- app_assoc; split; reflexivity.
  - intros req m tmp w0 out1 err1 m2 Hlang Hmk Henc code_path first second
      H1 Hnf.
    pose proof (run_subprocess_spawned first tmp 10%Z None
      (written os_write_text w0 code_path (code req) m)) as Hs1.
    rewrite H1 in Hs1. simpl in Hs1.
    destruct (run_stage_spec second tmp m2) as [Hr Hs2].
    unfold run_code, TemporaryDirectory. rewrite Hmk. rewrite Hlang.
    rewrite (@write_source_ok _ _ _ Henc).
    fold code_path. fold first. fold second.
    change (written os_write_text
              (world {| world := w0; spawned := spawned m |}) code_path
              (code req) {| world := w0; spawned := spawned m |})
      with (written os_write_text w0 code_path (code req) m).
    rewrite H1. rewrite Hnf.
    destruct (run_stage os_run second tmp m2) as [r m3]. simpl in *.
    rewrite Hr, Hs2, Hs1, <- app_assoc. split; reflexivity.
Qed.

Lemma compile_then_run_spec compile_argv run_argv tmp (m1 : machine World) :
  match runner compile_argv tmp 10%Z None m1 with
  | (Raise e, _) =>
      fst (compile_then_run os_run compile_argv run_argv tmp m1) = Raise e
      /\ spawned (snd (compile_then_run os_run compile_argv run_argv tmp m1))
         = spawned m1 ++ [compile_argv]
  | (Ok (_, compile_err), m2) =>
      if nonempty compile_err
      then
        fst (compile_then_run os_run compile_argv run_argv tmp m1)
        = Ok (response (py "") compile_err)
        /\ spawned (snd (compile_then_run os_run compile_argv run_argv tmp m1))
           = spawned m1 ++ [compile_argv]
      else
        fst (compile_then_run os_run compile_argv run_argv tmp m1)
        = answer_of (fst (runner run_argv tmp 10%Z None m2))
        /\ spawned (snd (compile_then_run os_run compile_argv run_argv tmp m1))
           = spawned m1 ++ [compile_argv; run_argv]
  end.
Proof.
  unfold compile_then_run.
  pose proof (run_subprocess_spawned compile_argv tmp 10%Z None m1) as Hs1.
  destruct (runner compile_argv tmp 10%Z None m1) as [[[o e]|x] m2];
    simpl in Hs1; [|split; [reflexivity | exact Hs1]].
  destruct e as [|c e]; simpl.
  - destruct (run_stage_spec run_argv tmp m2) as [Hr Hs2].
    rewrite Hr, Hs2, Hs1, <- app_assoc. split; reflexivity.
  - split; [reflexivity | exact Hs1].
Qed.

Lemma str_in_cases (x : str) (l : list str) :
  str_in x l = true -> In x l.
Proof.
  unfold str_in. rewrite existsb_exists. intros [y [Hin E]].
  apply str_eqb_eq in E. subst y. exact Hin.
Qed.

(** A branch of [run_code] that writes the source and compiles it. *)
Lemma compiled_branch (req : RunRequest) (m : machine World) tmp w0
  (source_name : str) (compile_argv run_argv : list str)
  (out : result json * machine World) :
  out
  = (let (r, m') :=
       match write_source os_write_text (joinpath tmp source_name) (code req)
               {| world := w0; spawned := spawned m |} with
       | (Fail e, m1) => (Raise (Uncaught e), m1)
       | (Done _, m1) => compile_then_run os_run compile_argv run_argv tmp m1
       end in
     (r, {| world := os_rmtree (world m') tmp; spawned := spawned m' |})) ->
  compile_gate os_write_text os_run req m tmp w0 source_name compile_argv
    run_argv out.
Proof.
  intros ->. unfold compile_gate, write_source.
  destruct (utf8_encode (code req)) as [b|]; [|split; reflexivity].
  cbv zeta.
  change {| world := os_write_text
                       (world {| world := w0; spawned := spawned m |})
                       (joinpath tmp source_name) (code req);
            spawned := spawned {| world := w0; spawned := spawned m |} |}
    with (written os_write_text w0 (joinpath tmp source_name) (code req) m).
  set (m1 := written os_write_text w0 (joinpath tmp source_name) (code req) m).
  pose proof (compile_then_run_spec compile_argv run_argv tmp m1) as H.
  destruct (compile_then_run os_run compile_argv run_argv tmp m1) as [r m'].
  exact H.
Qed.

(** C4 (as amended).  For the compiled languages [run_code] writes the
    source and spawns the compiler before anything else: [gcc] on
    [main.c] for c, [g++] on [main.cpp] for cpp and c++, [javac] on
    [Main.java] for java.  If the [stderr] of that stage is not empty,
    the answer is an empty [stdout] with that [stderr], and no other
    command is spawned; if it is empty, the run command (the binary
    [main], or [java -cp <dir> Main]) is spawned next and the answer is
    its [stdout] and [stderr].  A source that cannot be encoded ends the
    request before any command is spawned. *)
Theorem compile_stage_first (req : RunRequest) (m : machine World) tmp w0 :
  os_mkdtemp (world m) = (tmp, w0) ->
  let language := strip (lower (language req)) in
  let gate := compile_gate os_write_text os_run req m tmp w0 in
  (language = py "c" ->
   gate (py "main.c")
     [py "gcc"; str_of_path (joinpath tmp (py "main.c")); py "-O2";
      py "-std=c11"; py "-o"; py "main"]
     [str_of_path (joinpath tmp (py "main"))]
     (RunCode req m))
  /\ (language = py "cpp" \/ language = py "c++" ->
      gate (py "main.cpp")
        [py "g++"; str_of_path (joinpath tmp (py "main.cpp")); py "-O2";
         py "-std=c++17"; py "-o"; py "main"]
        [str_of_path (joinpath tmp (py "main"))]
        (RunCode req m))
  /\ (language = py "java" ->
      gate (py "Main.java")
        [py "javac"; str_of_path (joinpath tmp (py "Main.java"))]
        [py "java"; py "-cp"; str_of_path tmp; py "Main"]
        (RunCode req m)).
Proof.
  intros Hmk language gate. subst gate language.
  split; [|split].
  - intros E. apply compiled_branch.
    unfold run_code, TemporaryDirectory. rewrite Hmk, E. reflexivity.
  - intros [E | E]; apply compiled_branch;
      unfold run_code, TemporaryDirectory; rewrite Hmk, E; reflexivity.
  - intros E. apply compiled_branch.
    unfold run_code, TemporaryDirectory. rewrite Hmk, E. reflexivity.
Qed.

Lemma runner_raises argv cwd t inp (m : machine World) (x : exn) :
  fst (runner argv cwd t inp m) = Raise x -> exists e, x = Uncaught e.
Proof.
  unfold _run_subprocess.
  destruct (os_run (world m) argv cwd t inp) as [o w].
  destruct o; simpl; intros H; try discriminate.
  injection H as <-. eexists. reflexivity.
Qed.

Lemma answer_of_not_http (r : result (str * str)) :
  (forall x, r = Raise x -> exists e, x = Uncaught e) ->
  forall status d, answer_of r <> Raise (HTTPException status d).
Proof.
  intros H status d. destruct r as [[o e]|x]; simpl; [discriminate|].
  destruct (H x eq_refl) as [e ->]. discriminate.
Qed.

Lemma run_stage_started argv tmp (m0 m : machine World) :
  spawned m = spawned m0 ->
  started argv m0 (run_stage os_run argv tmp m).
Proof.
  intros Hm. destruct (run_stage_spec argv tmp m) as [Hr Hs].
  unfold started. rewrite Hr, Hs, Hm. split.
  - exists []. reflexivity.
  - apply answer_of_not_http. intros x. apply runner_raises.
Qed.

Lemma compile_then_run_started cargv rargv tmp (m0 m : machine World) :
  spawned m = spawned m0 ->
  started cargv m0 (compile_then_run os_run cargv rargv tmp m).
Proof.
  intros Hm.
  pose proof (compile_then_run_spec cargv rargv tmp m) as H.
  pose proof (@runner_raises cargv tmp 10%Z None m) as Hr.
  unfold started.
  destruct (runner cargv tmp 10%Z None m) as [[[o e]|x] m1]; simpl in *.
  - destruct (nonempty e); destruct H as [H1 H2]; rewrite H1, H2, Hm.
    + split; [|intros; discriminate]. exists []. reflexivity.
    + split.
      * exists [rargv]. reflexivity.
      * apply answer_of_not_http. intros x. apply runner_raises.
  - destruct H as [H1 H2]. rewrite H1, H2, Hm. split.
    + exists []. reflexivity.
    + intros status d. destruct (Hr x eq_refl) as [e ->]. discriminate.
Qed.

(** The python branch of [run_code]: [python] first, then perhaps
    [python3]. *)
Lemma python_branch_started code_path tmp (m0 m : machine World) :
  spawned m = spawned m0 ->
  started [py "python"; str_of_path code_path] m0
    (match runner [py "python"; str_of_path code_path] tmp 10%Z None m with
     | (Raise e, m2) => (Raise e, m2)
     | (Ok (stdout, stderr), m2) =>
         if contains (py "not found") (lower stderr) then
           run_stage os_run [py "python3"; str_of_path code_path] tmp m2
         else (Ok (response stdout stderr), m2)
     end).
Proof.
  intros Hm.
  pose proof (@runner_raises [py "python"; str_of_path code_path] tmp
                10%Z None m) as Hr.
  pose proof (run_subprocess_spawned [py "python"; str_of_path code_path]
                tmp 10%Z None m) as Hs.
  destruct (runner [py "python"; str_of_path code_path] tmp 10%Z None m)
    as [[[o e]|x] m2]; simpl in Hr, Hs.
  - destruct (contains (py "not found") (lower e)).
    + destruct (@run_stage_started [py "python3"; str_of_path code_path]
                  tmp m2 m2 eq_refl) as [[rest H2] H3].
      split; [|exact H3].
      exists ([py "python3"; str_of_path code_path] :: rest).
      rewrite H2, Hs, Hm, <- app_assoc. reflexivity.
    + split; [|intros; discriminate]. exists []. simpl.
      rewrite Hs, Hm. reflexivity.
  - split.
    + exists []. simpl. rewrite Hs, Hm. reflexivity.
    + intros status d. destruct (Hr x eq_refl) as [e ->]. discriminate.
Qed.

Lemma str_in_false_sub (x : str) (l l' : list str) :
  (forall y, In y l' -> In y l) ->
  str_in x l = false -> str_in x l' = false.
Proof.
  intros Hsub H. unfold str_in in *.
  destruct (existsb (str_eqb x) l') eqn:E; [|reflexivity].
  apply existsb_exists in E. destruct E as [y [Hin Hy]].
  assert (existsb (str_eqb x) l = true) as C.
  { apply existsb_exists. exists y. split; [apply Hsub; exact Hin | exact Hy]. }
  congruence.
Qed.

(** C5 (as amended).  The language is compared after lowering its case
    and stripping the white space around it.  An identifier that is one
    of python, c, cpp, javascript, java, py, c++, js, node up to letter
    case is accepted.  For an accepted identifier and a code that can be
    written, the first command [run_code] spawns is the one its
    language's pipeline starts with, and the answer is not an HTTP
    error; a code that cannot be encoded ends the request with
    [UnicodeEncodeError], nothing spawned.  For any other identifier
    [run_code] raises HTTP 400 and spawns nothing, and the message names
    python, c, cpp, javascript and java. *)
Theorem language_dispatch (req : RunRequest) (m : machine World) :
  (str_in (lower (language req)) known_languages = true ->
   str_in (strip (lower (language req))) known_languages = true)
  /\ (str_in (strip (lower (language req))) known_languages = true ->
      dispatched (strip (lower (language req))) (code req)
        (fst (os_mkdtemp (world m))) m (RunCode req m))
  /\ (str_in (strip (lower (language req))) known_languages = false ->
      fst (RunCode req m) = Raise unsupported_language
      /\ spawned (snd (RunCode req m)) = spawned m)
  /\ Forall
       (fun name =>
          contains name
            (py "Unsupported language. Use python, c, cpp, javascript, or java")
          = true)
       [py "python"; py "c"; py "cpp"; py "javascript"; py "java"].
Proof.
  split; [|split; [|split]].
  - intros H. apply str_in_cases in H. simpl in H.
    repeat (destruct H as [<- | H]; [reflexivity|]). destruct H.
  - intros H. apply str_in_cases in H.
    destruct (os_mkdtemp (world m)) as [tmp w0] eqn:Hmk.
    unfold run_code, TemporaryDirectory, dispatched. rewrite Hmk. simpl fst.
    simpl in H.
    repeat (destruct H as [<- | H]); [.. | destruct H].
    all: repeat match goal with
           | |- context [str_in ?a ?l] =>
               let b := eval vm_compute in (str_in a l) in
               replace (str_in a l) with b by (vm_compute; reflexivity)
           end.
    all: cbv iota.
    all: unfold first_command.
    all: repeat match goal with
           | |- context [str_in ?a ?l] =>
               let b := eval vm_compute in (str_in a l) in
               replace (str_in a l) with b by (vm_compute; reflexivity)
           end.
    all: cbv iota.
    all: unfold write_source.
    all: destruct (utf8_encode (code req)) as [b|]; [|split; reflexivity].
    all: cbv iota beta.
    all: match goal with
         | |- started ?a _ (let (r, m') := ?body in _) =>
             assert (Hb : started a m body);
             [| destruct body as [r m']; exact Hb]
         end.
    all: try (apply run_stage_started; reflexivity).
    all: try (apply compile_then_run_started; reflexivity).
    all: apply python_branch_started; reflexivity.
  - intros H. unfold run_code, TemporaryDirectory.
    destruct (os_mkdtemp (world m)) as [tmp w0].
    rewrite (@str_in_false_sub _ known_languages [py "python"; py "py"]);
      [| simpl; tauto | exact H].
    rewrite (@str_in_false_sub _ known_languages [py "c"]);
      [| simpl; tauto | exact H].
    rewrite (@str_in_false_sub _ known_languages [py "cpp"; py "c++"]);
      [| simpl; tauto | exact H].
    rewrite (@str_in_false_sub _ known_languages
               [py "javascript"; py "js"; py "node"]);
      [| simpl; tauto | exact H].
    rewrite (@str_in_false_sub _ known_languages [py "java"]);
      [| simpl; tauto | exact H].
    split; reflexivity.
  - repeat constructor.
Qed.

End RunnerProperties.

(* ===================================================================== *)
(** ** The interactive session: properties *)
(* ===================================================================== *)

Section SessionProperties.

Variable json_loads : str -> option json.

Local Abbreviation Step := (step json_loads).
Local Abbreviation Run := (run json_loads).
Local Abbreviation WsPython := (ws_python json_loads).

Lemma finally_spec (p : option process) (q : process) :
  finally p = Some q -> kill_sent q = true \/ returncode q <> None.
Proof.
  destruct p as [pr|]; simpl; [|discriminate].
  destruct (returncode pr) eqn:E; intros H; injection H as <-.
  - right. rewrite E. discriminate.
  - left. reflexivity.
Qed.

Lemma leave_inv (s : session) (e : option pyexc) : session_inv (leave s e).
Proof.
  unfold session_inv, leave. simpl. split.
  - destruct (scratch s); discriminate.
  - intros p. apply finally_spec.
Qed.

Lemma step_inv (s s' : session) (ev : event) :
  session_inv s -> Step s ev = Some s' -> session_inv s'.
Proof.
  intros Hinv Hstep. destruct ev as [msg a| |e|t line a|t e|status]; simpl in Hstep.
  - destruct (state s) eqn:Hst; [| |discriminate]; injection Hstep as <-.
    + unfold start. destruct (source_text (first_code json_loads msg)).
      * destruct a; [|apply leave_inv].
        unfold session_inv; simpl. split; [eexists; reflexivity | reflexivity].
      * apply leave_inv.
    + unfold forward. destruct (proc s) eqn:Hp; [|exact Hinv].
      destruct (utf8_encode (msg ++ [10])); [|apply leave_inv].
      destruct a; [|apply leave_inv].
      unfold session_inv in *; simpl. rewrite Hst in *.
      split; [eexists; reflexivity | apply Hinv].
  - destruct (state s); [| |discriminate]; injection Hstep as <-;
      apply leave_inv.
  - destruct (state s); [| |discriminate]; injection Hstep as <-;
      apply leave_inv.
  - destruct (task_of s t) as [[| | |]|] eqn:Ht; try discriminate.
    injection Hstep as <-.
    assert (Hc : state s <> Created).
    { intros Hc. unfold session_inv in Hinv. rewrite Hc in Hinv.
      destruct Hinv as (_ & _ & _ & _ & H1 & H2).
      destruct t; simpl in Ht; congruence. }
    unfold pump. destruct line; [|destruct a];
      unfold session_inv in *; simpl;
      destruct (state s); try congruence; exact Hinv.
  - destruct (task_of s t) as [[| | |]|] eqn:Ht; try discriminate.
    injection Hstep as <-.
    assert (Hc : state s <> Created).
    { intros Hc. unfold session_inv in Hinv. rewrite Hc in Hinv.
      destruct Hinv as (_ & _ & _ & _ & H1 & H2).
      destruct t; simpl in Ht; congruence. }
    unfold session_inv in *; simpl;
      destruct (state s); try congruence; exact Hinv.
  - unfold exited in Hstep. destruct (proc s) as [pr|] eqn:Hp; [|discriminate].
    destruct (returncode pr) eqn:Hrc; [discriminate|]. injection Hstep as <-.
    unfold session_inv in *; simpl. destruct (state s).
    + destruct Hinv as [H _]. congruence.
    + destruct Hinv as [_ H]. split; [eexists; reflexivity | exact H].
    + destruct Hinv as [H1 H2]. split; [exact H1|].
      intros p Hpe. injection Hpe as <-. simpl. right. discriminate.
Qed.

Lemma run_inv (evs : list event) (s s' : session) :
  session_inv s -> Run s evs = Some s' -> session_inv s'.
Proof.
  revert s. induction evs as [|ev evs IH]; intros s Hinv H; simpl in H.
  - injection H as <-. exact Hinv.
  - destruct (Step s ev) as [s1|] eqn:Hs; [|discriminate].
    apply (IH s1); [eapply step_inv; eassumption | exact H].
Qed.

Lemma accepted_inv : session_inv accepted.
Proof. unfold session_inv; simpl. repeat split. Qed.

Lemma leave_spec (s : session) (e : option pyexc) (p : process) :
  proc s = Some p -> scratch s = ScratchExists ->
  scratch (leave s e) = ScratchDeleted
  /\ (exists p', proc (leave s e) = Some p'
        /\ (returncode p = None -> kill_sent p' = true)
        /\ (returncode p <> None -> p' = p))
  /\ stdout_task (leave s e) = stdout_task s
  /\ stderr_task (leave s e) = stderr_task s.
Proof.
  intros Hp Hs. unfold leave; simpl. rewrite Hs, Hp. simpl.
  split; [reflexivity|]. split; [|split; reflexivity].
  destruct (returncode p) eqn:E.
  - exists p. split; [reflexivity|]. split; [discriminate | reflexivity].
  - eexists. split; [reflexivity|]. split; [reflexivity | congruence].
Qed.

(** C6 (as amended).  Whenever the handler has ended, the scratch
    directory is gone and the subprocess, if one was created, has exited
    or has been sent a kill.  In detail, for a session in its input
    loop: a disconnect ends the handler, and so does any other error of
    the channel; and whatever ends it (these, or a message that cannot be
    forwarded), the scratch directory is deleted, the subprocess is
    killed if it had not exited and left alone if it had, and the two
    pump tasks are left as they were, neither cancelled nor awaited. *)
Theorem teardown_on_exit (evs : list event) (s : session) :
  WsPython evs = Some s ->
  (forall e, state s = Terminated e ->
     scratch s <> ScratchExists
     /\ forall p, proc s = Some p ->
                  kill_sent p = true \/ returncode p <> None)
  /\ (state s = Running ->
      (exists s', Step s Disconnect = Some s' /\ state s' = Terminated None)
      /\ (forall x, exists s',
             Step s (ChannelError x) = Some s'
             /\ state s' = Terminated (Some x))
      /\ forall ev s' e, Step s ev = Some s' -> state s' = Terminated e ->
           scratch s' = ScratchDeleted
           /\ (exists p p', proc s = Some p /\ proc s' = Some p'
                 /\ (returncode p = None -> kill_sent p' = true)
                 /\ (returncode p <> None -> p' = p))
           /\ stdout_task s' = stdout_task s
           /\ stderr_task s' = stderr_task s).
Proof.
  intros Hrun. pose proof (@run_inv evs accepted s accepted_inv Hrun) as Hinv. split.
  - intros e He. unfold session_inv in Hinv. rewrite He in Hinv. exact Hinv.
  - intros Hst. split; [|split].
    { exists (leave s None). simpl. rewrite Hst. split; reflexivity. }
    { intros x. exists (leave s (Some x)). simpl. rewrite Hst.
      split; reflexivity. }
    intros ev s' e Hstep He.
    unfold session_inv in Hinv. rewrite Hst in Hinv.
    destruct Hinv as [[p Hp] Hsc].
    assert (Hleave : forall s0 x, proc s0 = Some p -> scratch s0 = ScratchExists ->
              stdout_task s0 = stdout_task s -> stderr_task s0 = stderr_task s ->
              s' = leave s0 x ->
              scratch s' = ScratchDeleted
              /\ (exists p0 p', proc s = Some p0 /\ proc s' = Some p'
                    /\ (returncode p0 = None -> kill_sent p' = true)
                    /\ (returncode p0 <> None -> p' = p0))
              /\ stdout_task s' = stdout_task s
              /\ stderr_task s' = stderr_task s).
    { intros s0 x Hp0 Hs0 Ho Hr ->.
      destruct (@leave_spec s0 x p Hp0 Hs0) as (H1 & (p' & H2 & H3 & H4) & H5 & H6).
      split; [exact H1|]. split; [|split; congruence].
      exists p, p'. repeat split; assumption. }
    destruct ev as [msg a| |x|t line a|t x|status]; simpl in Hstep.
    + rewrite Hst in Hstep. injection Hstep as <-. unfold forward in *.
      rewrite Hp in *. destruct (utf8_encode (msg ++ [10])).
      * destruct a; [simpl in He; congruence|].
        eapply Hleave; [| | | |reflexivity]; simpl; auto.
      * eapply Hleave; [| | | |reflexivity]; auto.
    + rewrite Hst in Hstep. injection Hstep as <-.
      eapply Hleave; [| | | |reflexivity]; auto.
    + rewrite Hst in Hstep. injection Hstep as <-.
      eapply Hleave; [| | | |reflexivity]; auto.
    + destruct (task_of s t) as [[| | |]|]; try discriminate.
      injection Hstep as <-. unfold pump in He.
      destruct line; [|destruct a]; simpl in He; congruence.
    + destruct (task_of s t) as [[| | |]|]; try discriminate.
      injection Hstep as <-. simpl in He; congruence.
    + unfold exited in Hstep. rewrite Hp in Hstep.
      destruct (returncode p); [discriminate|]. injection Hstep as <-.
      simpl in He; congruence.
Qed.

Lemma has_tag_frame (t t' : tag) (line : bytes) :
  has_tag t (frame t' line) = tag_eqb t t'.
Proof. destruct t, t'; reflexivity. Qed.

Lemma terminated_no_receive (evs : list event) (s s' : session) e :
  state s = Terminated e -> Run s evs = Some s' -> received evs = [].
Proof.
  revert s. induction evs as [|ev evs IH]; intros s Hst H; [reflexivity|].
  simpl in H. destruct (Step s ev) as [s1|] eqn:Hs; [|discriminate].
  assert (H1 : state s1 = Terminated e /\ received (ev :: evs) = received evs).
  { destruct ev as [msg a| |x|t line a|t x|status]; simpl in Hs;
      try (rewrite Hst in Hs; discriminate).
    - destruct (task_of s t) as [[| | |]|]; try discriminate.
      injection Hs as <-. split; [|reflexivity].
      unfold pump. destruct line; [|destruct a]; exact Hst.
    - destruct (task_of s t) as [[| | |]|]; try discriminate.
      injection Hs as <-. split; [exact Hst | reflexivity].
    - unfold exited in Hs. destruct (proc s) as [pr|]; [|discriminate].
      destruct (returncode pr); [discriminate|]. injection Hs as <-.
      split; [exact Hst | reflexivity]. }
  destruct H1 as [H1 H2]. rewrite H2. apply (IH s1 H1 H).
Qed.

Lemma run_streams (evs : list event) (s s' : session) :
  session_inv s -> Run s evs = Some s' ->
  stdin_log s'
  = stdin_log s
    ++ flat_map forwarded
         (match state s with
          | Created => tl (received evs)
          | _ => received evs
          end)
  /\ (forall t,
         frames_of t (sent s')
         = frames_of t (sent s) ++ List.map (frame t) (delivered t evs)).
Proof.
  revert s. induction evs as [|ev evs IH]; intros s Hinv H; simpl in H.
  - injection H as <-. split.
    + destruct (state s); simpl; rewrite app_nil_r; reflexivity.
    + intros t. simpl. rewrite app_nil_r. reflexivity.
  - destruct (Step s ev) as [s1|] eqn:Hs; [|discriminate].
    pose proof (@step_inv s s1 ev Hinv Hs) as Hinv1.
    destruct (IH s1 Hinv1 H) as [IH1 IH2]. clear IH.
    destruct ev as [msg a| |x|t line a|t x|status]; simpl in Hs.
    + (* a message *)
      destruct (state s) eqn:Hst; [| |discriminate]; injection Hs as <-.
      * (* the first one *)
        unfold session_inv in Hinv. rewrite Hst in Hinv.
        destruct Hinv as (_ & _ & Hlog & Hsent & _).
        assert (Hs1 : stdin_log (start json_loads s msg a) = stdin_log s
                      /\ sent (start json_loads s msg a) = sent s
                      /\ state (start json_loads s msg a) <> Created).
        { unfold start. destruct (source_text (first_code json_loads msg));
            [destruct a|]; simpl; repeat split; discriminate. }
        destruct Hs1 as (E1 & E2 & E3). rewrite E1 in IH1. rewrite E2 in IH2.
        simpl. split; [|exact IH2].
        rewrite IH1. destruct (state (start json_loads s msg a));
          [contradiction| |]; reflexivity.
      * (* a later one *)
        unfold session_inv in Hinv. rewrite Hst in Hinv.
        destruct Hinv as [[p Hp] _].
        assert (Hs1 : stdin_log (forward s msg a) = stdin_log s ++ forwarded msg
                      /\ sent (forward s msg a) = sent s
                      /\ state (forward s msg a) <> Created).
        { unfold forward, forwarded. rewrite Hp.
          destruct (utf8_encode (msg ++ [10])); [destruct a|]; simpl;
            rewrite ?app_nil_r; repeat split; congruence. }
        destruct Hs1 as (E1 & E2 & E3). rewrite E1 in IH1. rewrite E2 in IH2.
        simpl. split; [|exact IH2].
        rewrite IH1, <- app_assoc.
        destruct (state (forward s msg a)); [contradiction| |]; reflexivity.
    + (* disconnect *)
      assert (Hs1 : s1 = leave s None).
      { destruct (state s); congruence. }
      subst s1. simpl in *. split; [|exact IH2].
      rewrite IH1.
      rewrite (@terminated_no_receive evs (leave s None) s' None eq_refl H).
      destruct (state s); reflexivity.
    + (* channel error *)
      assert (Hs1 : s1 = leave s (Some x)).
      { destruct (state s); congruence. }
      subst s1. simpl in *. split; [|exact IH2].
      rewrite IH1.
      rewrite (@terminated_no_receive evs (leave s (Some x)) s' (Some x) eq_refl H).
      destruct (state s); reflexivity.
    + (* a pump reads *)
      destruct (task_of s t) as [[| | |]|] eqn:Ht; try discriminate.
      injection Hs as <-.
      assert (Hc : state s <> Created).
      { intros Hc. unfold session_inv in Hinv. rewrite Hc in Hinv.
        destruct Hinv as (_ & _ & _ & _ & H1 & H2).
        destruct t; simpl in Ht; congruence. }
      assert (E : state (pump s t line a) = state s
                  /\ stdin_log (pump s t line a) = stdin_log s).
      { unfold pump. destruct line; [|destruct a]; split; reflexivity. }
      destruct E as [E1 E2]. rewrite E1, E2 in IH1. split.
      * rewrite IH1. simpl. destruct (state s); [contradiction| |]; reflexivity.
      * intros t0. rewrite IH2. unfold pump.
        destruct line as [|b line]; [reflexivity|].
        destruct a as [u|x]; [|reflexivity]. cbn [sent].
        unfold frames_of at 1. rewrite filter_app. cbn [filter].
        rewrite has_tag_frame. cbn [delivered].
        destruct (tag_eqb t0 t) eqn:Et.
        -- assert (t0 = t) by (destruct t0, t; simpl in Et; congruence).
           subst t0. simpl. rewrite <- app_assoc. reflexivity.
        -- rewrite app_nil_r. reflexivity.
    + (* a pump fails *)
      destruct (task_of s t) as [[| | |]|] eqn:Ht; try discriminate.
      injection Hs as <-.
      assert (Hc : state s <> Created).
      { intros Hc. unfold session_inv in Hinv. rewrite Hc in Hinv.
        destruct Hinv as (_ & _ & _ & _ & H1 & H2).
        destruct t; simpl in Ht; congruence. }
      simpl in *. split; [|exact IH2].
      rewrite IH1. destruct (state s); [contradiction| |]; reflexivity.
    + (* the subprocess exits *)
      unfold exited in Hs. destruct (proc s) as [pr|] eqn:Hp; [|discriminate].
      destruct (returncode pr); [discriminate|]. injection Hs as <-.
      assert (Hc : state s <> Created).
      { intros Hc. unfold session_inv in Hinv. rewrite Hc in Hinv.
        destruct Hinv as (H1 & _). congruence. }
      simpl in *. split; [|exact IH2].
      rewrite IH1. destruct (state s); [contradiction| |]; reflexivity.
Qed.

(** C9.  In a session, whatever the order in which the event loop
    serves the handler and the two pumps: what has been done to the
    subprocess's [stdin] is, for each message received after the first
    and in their order, one write of the encoded message with a line
    feed appended, followed by one drain; and the frames sent for each
    stream are, in the order of the stream, one frame [{tag: text}] per
    line read from it, the text being the decoded line.  A message is
    written with exactly one line feed after it, and a line that ends
    with a line feed gives a text that ends with it. *)
Theorem session_streams (evs : list event) (s : session) :
  WsPython evs = Some s ->
  stdin_log s = flat_map forwarded (tl (received evs))
  /\ (forall t,
         frames_of t (sent s) = List.map (frame t) (delivered t evs))
  /\ (forall msg data,
         utf8_encode msg = Some data ->
         forwarded msg = [StdinWrite (data ++ [10]); StdinDrain])
  /\ (forall t line,
         frame t (line ++ [10])
         = JObj [(tag_name t, JStr (decode_ignore line ++ [10]))]).
Proof.
  intros Hrun.
  destruct (@run_streams evs accepted s accepted_inv Hrun) as [H1 H2].
  split; [exact H1|]. split; [exact H2|]. split.
  - intros msg data E. unfold forwarded. rewrite utf8_encode_app, E.
    reflexivity.
  - intros t line. unfold frame. rewrite decode_ignore_newline. reflexivity.
Qed.

End SessionProperties.

(* ===================================================================== *)
(** ** Instances on concrete hosts and schedules *)
(* ===================================================================== *)

Lemma run_subprocess_timeout_witness :
  fst (_run_subprocess stuck_host [py "python"; py "/tmp/tmpab12/main.py"]
         [py "tmp"; py "tmpab12"] 10%Z None boot)
  = Ok (py "", py "Execution timed out")
  /\ fst (run_python tmp_host write_host rmtree_host stuck_host
            {| py_code := py "import time; time.sleep(60)";
               py_stdin := None; py_timeout := Some 2%Z |} boot)
     = Ok (response (py "") (py "Execution timed out")).
Proof.
  destruct (run_subprocess_timeout tmp_host write_host rmtree_host stuck_host)
    as [H1 H2].
  split.
  - eapply H1. reflexivity.
  - eapply H2; [reflexivity | discriminate | reflexivity].
Defined.

Lemma python_rerun_on_not_found_witness :
  fst (run_python tmp_host write_host rmtree_host chatty_host
         {| py_code := py "import sys; sys.stderr.write('Record NOT FOUND in table')";
            py_stdin := None; py_timeout := None |} boot)
  = Ok (response (py "ok") (py ""))
  /\ spawned (snd (run_code tmp_host write_host rmtree_host chatty_host
                     {| language := py "Python"; code := py "pass" |} boot))
     = [[py "python"; py "/tmp/tmpab12/main.py"];
        [py "python3"; py "/tmp/tmpab12/main.py"]].
Proof.
  destruct (python_rerun_on_not_found tmp_host write_host rmtree_host
              chatty_host) as [H1 H2].
  assert (E1 : utf8_encode
                 (py "import sys; sys.stderr.write('Record NOT FOUND in table')")
               <> None) by discriminate.
  assert (E2 : utf8_encode (py "pass") <> None) by discriminate.
  assert (Hnf : contains (py "not found")
                  (lower (py "Record NOT FOUND in table")) = true)
    by (vm_compute; reflexivity).
  split.
  - exact (proj1 (H1 {| py_code := py "import sys; sys.stderr.write('Record NOT FOUND in table')";
                        py_stdin := None; py_timeout := None |}
                     boot [py "tmp"; py "tmpab12"] tt
                     (py "") (py "Record NOT FOUND in table")
                     {| world := tt;
                        spawned := [[py "python"; py "/tmp/tmpab12/main.py"]] |}
                     eq_refl E1 eq_refl Hnf)).
  - assert (Hl : str_in (strip (lower (py "Python"))) [py "python"; py "py"]
                 = true) by (vm_compute; reflexivity).
    exact (proj2 (H2 {| language := py "Python"; code := py "pass" |}
                     boot [py "tmp"; py "tmpab12"] tt
                     (py "") (py "Record NOT FOUND in table")
                     {| world := tt;
                        spawned := [[py "python"; py "/tmp/tmpab12/main.py"]] |}
                     Hl eq_refl E2 eq_refl Hnf)).
Defined.

Lemma compile_stage_first_witness :
  compile_gate write_host warning_host
    {| language := py "C++"; code := py "int main() { int x; }" |}
    boot [py "tmp"; py "tmpab12"] tt
    (py "main.cpp")
    [py "g++"; py "/tmp/tmpab12/main.cpp"; py "-O2"; py "-std=c++17";
     py "-o"; py "main"]
    [py "/tmp/tmpab12/main"]
    (run_code tmp_host write_host rmtree_host warning_host
       {| language := py "C++"; code := py "int main() { int x; }" |} boot).
Proof.
  apply (@compile_stage_first unit tmp_host write_host rmtree_host warning_host
           {| language := py "C++"; code := py "int main() { int x; }" |}
           boot [py "tmp"; py "tmpab12"] tt eq_refl).
  right. vm_compute. reflexivity.
Defined.

(** On that host the compiler's warning is the whole answer, and the
    compiler is the only command spawned. *)
Lemma warning_stops_pipeline :
  fst (run_code tmp_host write_host rmtree_host warning_host
         {| language := py "C++"; code := py "int main() { int x; }" |} boot)
  = Ok (response (py "") (py "warning: unused variable"))
  /\ spawned (snd (run_code tmp_host write_host rmtree_host warning_host
                     {| language := py "C++";
                        code := py "int main() { int x; }" |} boot))
     = [[py "g++"; py "/tmp/tmpab12/main.cpp"; py "-O2"; py "-std=c++17";
         py "-o"; py "main"]].
Proof. split; vm_compute; reflexivity. Qed.

(** C4, as first stated, fails on a source that cannot be written: a
    lone surrogate in a C program makes [write_text] raise, and no
    compile stage runs. *)
Lemma unwritable_source_not_compiled :
  run_code tmp_host write_host rmtree_host quiet_host
    {| language := py "c"; code := [0xD800] |} boot
  = (Raise (Uncaught UnicodeEncodeError), boot).
Proof. vm_compute. reflexivity. Qed.

Lemma language_dispatch_witness :
  dispatched (py "js") (py "console.log(1)") [py "tmp"; py "tmpab12"] boot
    (run_code tmp_host write_host rmtree_host quiet_host
       {| language := py " JS "; code := py "console.log(1)" |} boot)
  /\ fst (run_code tmp_host write_host rmtree_host quiet_host
            {| language := py "ruby"; code := py "puts 1" |} boot)
     = Raise unsupported_language.
Proof.
  split.
  - apply (language_dispatch tmp_host write_host rmtree_host quiet_host
             {| language := py " JS "; code := py "console.log(1)" |} boot).
    vm_compute. reflexivity.
  - apply (language_dispatch tmp_host write_host rmtree_host quiet_host
             {| language := py "ruby"; code := py "puts 1" |} boot).
    vm_compute. reflexivity.
Defined.

(** C5, as first stated, fails: an identifier with blanks around it is
    none of the nine names in any letter case, and yet it is not refused:
    the python pipeline runs. *)
Lemma language_with_blanks_accepted :
  str_in (lower (py " python ")) known_languages = false
  /\ fst (run_code tmp_host write_host rmtree_host quiet_host
            {| language := py " python "; code := py "print(1)" |} boot)
     <> Raise unsupported_language
  /\ spawned (snd (run_code tmp_host write_host rmtree_host quiet_host
                     {| language := py " python "; code := py "print(1)" |}
                     boot))
     = [[py "python"; py "/tmp/tmpab12/main.py"]].
Proof.
  split; [vm_compute; reflexivity|]. split; [|vm_compute; reflexivity].
  vm_compute. discriminate.
Qed.

Lemma teardown_on_exit_witness :
  let s :=
    {| state := Running;
       proc := Some {| returncode := None; kill_sent := false |};
       scratch := ScratchExists; source := Some (py "input()");
       stdout_task := Some TaskPending; stderr_task := Some TaskPending;
       stdin_log := []; sent := [] |} in
  exists s',
    step no_json s Disconnect = Some s'
    /\ state s' = Terminated None
    /\ scratch s' = ScratchDeleted
    /\ (exists p', proc s' = Some p' /\ kill_sent p' = true)
    /\ stdout_task s' = Some TaskPending
    /\ stderr_task s' = Some TaskPending.
Proof.
  intros s.
  destruct (@teardown_on_exit no_json [Receive (py "input()") (Done tt)] s
              eq_refl) as [_ H].
  destruct (H eq_refl) as ((s' & Hstep & Hst) & _ & Hdown).
  destruct (Hdown Disconnect s' None Hstep Hst)
    as (Hsc & (p & p' & Hp & Hp' & Hkill & _) & Ho & He).
  exists s'. split; [exact Hstep|]. split; [exact Hst|].
  split; [exact Hsc|]. split; [|split; assumption].
  exists p'. split; [exact Hp'|]. apply Hkill.
  injection Hp as <-. reflexivity.
Defined.

(** C6, as first stated, fails on the pump tasks: after a disconnect the
    handler has ended, the scratch directory is gone and the subprocess
    has been sent a kill, but both pump tasks are still pending: nothing
    cancelled them and nothing waited for them. *)
Lemma pumps_pending_after_disconnect :
  option_map
    (fun s => (state s, scratch s, proc s, stdout_task s, stderr_task s))
    (ws_python no_json
       [Receive (py "while True: print(input())") (Done tt); Disconnect])
  = Some (Terminated None, ScratchDeleted,
          Some {| returncode := None; kill_sent := true |},
          Some TaskPending, Some TaskPending)
  /\ ~ task_over (Some TaskPending).
Proof.
  split; [reflexivity|]. simpl. tauto.
Qed.

Lemma session_streams_witness :
  stdin_log_of_echo = [StdinWrite (py "hello" ++ [10]); StdinDrain].
Proof.
  destruct (@session_streams no_json echo_schedule _ eq_refl) as [H _].
  exact H.
Defined.

(* ===================================================================== *)
(** ** The workspace endpoints: properties *)
(* ===================================================================== *)

Lemma assoc_put_same (k : str) (v : node) (es : list (str * node)) :
  assoc k (put k v es) = Some v.
Proof.
  induction es as [|[k' v'] es IH]; simpl.
  - rewrite str_eqb_refl. reflexivity.
  - destruct (str_eqb k k') eqn:E; simpl.
    + rewrite str_eqb_refl. reflexivity.
    + rewrite E. exact IH.
Qed.

(** A stored file is found where it was stored. *)
Lemma store_lookup (p : PosixPath) :
  forall (n n' : node) (data : bytes),
    store n p data = Done n' -> lookup n' p = Some (File data).
Proof.
  induction p as [|c r IH]; intros n n' data H; simpl in H.
  - destruct n; [|discriminate]. injection H as <-. reflexivity.
  - destruct n as [|es]; [discriminate|].
    destruct (assoc c es) as [ch|] eqn:Ha.
    + destruct (store ch r data) as [ch'|] eqn:Hs; [|discriminate].
      injection H as <-. simpl. rewrite assoc_put_same.
      apply (IH ch ch' data Hs).
    + destruct r; [|discriminate]. injection H as <-.
      simpl. rewrite assoc_put_same. reflexivity.
Qed.

(** Above a node that exists there are only directories. *)
Lemma lookup_prefix_dir (q : PosixPath) :
  forall (n x : node) (c : str) (r : PosixPath),
    lookup n (q ++ c :: r) = Some x -> exists es, lookup n q = Some (Dir es).
Proof.
  induction q as [|d q IH]; intros n x c r H; simpl in *.
  - destruct n as [|es]; [discriminate|]. exists es. reflexivity.
  - destruct n as [|es]; [discriminate|].
    destruct (assoc d es) as [ch|]; [|discriminate].
    apply (IH ch x c r H).
Qed.

(** The kernel's walk leaves a path without [..] as it is, and has
    met no name that is too long. *)
Lemma walk_plain (fs : node) (todo : list str) :
  forall cur q, plain todo -> walk fs cur todo = Done q -> q = cur ++ todo.
Proof.
  induction todo as [|c r IH]; intros cur q Hp H; simpl in H.
  - injection H as <-. rewrite app_nil_r. reflexivity.
  - inversion Hp as [|? ? Hc Hr]; subst.
    destruct (lookup fs cur) as [[|es]|]; try discriminate.
    apply str_eqb_neq in Hc. rewrite Hc in H.
    destruct (NAME_MAX <? fs_length c); [discriminate|].
    rewrite (IH (cur ++ [c]) q Hr H), <- app_assoc. reflexivity.
Qed.

Lemma walk_short (fs : node) (todo : list str) :
  forall cur q, plain todo -> walk fs cur todo = Done q ->
                Forall (fun c => (NAME_MAX <? fs_length c) = false) todo.
Proof.
  induction todo as [|c r IH]; intros cur q Hp H; simpl in H; [constructor|].
  inversion Hp as [|? ? Hc Hr]; subst.
  destruct (lookup fs cur) as [[|es]|]; try discriminate.
  apply str_eqb_neq in Hc. rewrite Hc in H.
  destruct (NAME_MAX <? fs_length c) eqn:E; [discriminate|].
  constructor; [exact E | apply (IH (cur ++ [c]) q Hr H)].
Qed.

Lemma walk_found (fs : node) (todo : list str) :
  forall cur x, plain todo ->
                Forall (fun c => (NAME_MAX <? fs_length c) = false) todo ->
                lookup fs (cur ++ todo) = Some x ->
                walk fs cur todo = Done (cur ++ todo).
Proof.
  induction todo as [|c r IH]; intros cur x Hp Hs H; simpl.
  - rewrite app_nil_r. reflexivity.
  - inversion Hp as [|? ? Hc Hr]; subst.
    inversion Hs as [|? ? Hsc Hsr]; subst.
    destruct (@lookup_prefix_dir cur fs x c r H) as [es Hes]. rewrite Hes.
    apply str_eqb_neq in Hc. rewrite Hc, Hsc.
    replace (cur ++ c :: r) with ((cur ++ [c]) ++ r) in *
      by (rewrite <- app_assoc; reflexivity).
    apply (IH (cur ++ [c]) x Hr Hsr H).
Qed.

(** A write that succeeded was at a path within the limits. *)
Lemma write_bytes_done (fs fs' : node) (p : PosixPath) (data : bytes) :
  plain p -> write_bytes fs p data = Done fs' ->
  within_limits p /\ store fs p data = Done fs'.
Proof.
  intros Hp H. unfold write_bytes in H.
  destruct (getname p) eqn:Hg; [discriminate|].
  destruct (walk fs [] p) as [q|e] eqn:Hw; [|discriminate].
  pose proof (@walk_short fs p [] q Hp Hw) as Hs.
  apply (@walk_plain fs p [] q Hp) in Hw. simpl in Hw. subst q.
  split; [split; assumption | exact H].
Qed.

(** Within the limits, [stat] finds what is at a path without [..]. *)
Lemma os_stat_found (fs : node) (p : PosixPath) (x : node) :
  plain p -> within_limits p -> lookup fs p = Some x ->
  os_stat fs p = Done x.
Proof.
  intros Hp [Hg Hs] H. unfold os_stat. rewrite Hg.
  rewrite (@walk_found fs p [] x Hp Hs H). simpl. rewrite H. reflexivity.
Qed.

Lemma plain_removelast (p : list str) : plain p -> plain (removelast p).
Proof.
  unfold plain. induction p as [|c p IH]; intros H; [constructor|].
  inversion H; subst. simpl. destruct p; [constructor|].
  constructor; [assumption | apply IH; assumption].
Qed.

(** The lexical normal form holds no [..]. *)
Lemma normalize_plain (todo : list str) :
  forall done, plain done -> plain (normalize done todo).
Proof.
  induction todo as [|c r IH]; intros done Hd; simpl; [exact Hd|].
  destruct (str_eqb c (py "..")) eqn:E.
  - apply IH. apply plain_removelast. exact Hd.
  - apply IH. unfold plain in *. apply Forall_app. split; [exact Hd|].
    constructor; [|constructor]. apply str_eqb_neq. exact E.
Qed.

(** On the link-free tree the guard does not look at the tree. *)
Lemma safe_workspace_path_pure (base : PosixPath) (p : str) (fs : node) :
  safe_workspace_path resolve base p fs
  = (fst (safe_workspace_path resolve base p (Dir [])), fs).
Proof.
  unfold safe_workspace_path, resolve.
  destruct (first_name_error _); [reflexivity|].
  destruct (negb _ && negb _); reflexivity.
Qed.

Lemma safe_workspace_path_plain (base : PosixPath) (p : str) (fs : node)
  (path : PosixPath) :
  fst (safe_workspace_path resolve base p fs) = Ok path -> plain path.
Proof.
  unfold safe_workspace_path, resolve.
  destruct (first_name_error _); [discriminate|].
  destruct (negb _ && negb _); simpl; [discriminate|].
  intros E. replace path with (normalize [] (joinpath (WORKSPACE_DIR base) p))
    by congruence.
  apply normalize_plain. constructor.
Qed.

Section WorkspaceProperties.

Variable BASE_DIR : PosixPath.

(** C8 (as amended).  For a path the guard accepts and a text without
    carriage returns: if saving succeeds, opening the same path
    afterwards returns the path and exactly the text saved. *)
Theorem save_open_roundtrip (p c : str) (fs fs' : node) (r : json) :
  ~ In 13 c ->
  save_file BASE_DIR {| save_path := p; save_content := c |} fs = (Ok r, fs') ->
  fst (open_file BASE_DIR {| open_path := p |} fs')
  = Ok (JObj [(py "path", JStr p); (py "content", JStr c)]).
Proof.
  intros Hcr Hsave. unfold save_file, open_file in *. cbn [save_path save_content open_path] in *.
  rewrite safe_workspace_path_pure in Hsave.
  rewrite safe_workspace_path_pure.
  destruct (fst (safe_workspace_path resolve BASE_DIR p (Dir [])))
    as [path|e] eqn:Hguard; [|discriminate].
  pose proof (@safe_workspace_path_plain _ _ _ _ Hguard) as Hplain.
  destruct (mkdir_p fs (parent path)) as [[u|e] fs2]; [|discriminate].
  unfold write_text in Hsave.
  destruct (utf8_encode c) as [b|] eqn:Henc.
  2:{ destruct (write_bytes fs2 path []); discriminate. }
  destruct (write_bytes fs2 path b) as [fs3|e] eqn:Hw; [|discriminate].
  injection Hsave as _ <-.
  destruct (@write_bytes_done fs2 fs3 path b Hplain Hw) as [Hlim Hst].
  pose proof (@store_lookup path fs2 fs3 b Hst) as Hfile.
  pose proof (@os_stat_found fs3 path (File b) Hplain Hlim Hfile) as Hstat.
  unfold path_exists, path_is_file, read_text. rewrite Hstat. simpl.
  rewrite (@utf8_decode_encode c b Henc). simpl.
  rewrite (@universal_newlines_id c Hcr). reflexivity.
Qed.

End WorkspaceProperties.

Lemma save_open_roundtrip_witness :
  fst (open_file srv_backend {| open_path := py "notes/todo.txt" |}
         (snd (save_file srv_backend
                 {| save_path := py "notes/todo.txt";
                    save_content := py "buy milk" ++ [10] |} srv_fs)))
  = Ok (JObj [(py "path", JStr (py "notes/todo.txt"));
              (py "content", JStr (py "buy milk" ++ [10]))]).
Proof.
  apply (@save_open_roundtrip srv_backend (py "notes/todo.txt")
           (py "buy milk" ++ [10]) srv_fs _ (JObj [(py "ok", JBool true)])).
  - vm_compute. intuition discriminate.
  - reflexivity.
Defined.

(** C8, as first stated, fails twice.  A text with a carriage return is
    saved, and read back with the carriage return gone; and the root of
    the workspace is a path the guard accepts at which nothing can be
    saved. *)
Lemma save_open_not_identity :
  (fst (save_file srv_backend
          {| save_path := py "a"; save_content := [97; 13; 10; 98] |} srv_fs)
   = Ok (JObj [(py "ok", JBool true)])
   /\ fst (open_file srv_backend {| open_path := py "a" |}
             (snd (save_file srv_backend
                     {| save_path := py "a";
                        save_content := [97; 13; 10; 98] |} srv_fs)))
      = Ok (JObj [(py "path", JStr (py "a"));
                  (py "content", JStr [97; 10; 98])]))
  /\ (fst (safe_workspace_path resolve srv_backend (py "") srv_fs)
      = Ok (WORKSPACE_DIR srv_backend)
      /\ fst (save_file srv_backend
                {| save_path := py ""; save_content := py "text" |} srv_fs)
         = Raise (HTTPException 500 (StrOf IsADirectoryError))
      /\ fst (open_file srv_backend {| open_path := py "" |}
                (snd (save_file srv_backend
                        {| save_path := py ""; save_content := py "text" |}
                        srv_fs)))
         = Raise (HTTPException 404 (Msg (py "File not found")))).
Proof. repeat split. Qed.

(** C2: the code at the failing input.  The destination is the
    workspace root, which the guard accepts; the file name climbs out of
    it.  The upload succeeds and the file is stored next to the
    workspace, outside it; the same string given as a path to the guard
    is refused. *)
Lemma upload_escapes_workspace :
  fst (upload_files srv_backend
         [{| filename := py "../evil.txt"; file := py "x" |}] (py "") srv_fs)
  = Ok (JObj [(py "stored", JArr [JStr (py "../evil.txt")])])
  /\ lookup (snd (upload_files srv_backend
                    [{| filename := py "../evil.txt"; file := py "x" |}]
                    (py "") srv_fs))
            [py "srv"; py "backend"; py "evil.txt"]
     = Some (File (py "x"))
  /\ lookup srv_fs [py "srv"; py "backend"; py "evil.txt"] = None
  /\ ~ within (WORKSPACE_DIR srv_backend)
              [py "srv"; py "backend"; py "evil.txt"]
  /\ fst (safe_workspace_path resolve srv_backend (py "../evil.txt") srv_fs)
     = Raise (HTTPException 400 (Msg (py "Invalid path"))).
Proof.
  split; [reflexivity|]. split; [reflexivity|]. split; [reflexivity|].
  split; [|reflexivity].
  intros [E | [rest [_ E]]]; vm_compute in E; discriminate.
Qed.

(* ===================================================================== *)
(** ** The order of a listing *)
(* ===================================================================== *)

Lemma str_ltb_irrefl (a : str) : str_ltb a a = false.
Proof.
  induction a as [|x a IH]; simpl; [reflexivity|].
  rewrite N.ltb_irrefl, N.eqb_refl, IH. reflexivity.
Qed.

Lemma str_ltb_trans (a : str) :
  forall b c, str_ltb a b = true -> str_ltb b c = true -> str_ltb a c = true.
Proof.
  induction a as [|x a IH]; intros [|y b] [|z c]; simpl;
    try discriminate; try reflexivity.
  intros H1 H2.
  apply orb_true_iff in H1. apply orb_true_iff in H2. apply orb_true_iff.
  destruct H1 as [H1 | H1]; destruct H2 as [H2 | H2].
  - left. apply N.ltb_lt in H1, H2. apply N.ltb_lt. lia.
  - apply andb_true_iff in H2. destruct H2 as [E _].
    apply N.eqb_eq in E. subst z. left. exact H1.
  - apply andb_true_iff in H1. destruct H1 as [E _].
    apply N.eqb_eq in E. subst y. left. exact H2.
  - apply andb_true_iff in H1, H2. destruct H1 as [E1 H1], H2 as [E2 H2].
    apply N.eqb_eq in E1, E2. subst y z. right.
    rewrite N.eqb_refl. simpl. apply (IH b c H1 H2).
Qed.

Lemma str_ltb_total (a : str) :
  forall b, str_ltb a b = false -> a = b \/ str_ltb b a = true.
Proof.
  induction a as [|x a IH]; intros [|y b]; simpl; intros H.
  - left. reflexivity.
  - discriminate.
  - right. reflexivity.
  - apply orb_false_iff in H. destruct H as [H1 H2].
    apply N.ltb_ge in H1.
    destruct (N.eqb_spec x y) as [E | E].
    + subst y. simpl in H2. destruct (IH b H2) as [-> | Hlt].
      * left. reflexivity.
      * right. rewrite N.eqb_refl, Hlt. apply orb_true_r.
    + right. apply orb_true_iff. left. apply N.ltb_lt. lia.
Qed.

Lemma key_ltb_irrefl (k : bool * str) : key_ltb k k = false.
Proof.
  destruct k as [[|] s]; unfold key_ltb; simpl; rewrite str_ltb_irrefl;
    reflexivity.
Qed.

Lemma key_ltb_trans (a b c : bool * str) :
  key_ltb a b = true -> key_ltb b c = true -> key_ltb a c = true.
Proof.
  destruct a as [[|] a], b as [[|] b], c as [[|] c]; unfold key_ltb; simpl;
    try discriminate; try reflexivity; apply str_ltb_trans.
Qed.

Lemma key_ltb_total (a b : bool * str) :
  key_ltb a b = false -> a = b \/ key_ltb b a = true.
Proof.
  destruct a as [[|] a], b as [[|] b]; unfold key_ltb; simpl;
    try discriminate; try (right; reflexivity); intros H;
    destruct (str_ltb_total _ _ H) as [-> | Hlt]; auto.
Qed.

Lemma key_le_trans (a b c : bool * str) :
  key_le a b -> key_le b c -> key_le a c.
Proof.
  unfold key_le. intros Hab Hbc.
  destruct (key_ltb c a) eqn:Hca; [|reflexivity].
  destruct (key_ltb_total _ _ Hbc) as [<- | Hlt].
  - congruence.
  - rewrite (key_ltb_trans _ _ _ Hlt Hca) in Hab. discriminate.
Qed.

Lemma key_ltb_le (a b : bool * str) : key_ltb a b = true -> key_le a b.
Proof.
  unfold key_le. intros H. destruct (key_ltb b a) eqn:E; [|reflexivity].
  rewrite <- (key_ltb_irrefl a). symmetry.
  apply (key_ltb_trans _ _ _ H E).
Qed.

Section SortedProperties.

Variable A : Type.
Variable key : A -> bool * str.

Local Abbreviation le := (fun a b => key_le (key a) (key b)).

Lemma insert_sorted_perm (x : A) (l : list A) :
  Permutation (insert_sorted key x l) (x :: l).
Proof.
  induction l as [|y l IH]; simpl; [apply Permutation_refl|].
  destruct (key_ltb (key y) (key x)); [|apply Permutation_refl].
  eapply Permutation_trans; [apply perm_skip; exact IH | apply perm_swap].
Qed.

Lemma sorted_perm (l : list A) : Permutation (sorted key l) l.
Proof.
  induction l as [|x l IH]; simpl; [constructor|].
  eapply Permutation_trans; [apply insert_sorted_perm|].
  apply perm_skip. exact IH.
Qed.

Lemma insert_sorted_ordered (x : A) (l : list A) :
  StronglySorted le l -> StronglySorted le (insert_sorted key x l).
Proof.
  induction l as [|y l IH]; intros Hs; simpl.
  - constructor; constructor.
  - inversion Hs as [|? ? Hl Hy]; subst.
    destruct (key_ltb (key y) (key x)) eqn:E.
    + constructor; [apply IH; exact Hl|].
      apply (Permutation_Forall (Permutation_sym (insert_sorted_perm x l))).
      constructor; [apply key_ltb_le; exact E | exact Hy].
    + constructor; [exact Hs|]. constructor; [exact E|].
      apply (Forall_impl _ (P := fun b => key_le (key y) (key b)));
        [|exact Hy].
      intros b Hb. apply (@key_le_trans (key x) (key y) (key b) E Hb).
Qed.

(** [sorted] yields its argument rearranged in key order. *)
Lemma sorted_ordered (l : list A) : StronglySorted le (sorted key l).
Proof.
  induction l as [|x l IH]; simpl; [constructor|].
  apply insert_sorted_ordered. exact IH.
Qed.

End SortedProperties.

(* ===================================================================== *)
(** ** The workspace tree *)
(* ===================================================================== *)

Lemma relative_to_app (ws l : PosixPath) : relative_to (ws ++ l) ws = Some l.
Proof.
  induction ws as [|c ws IH]; simpl.
  - destruct l; reflexivity.
  - rewrite str_eqb_refl. exact IH.
Qed.

Lemma entries_size_sorted (es : list (str * node)) :
  entries_size (sorted child_key es) = entries_size es.
Proof.
  assert (Hins : forall x l,
             entries_size (insert_sorted child_key x l)
             = (node_size (snd x) + entries_size l)%nat).
  { intros x l. induction l as [|y l IH]; simpl; [reflexivity|].
    destruct (key_ltb (child_key y) (child_key x)); simpl; [|reflexivity].
    unfold entries_size in *. simpl. rewrite IH. lia. }
  induction es as [|x es IH]; simpl; [reflexivity|].
  rewrite Hins, IH. reflexivity.
Qed.

Lemma in_key_order_files_last (l : list (str * node)) :
  in_key_order l -> files_last l.
Proof.
  unfold in_key_order, files_last. intros Hs l1 a l2 -> Ha.
  induction l1 as [|b l1 IH]; simpl in Hs.
  - inversion Hs as [|? ? _ Hall]; subst.
    apply (Forall_impl _ (P := fun b => key_le (child_key a) (child_key b)));
      [|exact Hall].
    intros [nm n] H. unfold key_le, key_ltb, child_key in H. simpl in *.
    rewrite Ha in H. destruct (is_file n); [reflexivity|].
    simpl in H. discriminate.
  - apply IH. inversion Hs; assumption.
Qed.

Section TreeProperties.

Variable BASE_DIR : PosixPath.

Local Abbreviation WS := (WORKSPACE_DIR BASE_DIR).

Lemma relative_str_child (rel : list str) (nm : str) :
  relative_str BASE_DIR ((WS ++ rel) ++ [nm]) = Ok (join_slash (rel ++ [nm])).
Proof.
  unfold relative_str. rewrite <- app_assoc, relative_to_app.
  destruct rel; reflexivity.
Qed.

Lemma list_directory_rec_ok (n : nat) :
  forall c, (call_size c < n)%nat ->
            listing_ok WS c (list_directory_rec BASE_DIR c).
Proof.
  induction n as [|n IH]; intros c Hn; [lia|].
  destruct c as [path es | path todo].
  - (* a call on a directory *)
    intros rel ->. rewrite list_directory_rec_equation_1.
    destruct (IH (Loop (WS ++ rel) (sorted child_key es))) with (rel := rel)
      as (children & E & Hall); [|reflexivity|].
    { simpl in *. rewrite entries_size_sorted. lia. }
    rewrite E. exists (sorted child_key es), children.
    split; [reflexivity|]. split; [apply sorted_perm|].
    split; [apply sorted_ordered | exact Hall].
  - (* the loop over the sorted children *)
    intros rel ->. destruct todo as [|[nm [data|ces]] r].
    + rewrite list_directory_rec_equation_2. exists []. split; constructor.
    + rewrite list_directory_rec_equation_3. rewrite relative_str_child.
      destruct (IH (Loop (WS ++ rel) r)) with (rel := rel)
        as (rest & E & Hall); [|reflexivity|].
      { unfold call_size, entries_size in *. simpl in *. lia. }
      rewrite E. eexists. split; [reflexivity|].
      constructor; [constructor | exact Hall].
    + rewrite list_directory_rec_equation_4. rewrite relative_str_child.
      destruct (IH (ListDirectory ((WS ++ rel) ++ [nm]) ces))
        with (rel := rel ++ [nm])
        as (order & sub & E1 & Hperm & Hord & Hsub);
        [|rewrite app_assoc; reflexivity|].
      { unfold call_size, entries_size in *. simpl in *. lia. }
      rewrite E1.
      destruct (IH (Loop (WS ++ rel) r)) with (rel := rel)
        as (rest & E & Hall); [|reflexivity|].
      { unfold call_size, entries_size in *. simpl in *. lia. }
      rewrite E. eexists. split; [reflexivity|].
      constructor; [|exact Hall].
      apply (folder_listed rel nm Hperm Hord Hsub).
Qed.

(** C7 (as amended).  On a tree of regular files and directories (no
    symbolic links, no special files), when the workspace root is a
    directory, [GET /files] answers the root folder entry whose children
    list a rearrangement of what the directory holds, in the order of
    the key (is-file flag, lower-cased name): files come last, all
    folders before all files, rather than interleaved.  Every child is
    listed with its type, its name and its path below the root; a
    folder, and only a folder, also carries its children, listed in the
    same way. *)
Theorem workspace_tree_listing (fs : node) (es : list (str * node)) :
  stat fs WS = Some (Dir es) ->
  exists order children,
    fst (get_files BASE_DIR fs)
    = Ok (JObj [(py "type", JStr (py "folder"));
                (py "name", JStr (py "workspace"));
                (py "path", JStr (py ""));
                (py "children", JArr children)])
    /\ Permutation order es
    /\ in_key_order order
    /\ files_last order
    /\ Forall2 (entry_listed []) order children.
Proof.
  intros Hstat. unfold get_files, list_directory.
  unfold stat in Hstat. destruct (os_stat fs WS) as [n|e]; [|discriminate].
  injection Hstat as ->.
  destruct (@list_directory_rec_ok (S (call_size (ListDirectory WS es)))
              (ListDirectory WS es) (Nat.lt_succ_diag_r _) [])
    as (order & children & E & Hperm & Hord & Hall).
  { rewrite app_nil_r. reflexivity. }
  exists order, children. simpl fst. rewrite E.
  repeat split; try assumption.
  apply in_key_order_files_last. exact Hord.
Qed.

End TreeProperties.

Lemma workspace_tree_listing_witness :
  exists order children,
    fst (get_files srv_backend srv_fs)
    = Ok (JObj [(py "type", JStr (py "folder"));
                (py "name", JStr (py "workspace"));
                (py "path", JStr (py ""));
                (py "children", JArr children)])
    /\ Permutation order
         [(py "b", Dir [(py "x", File [])]); (py "c", File (py "hi"));
          (py "a", File [])]
    /\ in_key_order order
    /\ files_last order
    /\ Forall2 (entry_listed []) order children.
Proof.
  apply (@workspace_tree_listing srv_backend srv_fs). reflexivity.
Defined.

(** C7, as first stated, fails on the interleaving.  In the small
    installation the folder [b] is listed before the files [a] and [c],
    although [a] comes before [b] by name: folders and files are
    grouped. *)
Lemma listing_groups_folders_first :
  fst (get_files srv_backend srv_fs)
  = Ok (JObj
          [(py "type", JStr (py "folder"));
           (py "name", JStr (py "workspace"));
           (py "path", JStr (py ""));
           (py "children",
            JArr
              [JObj [(py "type", JStr (py "folder"));
                     (py "name", JStr (py "b"));
                     (py "path", JStr (py "b"));
                     (py "children",
                      JArr [JObj [(py "type", JStr (py "file"));
                                  (py "name", JStr (py "x"));
                                  (py "path", JStr (py "b/x"))]])];
               JObj [(py "type", JStr (py "file"));
                     (py "name", JStr (py "a"));
                     (py "path", JStr (py "a"))];
               JObj [(py "type", JStr (py "file"));
                     (py "name", JStr (py "c"));
                     (py "path", JStr (py "c"))]])])
  /\ str_ltb (lower (py "a")) (lower (py "b")) = true.
Proof. split; reflexivity. Qed.

(* ===================================================================== *)
(** ** Further properties of the path guard *)
(* ===================================================================== *)

Unset Implicit Arguments.

Lemma workspace_dir_eq (base : PosixPath) :
  WORKSPACE_DIR base = base ++ [py "workspace"].
Proof. reflexivity. Qed.

Lemma normalize_plain_app (todo : list str) :
  forall done, plain todo -> normalize done todo = done ++ todo.
Proof.
  induction todo as [|c r IH]; intros done Hp; simpl.
  - rewrite app_nil_r. reflexivity.
  - inversion Hp as [|? ? Hc Hr]; subst.
    apply str_eqb_neq in Hc. rewrite Hc.
    rewrite (IH _ Hr), <- app_assoc. reflexivity.
Qed.

Lemma plain_app (a b : list str) : plain a -> plain b -> plain (a ++ b).
Proof. unfold plain. intros. apply Forall_app. split; assumption. Qed.

(** The guard on the tree file system, by the normal form of the joined
    path. *)
Lemma guard_unconvertible (base : PosixPath) (p : str) (fs : node)
  (e : pyexc) :
  first_name_error (joinpath (WORKSPACE_DIR base) p) = Some e ->
  safe_workspace_path resolve base p fs = (Raise (Uncaught e), fs).
Proof.
  intros H. unfold safe_workspace_path, resolve. rewrite H. reflexivity.
Qed.

Lemma guard_accepts_normal (base : PosixPath) (p : str) (fs : node)
  (rel : list str) :
  first_name_error (joinpath (WORKSPACE_DIR base) p) = None ->
  normalize [] (joinpath (WORKSPACE_DIR base) p) = WORKSPACE_DIR base ++ rel ->
  safe_workspace_path resolve base p fs = (Ok (WORKSPACE_DIR base ++ rel), fs).
Proof.
  intros He Ht. unfold safe_workspace_path, resolve. rewrite He, Ht.
  destruct (path_eqb (WORKSPACE_DIR base ++ rel) (WORKSPACE_DIR base)) eqn:Heq;
    [rewrite andb_false_r; reflexivity|].
  destruct (path_in (WORKSPACE_DIR base)
              (parents (WORKSPACE_DIR base ++ rel))) eqn:Hin; [reflexivity|].
  exfalso. destruct rel as [|c r].
  - rewrite app_nil_r in Heq.
    assert (path_eqb (WORKSPACE_DIR base) (WORKSPACE_DIR base) = true)
      by (apply path_eqb_eq; reflexivity).
    congruence.
  - assert (path_in (WORKSPACE_DIR base)
              (parents (WORKSPACE_DIR base ++ c :: r)) = true).
    { apply parents_spec. exists (c :: r).
      split; [discriminate | reflexivity]. }
    congruence.
Qed.

Lemma guard_refuses_normal (base : PosixPath) (p : str) (fs : node) :
  first_name_error (joinpath (WORKSPACE_DIR base) p) = None ->
  ~ is_prefix (WORKSPACE_DIR base)
      (normalize [] (joinpath (WORKSPACE_DIR base) p)) ->
  safe_workspace_path resolve base p fs
  = (Raise (HTTPException 400 (Msg (py "Invalid path"))), fs).
Proof.
  intros He Hn. unfold safe_workspace_path, resolve. rewrite He.
  destruct (path_in _ _) eqn:Hin.
  - apply parents_spec in Hin. destruct Hin as [r [_ E]].
    exfalso. apply Hn. exists r. exact E.
  - destruct (path_eqb _ _) eqn:Heq; [|reflexivity].
    apply path_eqb_eq in Heq. exfalso. apply Hn. exists [].
    rewrite app_nil_r. exact Heq.
Qed.

Lemma guard_target (base : PosixPath) (p : str) (fs : node)
  (path : PosixPath) :
  fst (safe_workspace_path resolve base p fs) = Ok path ->
  first_name_error (joinpath (WORKSPACE_DIR base) p) = None
  /\ path = normalize [] (joinpath (WORKSPACE_DIR base) p).
Proof.
  unfold safe_workspace_path, resolve.
  destruct (first_name_error _); [discriminate|].
  destruct (negb _ && negb _); simpl; [discriminate|].
  intros E. split; [reflexivity | congruence].
Qed.

(** X1.  A relative path without [..] is never answered with HTTP 400.
    When every name of the path can be converted, the guard returns the
    workspace root followed by the components of the path (the root
    itself for the empty path); when one cannot ([ValueError] for an
    embedded NUL, [UnicodeEncodeError] for a surrogate), the exception of
    [resolve()] leaves the guard.  The file system is left alone. *)
Theorem plain_relative_path_accepted (BASE_DIR : PosixPath) (p : str)
  (fs : node) :
  plain BASE_DIR -> is_absolute p = false -> plain (path_parts p) ->
  safe_workspace_path resolve BASE_DIR p fs
  = match first_name_error (WORKSPACE_DIR BASE_DIR ++ path_parts p) with
    | Some e => (Raise (Uncaught e), fs)
    | None => (Ok (WORKSPACE_DIR BASE_DIR ++ path_parts p), fs)
    end.
Proof.
  intros Hb Ha Hp.
  assert (Hws : plain (WORKSPACE_DIR BASE_DIR)).
  { rewrite workspace_dir_eq. apply plain_app; [exact Hb|].
    constructor; [discriminate | constructor]. }
  assert (Hj : joinpath (WORKSPACE_DIR BASE_DIR) p
               = WORKSPACE_DIR BASE_DIR ++ path_parts p).
  { unfold joinpath at 1. rewrite Ha. reflexivity. }
  destruct (first_name_error (WORKSPACE_DIR BASE_DIR ++ path_parts p))
    as [e|] eqn:He.
  - apply guard_unconvertible. rewrite Hj. exact He.
  - apply guard_accepts_normal; rewrite Hj; [exact He|].
    apply (normalize_plain_app _ [] (plain_app _ _ Hws Hp)).
Qed.

(** X20.  An absolute path replaces the workspace root it is joined
    to, so the guard judges it as it stands.  One without [..] whose
    names can all be converted is accepted, and returned unchanged,
    exactly when its components begin with those of the workspace root,
    and refused with HTTP 400 otherwise; when a name cannot be
    converted, the exception of [resolve()] leaves the guard. *)
Theorem absolute_path_guard (BASE_DIR : PosixPath) (p : str) (fs : node) :
  is_absolute p = true -> plain (path_parts p) ->
  match first_name_error (path_parts p) with
  | Some e =>
      safe_workspace_path resolve BASE_DIR p fs = (Raise (Uncaught e), fs)
  | None =>
      (is_prefix (WORKSPACE_DIR BASE_DIR) (path_parts p) ->
       safe_workspace_path resolve BASE_DIR p fs = (Ok (path_parts p), fs))
      /\ (~ is_prefix (WORKSPACE_DIR BASE_DIR) (path_parts p) ->
          safe_workspace_path resolve BASE_DIR p fs
          = (Raise (HTTPException 400 (Msg (py "Invalid path"))), fs))
  end.
Proof.
  intros Ha Hp.
  assert (Hj : joinpath (WORKSPACE_DIR BASE_DIR) p = path_parts p).
  { unfold joinpath at 1. rewrite Ha. reflexivity. }
  assert (Ht : normalize [] (path_parts p) = path_parts p)
    by apply (normalize_plain_app (path_parts p) [] Hp).
  destruct (first_name_error (path_parts p)) as [e|] eqn:He.
  - apply guard_unconvertible. rewrite Hj. exact He.
  - split.
    + intros [rel E]. rewrite E. apply guard_accepts_normal.
      * rewrite Hj. exact He.
      * rewrite Hj, Ht. exact E.
    + intros Hn. apply guard_refuses_normal.
      * rewrite Hj. exact He.
      * rewrite Hj, Ht. exact Hn.
Qed.

Lemma plain_relative_path_accepted_witness :
  safe_workspace_path resolve srv_backend (py "docs//./readme.md") srv_fs
  = (Ok [py "srv"; py "backend"; py "workspace"; py "docs"; py "readme.md"],
     srv_fs).
Proof.
  apply (@plain_relative_path_accepted srv_backend (py "docs//./readme.md")
           srv_fs).
  - repeat constructor; discriminate.
  - reflexivity.
  - repeat constructor; discriminate.
Defined.

(** With an embedded NUL the same call raises. *)
Lemma nul_in_path_raises :
  safe_workspace_path resolve srv_backend [97; 0; 98] srv_fs
  = (Raise (Uncaught ValueError), srv_fs).
Proof. vm_compute. reflexivity. Qed.

Lemma absolute_path_guard_witness :
  safe_workspace_path resolve srv_backend (py "/etc/passwd") srv_fs
  = (Raise (HTTPException 400 (Msg (py "Invalid path"))), srv_fs)
  /\ safe_workspace_path resolve srv_backend (py "/srv/backend/workspace/c")
       srv_fs
     = (Ok [py "srv"; py "backend"; py "workspace"; py "c"], srv_fs).
Proof.
  assert (H1 : plain (path_parts (py "/etc/passwd"))).
  { apply Forall_forall. intros c Hc. vm_compute in Hc.
    destruct Hc as [<- | [<- | []]]; discriminate. }
  assert (H2 : plain (path_parts (py "/srv/backend/workspace/c"))).
  { apply Forall_forall. intros c Hc. vm_compute in Hc.
    destruct Hc as [<- | [<- | [<- | [<- | []]]]]; discriminate. }
  split.
  - apply (proj2 (absolute_path_guard srv_backend (py "/etc/passwd") srv_fs
                    eq_refl H1)).
    intros [x Hx]. apply (f_equal (@hd_error str)) in Hx. discriminate Hx.
  - apply (proj1 (absolute_path_guard srv_backend
                    (py "/srv/backend/workspace/c") srv_fs eq_refl H2)).
    exists [py "c"]. reflexivity.
Defined.

Section GuardComponents.

Variable FS : Type.
Variable resolve : FS -> PosixPath -> io PosixPath.
Variable BASE_DIR : PosixPath.

(** X2.  Containment is decided on whole components, not on the text of
    the path: a target in a sibling directory whose name merely begins
    with [workspace] (such as [workspace2] or [workspace.bak]) is
    refused with HTTP 400. *)
Theorem sibling_directory_refused (p : str) (fs : FS) (suffix : str)
  (rest : list str) :
  suffix <> [] ->
  resolve fs (joinpath (WORKSPACE_DIR BASE_DIR) p)
  = Done (BASE_DIR ++ (py "workspace" ++ suffix) :: rest) ->
  fst (safe_workspace_path resolve BASE_DIR p fs)
  = Raise (HTTPException 400 (Msg (py "Invalid path"))).
Proof.
  intros Hs Hres. unfold safe_workspace_path. rewrite Hres.
  assert (Hne : forall r, BASE_DIR ++ (py "workspace" ++ suffix) :: rest
                          <> WORKSPACE_DIR BASE_DIR ++ r).
  { intros r E. rewrite workspace_dir_eq, <- app_assoc in E.
    apply app_inv_head in E. simpl in E. injection E as E _.
    apply Hs. destruct suffix; [reflexivity | discriminate]. }
  destruct (path_in _ _) eqn:Hin.
  - apply parents_spec in Hin. destruct Hin as [r [_ E]].
    exfalso. apply (Hne r E).
  - destruct (path_eqb _ _) eqn:Heq; [|reflexivity].
    apply path_eqb_eq in Heq. exfalso. apply (Hne []).
    rewrite app_nil_r. exact Heq.
Qed.

End GuardComponents.

Lemma sibling_directory_refused_witness :
  fst (safe_workspace_path FileSystem.resolve srv_backend
         (py "../workspace2/secret.txt") srv_fs)
  = Raise (HTTPException 400 (Msg (py "Invalid path"))).
Proof.
  apply (@sibling_directory_refused node FileSystem.resolve srv_backend
           (py "../workspace2/secret.txt") srv_fs (py "2")
           [py "secret.txt"]).
  - discriminate.
  - reflexivity.
Defined.

(* ===================================================================== *)
(** ** Further properties of opening and saving *)
(* ===================================================================== *)

(** Within the limits, [stat] finds what is at a path without [..]. *)
Lemma stat_plain (fs : node) (p : PosixPath) :
  plain p -> within_limits p -> stat fs p = lookup fs p.
Proof.
  intros Hp Hlim. unfold stat.
  destruct (lookup fs p) as [x|] eqn:Hl.
  - rewrite (@os_stat_found fs p x Hp Hlim Hl). reflexivity.
  - unfold os_stat. destruct Hlim as [Hg Hs]. rewrite Hg.
    destruct (walk fs [] p) as [q|e] eqn:Hw; [|reflexivity].
    apply (@walk_plain fs p [] q Hp) in Hw. simpl in Hw. subst q.
    rewrite Hl. reflexivity.
Qed.

Lemma write_bytes_plain (fs fs' : node) (p : PosixPath) (data : bytes) :
  plain p -> write_bytes fs p data = Done fs' -> store fs p data = Done fs'.
Proof.
  intros Hp H. apply (@write_bytes_done fs fs' p data Hp H).
Qed.

Lemma safe_workspace_path_within (base : PosixPath) (p : str) (fs : node)
  (path : PosixPath) :
  fst (safe_workspace_path resolve base p fs) = Ok path ->
  within (WORKSPACE_DIR base) path.
Proof.
  unfold safe_workspace_path, resolve.
  destruct (first_name_error _); [discriminate|].
  destruct (path_in _ _) eqn:Hin; simpl.
  - intros [= <-]. right. apply parents_spec. exact Hin.
  - destruct (path_eqb _ _) eqn:Heq; simpl; [|discriminate].
    intros [= <-]. left. apply path_eqb_eq. exact Heq.
Qed.

(** The names of a path that [resolve()] has taken can be converted. *)
Lemma first_name_error_app (a b : PosixPath) :
  first_name_error (a ++ b) = None
  <-> first_name_error a = None /\ first_name_error b = None.
Proof.
  induction a as [|c a IH]; simpl; [tauto|].
  destruct (name_error c); [|exact IH].
  split; [discriminate | intros [H _]; discriminate].
Qed.

Lemma first_name_error_removelast (a : PosixPath) :
  first_name_error a = None -> first_name_error (removelast a) = None.
Proof.
  destruct a as [|c a] using rev_ind; [intros; reflexivity|].
  rewrite removelast_last. intros H.
  apply first_name_error_app in H. apply H.
Qed.

Lemma first_name_error_normalize (todo : list str) :
  forall done, first_name_error done = None ->
               first_name_error todo = None ->
               first_name_error (normalize done todo) = None.
Proof.
  induction todo as [|c r IH]; intros done Hd Ht; simpl; [exact Hd|].
  simpl in Ht. destruct (name_error c) eqn:Hc; [discriminate|].
  destruct (str_eqb c (py "..")).
  - apply IH; [apply first_name_error_removelast; exact Hd | exact Ht].
  - apply IH; [|exact Ht]. apply first_name_error_app.
    split; [exact Hd|]. simpl. rewrite Hc. reflexivity.
Qed.

Lemma first_name_error_none (p : PosixPath) :
  first_name_error p = None ->
  existsb (existsb fs_unencodable) p = false
  /\ existsb (existsb (N.eqb 0)) p = false.
Proof.
  induction p as [|c p IH]; simpl; [intros; split; reflexivity|].
  unfold name_error.
  destruct (existsb fs_unencodable c); [discriminate|].
  destruct (existsb (N.eqb 0) c); [discriminate|].
  intros H. destruct (IH H) as [H1 H2]. rewrite H1, H2.
  split; reflexivity.
Qed.

(** For a path the guard returns, the kernel's first test is the one of
    the length. *)
Lemma getname_accepted (base : PosixPath) (p : str) (fs : node)
  (path : PosixPath) :
  fst (safe_workspace_path resolve base p fs) = Ok path ->
  getname path = if PATH_MAX <=? path_length path then Some OSError else None.
Proof.
  intros H. destruct (guard_target base p fs path H) as [He ->].
  pose proof (first_name_error_normalize _ [] eq_refl He) as Hn.
  destruct (first_name_error_none _ Hn) as [H1 H2].
  unfold getname. rewrite H1, H2. reflexivity.
Qed.

(** What a successful save has done. *)
Lemma save_file_stored (base : PosixPath) (p c : str) (fs fs' : node)
  (r : json) :
  save_file base {| save_path := p; save_content := c |} fs = (Ok r, fs') ->
  exists path b fs2,
    fst (safe_workspace_path resolve base p (Dir [])) = Ok path
    /\ plain path
    /\ within_limits path
    /\ mkdir_p fs (parent path) = (Done tt, fs2)
    /\ utf8_encode c = Some b
    /\ store fs2 path b = Done fs'
    /\ r = JObj [(py "ok", JBool true)].
Proof.
  intros Hsave. unfold save_file in Hsave. cbn [save_path save_content] in Hsave.
  rewrite safe_workspace_path_pure in Hsave.
  destruct (fst (safe_workspace_path resolve base p (Dir [])))
    as [path|e] eqn:Hguard; [|discriminate].
  pose proof (@safe_workspace_path_plain _ _ _ _ Hguard) as Hplain.
  destruct (mkdir_p fs (parent path)) as [[[]|e] fs2] eqn:Hmk; [|discriminate].
  unfold write_text in Hsave.
  destruct (utf8_encode c) as [b|] eqn:Henc.
  2:{ destruct (write_bytes fs2 path []); discriminate. }
  destruct (write_bytes fs2 path b) as [fs3|e] eqn:Hw; [|discriminate].
  injection Hsave as <- <-.
  destruct (@write_bytes_done fs2 fs3 path b Hplain Hw) as [Hlim Hst].
  exists path, b, fs2. repeat split; try assumption; try reflexivity;
    apply Hlim.
Qed.

(** What opening answers, by what [stat] finds at the path. *)
Lemma open_file_stat (base : PosixPath) (p : str) (fs : node)
  (path : PosixPath) :
  fst (safe_workspace_path resolve base p (Dir [])) = Ok path ->
  fst (open_file base {| open_path := p |} fs)
  = match os_stat fs path with
    | Done (File b) =>
        match utf8_decode b with
        | Some s =>
            Ok (JObj [(py "path", JStr p);
                      (py "content", JStr (universal_newlines s))])
        | None => Raise (HTTPException 500 (StrOf UnicodeDecodeError))
        end
    | Done (Dir _) => Raise (HTTPException 404 (Msg (py "File not found")))
    | Fail e =>
        if ignore_error e
        then Raise (HTTPException 404 (Msg (py "File not found")))
        else Raise (Uncaught e)
    end.
Proof.
  intros Hguard. unfold open_file. cbn [open_path].
  rewrite safe_workspace_path_pure, Hguard.
  unfold path_exists, path_is_file, read_text.
  destruct (os_stat fs path) as [[b|es]|e]; simpl; try reflexivity.
  - destruct (utf8_decode b); reflexivity.
  - destruct (ignore_error e); reflexivity.
Qed.

(** Within the limits: by what is at the path. *)
Lemma open_file_at (base : PosixPath) (p : str) (fs : node)
  (path : PosixPath) :
  fst (safe_workspace_path resolve base p (Dir [])) = Ok path ->
  within_limits path ->
  fst (open_file base {| open_path := p |} fs)
  = match lookup fs path with
    | Some (File b) =>
        match utf8_decode b with
        | Some s =>
            Ok (JObj [(py "path", JStr p);
                      (py "content", JStr (universal_newlines s))])
        | None => Raise (HTTPException 500 (StrOf UnicodeDecodeError))
        end
    | _ => Raise (HTTPException 404 (Msg (py "File not found")))
    end.
Proof.
  intros Hguard Hlim. rewrite (open_file_stat base p fs path Hguard).
  pose proof (@safe_workspace_path_plain _ _ _ _ Hguard) as Hplain.
  pose proof (stat_plain fs path Hplain Hlim) as Hs. unfold stat in Hs.
  destruct (os_stat fs path) as [n|e] eqn:Ho.
  - rewrite <- Hs. reflexivity.
  - rewrite <- Hs. unfold os_stat in Ho. destruct Hlim as [Hg Hsh].
    rewrite Hg in Ho.
    destruct (walk fs [] path) as [q|e'] eqn:Hw.
    + destruct (lookup fs q); [discriminate|]. injection Ho as <-.
      reflexivity.
    + injection Ho as <-. clear Hs.
      assert (He : e' = NotADirectoryError \/ e' = FileNotFoundError).
      { clear Hg Hguard. revert Hw. generalize (@nil str).
        induction path as [|c r IH]; intros cur Hw; simpl in Hw;
          [discriminate|].
        inversion Hplain as [|? ? Hc Hr]; subst.
        inversion Hsh as [|? ? Hsc Hsr]; subst.
        destruct (lookup fs cur) as [[|es]|].
        - left. congruence.
        - apply str_eqb_neq in Hc. rewrite Hc, Hsc in Hw.
          apply (IH Hsr Hr _ Hw).
        - right. congruence. }
      destruct He as [-> | ->]; reflexivity.
Qed.

(** Reading with universal newlines leaves no carriage return. *)
Lemma universal_newlines_no_cr_aux (n : nat) :
  forall s, (List.length s <= n)%nat -> ~ In 13 (universal_newlines s).
Proof.
  induction n as [|n IH]; intros s Hn.
  - destruct s; [simpl; tauto | simpl in Hn; lia].
  - destruct s as [|c r]; [simpl; tauto|]. simpl in Hn. simpl.
    destruct (c =? 13) eqn:Ec.
    + destruct r as [|d r']; [simpl; intuition discriminate|].
      simpl in Hn.
      destruct (d =? 10); intros [E | Hin]; try discriminate.
      * apply (IH r'); [lia | exact Hin].
      * apply (IH (d :: r')); [simpl; lia | exact Hin].
    + intros [E | Hin].
      * subst c. discriminate.
      * apply (IH r); [lia | exact Hin].
Qed.

Lemma universal_newlines_no_cr (s : str) : ~ In 13 (universal_newlines s).
Proof. apply (@universal_newlines_no_cr_aux (List.length s) s (le_n _)). Qed.

Section SaveOpenProperties.

Variable BASE_DIR : PosixPath.

(** X3.  Whatever the text, opening a path after a successful save
    there returns the text saved with every carriage return-line feed
    pair and every lone carriage return turned into a line feed.  That
    text is stable: saved and opened again it comes back unchanged. *)
Theorem save_then_open_normalises (p c : str) (fs fs' : node) (r : json) :
  save_file BASE_DIR {| save_path := p; save_content := c |} fs = (Ok r, fs') ->
  fst (open_file BASE_DIR {| open_path := p |} fs')
  = Ok (JObj [(py "path", JStr p);
              (py "content", JStr (universal_newlines c))])
  /\ universal_newlines (universal_newlines c) = universal_newlines c.
Proof.
  intros Hsave.
  destruct (@save_file_stored BASE_DIR p c fs fs' r Hsave)
    as (path & b & fs2 & Hguard & Hplain & Hlim & Hmk & Henc & Hst & _).
  split.
  - rewrite (@open_file_at BASE_DIR p fs' path Hguard Hlim).
    rewrite (@store_lookup path fs2 fs' b Hst).
    rewrite (@utf8_decode_encode c b Henc). reflexivity.
  - apply universal_newlines_id. apply universal_newlines_no_cr.
Qed.

(** X6.  For a path the guard accepts, opening never changes the file
    system.  When the path is within the limits of the system, the
    answer is decided by what is at the path: HTTP 404 when nothing is
    there or a directory is; HTTP 500 when a file is there whose bytes
    are not UTF-8; otherwise the decoded text, read with universal
    newlines.  When the path is as long as [PATH_MAX], or when one of
    its names is longer than [NAME_MAX] and the directory that should
    hold it exists, the [OSError] of [path.exists()] leaves the handler
    uncaught. *)
Theorem open_file_outcomes (p : str) (fs : node) (path : PosixPath) :
  fst (safe_workspace_path resolve BASE_DIR p fs) = Ok path ->
  snd (open_file BASE_DIR {| open_path := p |} fs) = fs
  /\ (within_limits path ->
      fst (open_file BASE_DIR {| open_path := p |} fs)
      = match lookup fs path with
        | Some (File b) =>
            match utf8_decode b with
            | Some s =>
                Ok (JObj [(py "path", JStr p);
                          (py "content", JStr (universal_newlines s))])
            | None => Raise (HTTPException 500 (StrOf UnicodeDecodeError))
            end
        | _ => Raise (HTTPException 404 (Msg (py "File not found")))
        end)
  /\ ((PATH_MAX <=? path_length path) = true ->
      fst (open_file BASE_DIR {| open_path := p |} fs)
      = Raise (Uncaught OSError))
  /\ (forall above name below es,
         path = above ++ name :: below ->
         (PATH_MAX <=? path_length path) = false ->
         Forall (fun c => (NAME_MAX <? fs_length c) = false) above ->
         lookup fs above = Some (Dir es) ->
         (NAME_MAX <? fs_length name) = true ->
         fst (open_file BASE_DIR {| open_path := p |} fs)
         = Raise (Uncaught OSError)).
Proof.
  intros Hguard. rewrite safe_workspace_path_pure in Hguard. simpl in Hguard.
  pose proof (@safe_workspace_path_plain _ _ _ _ Hguard) as Hplain.
  pose proof (getname_accepted BASE_DIR p (Dir []) path Hguard) as Hg.
  split; [|split; [|split]].
  - unfold open_file. cbn [open_path].
    rewrite safe_workspace_path_pure, Hguard.
    destruct (uncaught (path_exists fs path)) as [[|]|]; try reflexivity.
    destruct (uncaught (path_is_file fs path)) as [[|]|]; try reflexivity.
    destruct (as_http_500 _); reflexivity.
  - apply (@open_file_at BASE_DIR p fs path Hguard).
  - intros Hlong. rewrite (open_file_stat BASE_DIR p fs path Hguard).
    unfold os_stat. rewrite Hg, Hlong. reflexivity.
  - intros above name below es -> Hshort Habove Hdir Hname.
    rewrite (open_file_stat BASE_DIR p fs _ Hguard).
    unfold os_stat. rewrite Hg, Hshort.
    assert (Hw : walk fs [] (above ++ name :: below) = Fail OSError).
    { assert (Hpa : plain above /\ plain (name :: below)).
      { unfold plain in *. apply Forall_app in Hplain. exact Hplain. }
      destruct Hpa as [Hpa Hpn].
      assert (Hgen : forall cur,
                 lookup fs (cur ++ above) = Some (Dir es) ->
                 walk fs cur (above ++ name :: below) = Fail OSError).
      { clear Hg Hguard Hplain Hdir Hshort.
        induction above as [|c r IH]; intros cur Hl.
        - rewrite app_nil_r in Hl. simpl. rewrite Hl.
          inversion Hpn as [|? ? Hc _]; subst.
          apply str_eqb_neq in Hc. rewrite Hc, Hname. reflexivity.
        - inversion Hpa as [|? ? Hc Hr]; subst.
          inversion Habove as [|? ? Hsc Hsr]; subst.
          simpl.
          destruct (@lookup_prefix_dir cur fs (Dir es) c r Hl) as [es' He'].
          rewrite He'. apply str_eqb_neq in Hc. rewrite Hc, Hsc.
          apply (IH Hsr Hr). rewrite <- app_assoc. exact Hl. }
      apply (Hgen []). exact Hdir. }
    rewrite Hw. reflexivity.
Qed.

End SaveOpenProperties.

Lemma save_then_open_normalises_witness :
  fst (open_file srv_backend {| open_path := py "dos.txt" |}
         (snd (save_file srv_backend
                 {| save_path := py "dos.txt";
                    save_content := [108; 49; 13; 10; 108; 50; 13] |}
                 srv_fs)))
  = Ok (JObj [(py "path", JStr (py "dos.txt"));
              (py "content", JStr [108; 49; 10; 108; 50; 10])]).
Proof.
  apply (@save_then_open_normalises srv_backend (py "dos.txt")
           [108; 49; 13; 10; 108; 50; 13] srv_fs _
           (JObj [(py "ok", JBool true)])).
  vm_compute. reflexivity.
Defined.

Lemma open_file_outcomes_witness :
  fst (open_file srv_backend {| open_path := py "b" |} srv_fs)
  = Raise (HTTPException 404 (Msg (py "File not found")))
  /\ fst (open_file srv_backend {| open_path := repeat 97 256 |} srv_fs)
     = Raise (Uncaught OSError).
Proof.
  split.
  - apply (proj1 (proj2 (@open_file_outcomes srv_backend (py "b") srv_fs
                           [py "srv"; py "backend"; py "workspace"; py "b"]
                           ltac:(vm_compute; reflexivity)))).
    split; [vm_compute; reflexivity|].
    repeat constructor.
  - apply (proj2 (proj2 (proj2
             (@open_file_outcomes srv_backend (repeat 97 256) srv_fs
                [py "srv"; py "backend"; py "workspace"; repeat 97 256]
                ltac:(vm_compute; reflexivity))))
             [py "srv"; py "backend"; py "workspace"] (repeat 97 256) []
             [(py "b", Dir [(py "x", File [])]); (py "c", File (py "hi"));
              (py "a", File [])]).
    + reflexivity.
    + vm_compute. reflexivity.
    + repeat constructor.
    + vm_compute. reflexivity.
    + vm_compute. reflexivity.
Defined.

(* ===================================================================== *)
(** ** What saving and uploading leave alone *)
(* ===================================================================== *)

Lemma assoc_put_other (k k' : str) (v : node) (es : list (str * node)) :
  str_eqb k' k = false -> assoc k' (put k v es) = assoc k' es.
Proof.
  intros Hk. induction es as [|[k0 v0] es IH]; simpl.
  - rewrite Hk. reflexivity.
  - destruct (str_eqb k k0) eqn:E; simpl.
    + apply str_eqb_eq in E. subst k0. rewrite Hk. reflexivity.
    + destruct (str_eqb k' k0); [reflexivity | exact IH].
Qed.

Lemma put_same (k : str) (v : node) (es : list (str * node)) :
  assoc k es = Some v -> put k v es = es.
Proof.
  induction es as [|[k0 v0] es IH]; simpl; [discriminate|].
  destruct (str_eqb k k0) eqn:E.
  - apply str_eqb_eq in E. subst k0. intros [= ->]. reflexivity.
  - intros H. rewrite (IH H). reflexivity.
Qed.

Lemma not_prefix_cons (c d : str) (q r : PosixPath) :
  ~ is_prefix (d :: q) (c :: r) -> str_eqb d c = true -> ~ is_prefix q r.
Proof.
  intros H E [x Hx]. apply str_eqb_eq in E. subst d. apply H.
  exists x. rewrite Hx. reflexivity.
Qed.

Lemma lookup_put (c d : str) (q : PosixPath) (v : node)
  (es : list (str * node)) :
  lookup (Dir (put c v es)) (d :: q)
  = if str_eqb d c then lookup v q else lookup (Dir es) (d :: q).
Proof.
  simpl. destruct (str_eqb d c) eqn:E.
  - apply str_eqb_eq in E. subst d. rewrite assoc_put_same. reflexivity.
  - rewrite (assoc_put_other _ _ _ _ E). reflexivity.
Qed.

(** Creating directories touches nothing but the path and its
    ancestors, also when it ends with an exception. *)
Lemma mkdir_rec_frame (p : PosixPath) :
  forall (n n' : node) (o : io unit) (q : PosixPath),
    mkdir_rec n p = (o, n') -> ~ is_prefix q p -> lookup n' q = lookup n q.
Proof.
  induction p as [|c r IH]; intros n n' o q H Hq; simpl in H.
  - destruct n; injection H as _ <-; reflexivity.
  - destruct n as [|es]; [injection H as _ <-; reflexivity|].
    destruct (NAME_MAX <? fs_length c); [injection H as _ <-; reflexivity|].
    destruct (mkdir_rec
                (match assoc c es with Some ch => ch | None => Dir [] end) r)
      as [o' ch'] eqn:Hm.
    injection H as _ <-.
    destruct q as [|d q]; [exfalso; apply Hq; exists (c :: r); reflexivity|].
    rewrite lookup_put.
    destruct (str_eqb d c) eqn:E; [|reflexivity].
    pose proof (not_prefix_cons _ _ _ _ Hq E) as Hq'.
    rewrite (IH _ ch' o' q Hm Hq').
    apply str_eqb_eq in E. subst d. simpl.
    destruct (assoc c es); [reflexivity|].
    destruct q; [exfalso; apply Hq'; exists r; reflexivity | reflexivity].
Qed.

Lemma mkdir_p_frame (p : PosixPath) (n n' : node) (o : io unit)
  (q : PosixPath) :
  mkdir_p n p = (o, n') -> ~ is_prefix q p -> lookup n' q = lookup n q.
Proof.
  unfold mkdir_p. destruct (getname p).
  - intros [= _ <-] _. reflexivity.
  - apply mkdir_rec_frame.
Qed.

(** Storing a file touches nothing but the path and its ancestors. *)
Lemma store_frame (p : PosixPath) :
  forall (n n' : node) (q : PosixPath) (data : bytes),
    store n p data = Done n' -> ~ is_prefix q p -> lookup n' q = lookup n q.
Proof.
  induction p as [|c r IH]; intros n n' q data H Hq; simpl in H.
  - destruct n as [b|]; [|discriminate]. injection H as <-.
    destruct q; [exfalso; apply Hq; exists []; reflexivity | reflexivity].
  - destruct n as [|es]; [discriminate|].
    destruct q as [|d q]; [exfalso; apply Hq; exists (c :: r); reflexivity|].
    destruct (assoc c es) as [ch|] eqn:Ha.
    + destruct (store ch r data) as [ch'|] eqn:Hm; [|discriminate].
      injection H as <-. rewrite lookup_put.
      destruct (str_eqb d c) eqn:E; [|reflexivity].
      rewrite (IH ch ch' q data Hm (not_prefix_cons _ _ _ _ Hq E)).
      apply str_eqb_eq in E. subst d. simpl. rewrite Ha. reflexivity.
    + destruct r; [|discriminate]. injection H as <-. rewrite lookup_put.
      destruct (str_eqb d c) eqn:E; [|reflexivity].
      pose proof (not_prefix_cons _ _ _ _ Hq E) as Hq'.
      apply str_eqb_eq in E. subst d. simpl. rewrite Ha.
      destruct q; [exfalso; apply Hq'; exists []; reflexivity | reflexivity].
Qed.

Lemma is_prefix_parent (q p : PosixPath) :
  is_prefix q (parent p) -> is_prefix q p.
Proof.
  intros [x Hx]. unfold parent in Hx.
  destruct p as [|c r] using rev_ind.
  - simpl in Hx. exists x. exact Hx.
  - rewrite removelast_last in Hx. exists (x ++ [c]).
    rewrite Hx, app_assoc. reflexivity.
Qed.

(** [mkdir -p] on a directory that exists changes nothing. *)
Lemma mkdir_rec_existing (p : PosixPath) :
  forall (n : node) (es : list (str * node)),
    Forall (fun c => (NAME_MAX <? fs_length c) = false) p ->
    lookup n p = Some (Dir es) -> mkdir_rec n p = (Done tt, n).
Proof.
  induction p as [|c r IH]; intros n es Hs H; simpl in *.
  - injection H as ->. reflexivity.
  - inversion Hs as [|? ? Hc Hr]; subst.
    destruct n as [|es0]; [discriminate|].
    destruct (assoc c es0) as [ch|] eqn:Ha; [|discriminate].
    rewrite Hc, (IH ch es Hr H), (put_same _ _ _ Ha). reflexivity.
Qed.

Lemma mkdir_p_existing (p : PosixPath) (n : node) (es : list (str * node)) :
  within_limits p -> lookup n p = Some (Dir es) ->
  mkdir_p n p = (Done tt, n).
Proof.
  intros [Hg Hs] H. unfold mkdir_p. rewrite Hg.
  apply (mkdir_rec_existing p n es Hs H).
Qed.

(** A path within the limits has its parent within them. *)
Lemma path_length_snoc (p : PosixPath) (c : str) :
  path_length p <= path_length (p ++ [c]).
Proof.
  assert (H : forall l,
             fold_right (fun c n => 1 + fs_length c + n) 0 l
             <= fold_right (fun c n => 1 + fs_length c + n) 0 (l ++ [c])).
  { induction l as [|d l IH]; cbn [fold_right app]; lia. }
  unfold path_length. destruct p as [|d p].
  - cbn [fold_right app]. lia.
  - specialize (H (d :: p)). cbn [app] in *. exact H.
Qed.

Lemma existsb_removelast (A : Type) (f : A -> bool) (l : list A) :
  existsb f l = false -> existsb f (removelast l) = false.
Proof.
  destruct l as [|x l] using rev_ind; [intros; reflexivity|].
  rewrite removelast_last, existsb_app. intros H.
  apply orb_false_iff in H. apply H.
Qed.

Lemma getname_none (p : PosixPath) :
  getname p = None
  <-> existsb (existsb fs_unencodable) p = false
      /\ existsb (existsb (N.eqb 0)) p = false
      /\ (PATH_MAX <=? path_length p) = false.
Proof.
  unfold getname.
  destruct (existsb (existsb fs_unencodable) p);
    [split; [discriminate | intros (H & _); discriminate]|].
  destruct (existsb (existsb (N.eqb 0)) p);
    [split; [discriminate | intros (_ & H & _); discriminate]|].
  destruct (PATH_MAX <=? path_length p);
    [split; [discriminate | intros (_ & _ & H); discriminate]|].
  split; intros; repeat split; reflexivity.
Qed.

Lemma within_limits_parent (p : PosixPath) :
  within_limits p -> within_limits (parent p).
Proof.
  unfold parent. destruct p as [|c p _] using rev_ind; [intros H; exact H|].
  rewrite removelast_last. intros [Hg Hs]. split.
  - apply getname_none in Hg. destruct Hg as (H1 & H2 & H3).
    rewrite existsb_app in H1, H2.
    apply orb_false_iff in H1, H2. apply getname_none.
    split; [apply H1|]. split; [apply H2|].
    apply N.leb_gt in H3. apply N.leb_gt.
    pose proof (path_length_snoc p c) as Hle. lia.
  - apply Forall_app in Hs. apply Hs.
Qed.

(** A file that exists can be overwritten, and writing what it holds
    changes nothing. *)
Lemma store_existing (p : PosixPath) :
  forall (n : node) (d0 d : bytes),
    lookup n p = Some (File d0) ->
    exists n', store n p d = Done n' /\ (d = d0 -> n' = n).
Proof.
  induction p as [|c r IH]; intros n d0 d H; simpl in *.
  - injection H as ->. exists (File d). split; [reflexivity|].
    intros ->. reflexivity.
  - destruct n as [|es]; [discriminate|].
    destruct (assoc c es) as [ch|] eqn:Ha; [|discriminate].
    destruct (IH ch d0 d H) as (ch' & Hs & Hsame). rewrite Hs.
    eexists. split; [reflexivity|].
    intros E. rewrite (Hsame E), (put_same _ _ _ Ha). reflexivity.
Qed.

Lemma within_nonempty (base : PosixPath) (path : PosixPath) :
  within (WORKSPACE_DIR base) path -> path <> [].
Proof.
  rewrite workspace_dir_eq. intros [E | [rest [_ E]]] H; subst path.
  - destruct base; discriminate.
  - destruct base; discriminate.
Qed.

Section SaveFrame.

Variable BASE_DIR : PosixPath.

(** X4.  Saving touches only the file it is asked to write and the
    directories above it: at every location that is neither the
    resolved path nor one of its ancestors, the file system holds after
    the call (successful or not) what it held before. *)
Theorem save_file_frame (p c : str) (fs : node) (q : PosixPath) :
  (forall path,
      fst (safe_workspace_path resolve BASE_DIR p fs) = Ok path ->
      ~ is_prefix q path) ->
  lookup (snd (save_file BASE_DIR {| save_path := p; save_content := c |} fs)) q
  = lookup fs q.
Proof.
  intros Hq. unfold save_file. cbn [save_path save_content].
  rewrite safe_workspace_path_pure in *. simpl fst in Hq.
  destruct (fst (safe_workspace_path resolve BASE_DIR p (Dir [])))
    as [path|e] eqn:Hguard; [|reflexivity].
  pose proof (@safe_workspace_path_plain _ _ _ _ Hguard) as Hplain.
  specialize (Hq path eq_refl).
  destruct (mkdir_p fs (parent path)) as [o fs2] eqn:Hmk.
  assert (H2 : lookup fs2 q = lookup fs q).
  { apply (mkdir_p_frame (parent path) fs fs2 o q Hmk).
    intros Hp. apply Hq. apply is_prefix_parent. exact Hp. }
  destruct o as [u|e]; [|exact H2].
  assert (Hw : forall d fs3, write_bytes fs2 path d = Done fs3 ->
                             lookup fs3 q = lookup fs q).
  { intros d fs3 Hw. apply (@write_bytes_plain fs2 fs3 path d Hplain) in Hw.
    rewrite (@store_frame path fs2 fs3 q d Hw Hq). exact H2. }
  unfold write_text. destruct (utf8_encode c) as [b|].
  - destruct (write_bytes fs2 path b) as [fs3|e] eqn:E; simpl;
      [apply (Hw b fs3 E) | exact H2].
  - destruct (write_bytes fs2 path []) as [fs3|e] eqn:E; simpl;
      [apply (Hw [] fs3 E) | exact H2].
Qed.

(** X5.  Once a save at a path has succeeded, any later save there of
    a text that can be encoded succeeds too, and the last text saved is
    the one that is read back; saving the same text again leaves the
    file system as it is. *)
Theorem save_file_overwrites (p c1 c2 : str) (fs fs1 : node) (r : json) :
  save_file BASE_DIR {| save_path := p; save_content := c1 |} fs = (Ok r, fs1) ->
  utf8_encode c2 <> None ->
  exists fs2,
    save_file BASE_DIR {| save_path := p; save_content := c2 |} fs1
    = (Ok (JObj [(py "ok", JBool true)]), fs2)
    /\ fst (open_file BASE_DIR {| open_path := p |} fs2)
       = Ok (JObj [(py "path", JStr p);
                   (py "content", JStr (universal_newlines c2))])
    /\ (c2 = c1 -> fs2 = fs1).
Proof.
  intros Hsave Henc2.
  destruct (@save_file_stored BASE_DIR p c1 fs fs1 r Hsave)
    as (path & b1 & fs0 & Hguard & Hplain & Hlim & Hmk & Henc1 & Hst & _).
  pose proof (@store_lookup path fs0 fs1 b1 Hst) as Hfile.
  assert (Hne : path <> []).
  { apply (@within_nonempty BASE_DIR).
    apply (@safe_workspace_path_within BASE_DIR p (Dir []) path Hguard). }
  assert (Hpar : exists es, lookup fs1 (parent path) = Some (Dir es)).
  { unfold parent. destruct (exists_last Hne) as (pp & c & ->).
    rewrite removelast_last.
    apply (@lookup_prefix_dir pp fs1 (File b1) c [] Hfile). }
  destruct Hpar as [es Hpar].
  destruct (utf8_encode c2) as [b2|] eqn:Henc; [|congruence].
  destruct (@store_existing path fs1 b1 b2 Hfile) as (fs2 & Hst2 & Hsame).
  assert (Hsave2 : save_file BASE_DIR {| save_path := p; save_content := c2 |} fs1
                   = (Ok (JObj [(py "ok", JBool true)]), fs2)).
  { unfold save_file. cbn [save_path save_content].
    rewrite safe_workspace_path_pure, Hguard.
    rewrite (mkdir_p_existing (parent path) fs1 es
               (within_limits_parent path Hlim) Hpar).
    unfold write_text, write_bytes. rewrite Henc.
    destruct Hlim as [Hg Hs]. rewrite Hg.
    rewrite (@walk_found fs1 path [] (File b1) Hplain Hs Hfile). simpl app.
    rewrite Hst2. reflexivity. }
  exists fs2. split; [exact Hsave2|]. split.
  - rewrite (@open_file_at BASE_DIR p fs2 path Hguard Hlim).
    rewrite (@store_lookup path fs1 fs2 b2 Hst2).
    rewrite (@utf8_decode_encode c2 b2 Henc). reflexivity.
  - intros ->. apply Hsame. congruence.
Qed.

End SaveFrame.

Lemma save_file_frame_witness :
  lookup (snd (save_file srv_backend
                 {| save_path := py "b/new.txt"; save_content := py "text" |}
                 srv_fs))
         [py "srv"; py "backend"; py "workspace"; py "c"]
  = Some (File (py "hi")).
Proof.
  rewrite (@save_file_frame srv_backend (py "b/new.txt") (py "text") srv_fs
             [py "srv"; py "backend"; py "workspace"; py "c"]).
  - reflexivity.
  - intros path H. vm_compute in H. injection H as <-.
    intros [x Hx]. vm_compute in Hx. discriminate.
Defined.

Lemma save_file_overwrites_witness :
  exists fs2,
    save_file srv_backend {| save_path := py "c"; save_content := py "two" |}
      (snd (save_file srv_backend
              {| save_path := py "c"; save_content := py "one" |} srv_fs))
    = (Ok (JObj [(py "ok", JBool true)]), fs2)
    /\ fst (open_file srv_backend {| open_path := py "c" |} fs2)
       = Ok (JObj [(py "path", JStr (py "c"));
                   (py "content", JStr (universal_newlines (py "two")))])
    /\ (py "two" = py "one" -> fs2
        = snd (save_file srv_backend
                 {| save_path := py "c"; save_content := py "one" |} srv_fs)).
Proof.
  apply (@save_file_overwrites srv_backend (py "c") (py "one") (py "two")
           srv_fs _ (JObj [(py "ok", JBool true)])).
  - reflexivity.
  - discriminate.
Defined.

(* ===================================================================== *)
(** ** Uploads with plain file names *)
(* ===================================================================== *)

Lemma split_on_no_sep (sep : N) (s : str) :
  ~ In sep s -> split_on sep s = [s].
Proof.
  induction s as [|c r IH]; intros H; simpl; [reflexivity|].
  destruct (c =? sep) eqn:E.
  - apply N.eqb_eq in E. exfalso. apply H. left. exact E.
  - rewrite IH; [reflexivity|]. intros Hin. apply H. right. exact Hin.
Qed.

Lemma joinpath_simple (d : PosixPath) (nm : str) :
  simple_name nm -> joinpath d nm = d ++ [nm].
Proof.
  intros (Hne & Hsl & Hdot & _). unfold joinpath, path_parts.
  rewrite (split_on_no_sep 47 nm Hsl). simpl.
  apply str_eqb_neq in Hdot. rewrite Hdot.
  destruct nm as [|c r]; [contradiction|]. simpl.
  destruct (c =? 47) eqn:E; [|reflexivity].
  apply N.eqb_eq in E. exfalso. apply Hsl. left. exact E.
Qed.

Lemma is_prefix_snoc (q d : PosixPath) (nm : str) :
  is_prefix q (d ++ [nm]) -> is_prefix q d \/ q = d ++ [nm].
Proof.
  intros [x Hx]. destruct x as [|c x] using rev_ind.
  - right. rewrite app_nil_r in Hx. symmetry. exact Hx.
  - left. rewrite app_assoc in Hx. apply app_inj_tail in Hx.
    destruct Hx as [Hx _]. exists x. exact Hx.
Qed.

Lemma snoc_not_prefix (d : PosixPath) (nm : str) : ~ is_prefix (d ++ [nm]) d.
Proof.
  intros [x Hx]. apply (f_equal (@List.length str)) in Hx.
  rewrite !length_app in Hx. simpl in Hx. lia.
Qed.

Section UploadProperties.

Variable BASE_DIR : PosixPath.

Local Abbreviation WS := (WORKSPACE_DIR BASE_DIR).

Lemma upload_loop_simple (rel : list str) (files : list UploadFile) :
  forall (acc : list str) (fs fs' : node) (stored : list str),
    plain (WS ++ rel) ->
    Forall (fun uf => simple_name (filename uf)) files ->
    upload_loop BASE_DIR (WS ++ rel) files acc fs = (Ok stored, fs') ->
    stored
    = acc ++ List.map (fun uf => join_slash (rel ++ [filename uf])) files
    /\ (forall q,
           ~ is_prefix q (WS ++ rel) ->
           (forall uf, In uf files -> q <> (WS ++ rel) ++ [filename uf]) ->
           lookup fs' q = lookup fs q)
    /\ (NoDup (List.map filename files) ->
        forall uf, In uf files ->
                   lookup fs' ((WS ++ rel) ++ [filename uf])
                   = Some (File (file uf))).
Proof.
  induction files as [|uf files IH]; intros acc fs fs' stored Hd Hall H;
    simpl in H.
  - injection H as <- <-. rewrite app_nil_r.
    split; [reflexivity|]. split; [reflexivity|]. intros _ uf [].
  - inversion Hall as [|? ? Hs Hrest]; subst.
    rewrite (joinpath_simple _ _ Hs) in H.
    destruct (write_bytes fs ((WS ++ rel) ++ [filename uf]) (file uf))
      as [fs1|e] eqn:Hw; [|discriminate].
    cbn [uncaught] in H. rewrite relative_str_child in H.
    assert (Hp : plain ((WS ++ rel) ++ [filename uf])).
    { apply plain_app; [exact Hd|]. constructor; [|constructor].
      destruct Hs as (_ & _ & _ & Hdd). exact Hdd. }
    apply (@write_bytes_plain fs fs1 _ _ Hp) in Hw.
    destruct (IH _ _ _ _ Hd Hrest H) as (E & Hframe & Hget).
    split; [|split].
    + rewrite E, <- app_assoc. reflexivity.
    + intros q Hq Hneq. rewrite Hframe.
      * apply (@store_frame _ fs fs1 q _ Hw).
        intros Hp'. apply is_prefix_snoc in Hp'. destruct Hp' as [Hp' | Hp'].
        -- apply Hq. exact Hp'.
        -- apply (Hneq uf); [left; reflexivity | exact Hp'].
      * exact Hq.
      * intros uf' Hin. apply Hneq. right. exact Hin.
    + intros Hnd uf' [<- | Hin].
      * rewrite Hframe.
        -- apply (@store_lookup _ fs fs1 _ Hw).
        -- apply snoc_not_prefix.
        -- intros uf' Hin E'. apply app_inj_tail in E'. destruct E' as [_ E'].
           simpl in Hnd. inversion Hnd as [|? ? Hnotin _]; subst.
           apply Hnotin. rewrite E'. apply in_map. exact Hin.
      * apply Hget; [|exact Hin]. simpl in Hnd. inversion Hnd; assumption.
Qed.

(** X7.  An upload whose file names are plain single components stays
    in its destination: when the guard accepts the destination and the
    upload succeeds, the answer lists, in the order of the request, each
    file by its path below the workspace root (destination, slash,
    name); nothing changes in the file system except the destination
    directory, its ancestors and the files named; and when the names are
    distinct every file is found in the destination with the content
    sent. *)
Theorem upload_plain_names (files : list UploadFile) (dest : str)
  (fs fs' : node) (d : PosixPath) (j : json) :
  fst (safe_workspace_path resolve BASE_DIR dest fs) = Ok d ->
  Forall (fun uf => simple_name (filename uf)) files ->
  upload_files BASE_DIR files dest fs = (Ok j, fs') ->
  exists rel,
    d = WS ++ rel
    /\ j = JObj [(py "stored",
                  JArr (List.map
                          (fun uf => JStr (join_slash (rel ++ [filename uf])))
                          files))]
    /\ (forall q,
           ~ is_prefix q d ->
           (forall uf, In uf files -> q <> d ++ [filename uf]) ->
           lookup fs' q = lookup fs q)
    /\ (NoDup (List.map filename files) ->
        forall uf, In uf files ->
                   lookup fs' (d ++ [filename uf]) = Some (File (file uf))).
Proof.
  intros Hguard Hall Hup.
  rewrite safe_workspace_path_pure in Hguard. simpl in Hguard.
  pose proof (@safe_workspace_path_plain _ _ _ _ Hguard) as Hplain.
  assert (Hrel : exists rel, d = WS ++ rel).
  { destruct (@safe_workspace_path_within BASE_DIR dest (Dir []) d Hguard)
      as [E | [rest [_ E]]].
    - exists []. rewrite app_nil_r. exact E.
    - exists rest. exact E. }
  destruct Hrel as [rel ->]. exists rel. split; [reflexivity|].
  unfold upload_files in Hup.
  rewrite safe_workspace_path_pure, Hguard in Hup.
  destruct (mkdir_p fs (WS ++ rel)) as [[u|e] fs2] eqn:Hmk; [|discriminate].
  destruct (upload_loop BASE_DIR (WS ++ rel) files [] fs2)
    as [[stored|e] fs3] eqn:Hloop; [|discriminate].
  injection Hup as <- <-.
  destruct (upload_loop_simple rel files [] fs2 fs3 stored Hplain Hall Hloop)
    as (E & Hframe & Hget).
  split; [|split].
  - rewrite E. simpl. rewrite List.map_map. reflexivity.
  - intros q Hq Hneq. rewrite (Hframe q Hq Hneq).
    apply (mkdir_p_frame _ fs fs2 _ q Hmk Hq).
  - exact Hget.
Qed.

End UploadProperties.

Lemma upload_plain_names_witness :
  exists rel,
    [py "srv"; py "backend"; py "workspace"; py "b"]
    = WORKSPACE_DIR srv_backend ++ rel
    /\ fst (upload_files srv_backend
              [{| filename := py "one.txt"; file := py "1" |};
               {| filename := py "two.txt"; file := py "2" |}]
              (py "b") srv_fs)
       = Ok (JObj [(py "stored",
                    JArr [JStr (py "b/one.txt"); JStr (py "b/two.txt")])]).
Proof.
  assert (Hall : Forall (fun uf => simple_name (filename uf))
                   [{| filename := py "one.txt"; file := py "1" |};
                    {| filename := py "two.txt"; file := py "2" |}]).
  { repeat constructor; try discriminate; cbn; intuition discriminate. }
  destruct (@upload_plain_names srv_backend
              [{| filename := py "one.txt"; file := py "1" |};
               {| filename := py "two.txt"; file := py "2" |}]
              (py "b") srv_fs
              (snd (upload_files srv_backend
                      [{| filename := py "one.txt"; file := py "1" |};
                       {| filename := py "two.txt"; file := py "2" |}]
                      (py "b") srv_fs))
              [py "srv"; py "backend"; py "workspace"; py "b"]
              (JObj [(py "stored",
                      JArr [JStr (py "b/one.txt"); JStr (py "b/two.txt")])])
              eq_refl Hall eq_refl) as (rel & E & _).
  exists rel. split; [exact E | reflexivity].
Defined.

(* ===================================================================== *)
(** ** Further properties of the workspace tree *)
(* ===================================================================== *)

Lemma list_sum_cons (a : nat) (l : list nat) :
  list_sum (a :: l) = (a + list_sum l)%nat.
Proof. reflexivity. Qed.

Lemma key_eqb_eq (a b : bool * str) : key_eqb a b = true -> a = b.
Proof.
  destruct a as [fa sa], b as [fb sb]. unfold key_eqb. simpl. intros H.
  apply andb_true_iff in H. destruct H as [H1 H2].
  apply Bool.eqb_prop in H1. apply str_eqb_eq in H2. subst. reflexivity.
Qed.

Lemma insert_sorted_with_key (k : bool * str) (x : str * node)
  (l : list (str * node)) :
  with_key k (insert_sorted child_key x l) = with_key k (x :: l).
Proof.
  unfold with_key. induction l as [|y l IH]; simpl; [reflexivity|].
  destruct (key_ltb (child_key y) (child_key x)) eqn:E; [|reflexivity].
  simpl. rewrite IH. simpl.
  destruct (key_eqb (child_key x) k) eqn:Ex;
    destruct (key_eqb (child_key y) k) eqn:Ey; try reflexivity.
  apply key_eqb_eq in Ex, Ey. rewrite Ex, Ey, key_ltb_irrefl in E.
  discriminate.
Qed.

(** [sorted] is stable: children with the same key keep their order. *)
Lemma sorted_with_key (k : bool * str) (l : list (str * node)) :
  with_key k (sorted child_key l) = with_key k l.
Proof.
  induction l as [|x l IH]; simpl; [reflexivity|].
  rewrite insert_sorted_with_key. unfold with_key in *. simpl.
  rewrite IH. reflexivity.
Qed.

Lemma entry_listed_name (rel : list str) (e : str * node) (j : json) :
  entry_listed rel e j -> entry_name j = JStr (fst e).
Proof. intros H. destruct H; reflexivity. Qed.

Section TreeMore.

Variable BASE_DIR : PosixPath.

Local Abbreviation WS := (WORKSPACE_DIR BASE_DIR).

(** The children of the root entry are the entries of the sorted
    directory. *)
Lemma get_files_children (fs : node) (es : list (str * node)) :
  stat fs WS = Some (Dir es) ->
  exists children,
    fst (get_files BASE_DIR fs)
    = Ok (JObj [(py "type", JStr (py "folder"));
                (py "name", JStr (py "workspace"));
                (py "path", JStr (py ""));
                (py "children", JArr children)])
    /\ Forall2 (entry_listed []) (sorted child_key es) children.
Proof.
  intros Hstat. unfold get_files, list_directory.
  unfold stat in Hstat. destruct (os_stat fs WS) as [n0|e0]; [|discriminate].
  injection Hstat as ->.
  rewrite list_directory_rec_equation_1.
  destruct (@list_directory_rec_ok BASE_DIR
              (S (call_size (Loop WS (sorted child_key es))))
              (Loop WS (sorted child_key es)) (Nat.lt_succ_diag_r _) [])
    as (children & E & Hall).
  { rewrite app_nil_r. reflexivity. }
  rewrite E. exists children. split; [reflexivity | exact Hall].
Qed.

(** X8.  The children of the root of the tree name exactly what the
    workspace directory holds, each entry once, and entries with the
    same sort key (the same kind and the same name up to letter case)
    come in the order in which the system lists the directory. *)
Theorem listing_names_stable (fs : node) (es : list (str * node)) :
  stat fs WS = Some (Dir es) ->
  exists order children,
    fst (get_files BASE_DIR fs)
    = Ok (JObj [(py "type", JStr (py "folder"));
                (py "name", JStr (py "workspace"));
                (py "path", JStr (py ""));
                (py "children", JArr children)])
    /\ List.map entry_name children
       = List.map (fun e => JStr (fst e)) order
    /\ Permutation order es
    /\ (forall k, with_key k order = with_key k es).
Proof.
  intros Hstat. destruct (get_files_children fs es Hstat) as (children & E & Hall).
  exists (sorted child_key es), children. split; [exact E|].
  split; [|split].
  - clear E. induction Hall as [|e j l l' He _ IH]; simpl; [reflexivity|].
    rewrite (entry_listed_name _ _ _ He), IH. reflexivity.
  - apply sorted_perm.
  - intros k. apply sorted_with_key.
Qed.

Lemma list_directory_rec_counted (n : nat) :
  forall c, (call_size c < n)%nat ->
            listing_counted WS c (list_directory_rec BASE_DIR c).
Proof.
  induction n as [|n IH]; intros c Hn; [lia|].
  destruct c as [path es | path todo].
  - intros rel ->. rewrite list_directory_rec_equation_1.
    destruct (IH (Loop (WS ++ rel) (sorted child_key es))) with (rel := rel)
      as (children & E & Hc); [|reflexivity|].
    { simpl in *. rewrite entries_size_sorted. lia. }
    rewrite E. eexists. split; [reflexivity|].
    rewrite Hc. apply entries_size_sorted.
  - intros rel ->. destruct todo as [|[nm [data|ces]] r].
    + rewrite list_directory_rec_equation_2. exists []. split; reflexivity.
    + rewrite list_directory_rec_equation_3. rewrite relative_str_child.
      destruct (IH (Loop (WS ++ rel) r)) with (rel := rel)
        as (rest & E & Hc); [|reflexivity|].
      { unfold call_size, entries_size in *. simpl in *. lia. }
      rewrite E. eexists. split; [reflexivity|].
      unfold entries_size in *. cbn [List.map list_sum objects snd node_size].
      rewrite !list_sum_cons, Hc. simpl. lia.
    + rewrite list_directory_rec_equation_4. rewrite relative_str_child.
      destruct (IH (ListDirectory ((WS ++ rel) ++ [nm]) ces))
        with (rel := rel ++ [nm]) as (sub & E1 & Hsub);
        [|rewrite app_assoc; reflexivity|].
      { unfold call_size, entries_size in *. simpl in *. lia. }
      rewrite E1.
      destruct (IH (Loop (WS ++ rel) r)) with (rel := rel)
        as (rest & E & Hc); [|reflexivity|].
      { unfold call_size, entries_size in *. simpl in *. lia. }
      rewrite E. eexists. split; [reflexivity|].
      change (dict_get
                (JObj [(py "type", JStr (py "folder"));
                       (py "name", JStr (py "workspace"));
                       (py "path", JStr (py ""));
                       (py "children", JArr sub)])
                (py "children") (JArr [])) with (JArr sub).
      unfold entries_size in *. cbn [List.map list_sum objects snd node_size].
      rewrite !list_sum_cons, Hc, Hsub. simpl. lia.
Qed.

(** X9.  The tree returned for the workspace has exactly one entry for
    the root and one for every file and every directory below it,
    however deep. *)
Theorem listing_counts_every_node (fs : node) (es : list (str * node)) :
  stat fs WS = Some (Dir es) ->
  exists j,
    fst (get_files BASE_DIR fs) = Ok j /\ objects j = node_size (Dir es).
Proof.
  intros Hstat. unfold get_files, list_directory.
  unfold stat in Hstat. destruct (os_stat fs WS) as [n0|e0]; [|discriminate].
  injection Hstat as ->.
  destruct (list_directory_rec_counted (S (call_size (ListDirectory WS es)))
              (ListDirectory WS es) (Nat.lt_succ_diag_r _) [])
    as (children & E & Hc).
  { rewrite app_nil_r. reflexivity. }
  simpl fst. rewrite E. eexists. split; [reflexivity|].
  cbn [objects List.map list_sum snd node_size].
  rewrite !list_sum_cons, Hc. unfold entries_size. simpl. lia.
Qed.

End TreeMore.

Lemma listing_names_stable_witness :
  exists order children,
    fst (get_files srv_backend srv_fs)
    = Ok (JObj [(py "type", JStr (py "folder"));
                (py "name", JStr (py "workspace"));
                (py "path", JStr (py ""));
                (py "children", JArr children)])
    /\ List.map entry_name children
       = List.map (fun e => JStr (fst e)) order
    /\ Permutation order
         [(py "b", Dir [(py "x", File [])]); (py "c", File (py "hi"));
          (py "a", File [])]
    /\ (forall k,
           with_key k order
           = with_key k
               [(py "b", Dir [(py "x", File [])]); (py "c", File (py "hi"));
                (py "a", File [])]).
Proof.
  apply (listing_names_stable srv_backend srv_fs). reflexivity.
Defined.

Lemma listing_counts_every_node_witness :
  exists j,
    fst (get_files srv_backend srv_fs) = Ok j /\ objects j = 5%nat.
Proof.
  apply (listing_counts_every_node srv_backend srv_fs
           [(py "b", Dir [(py "x", File [])]); (py "c", File (py "hi"));
            (py "a", File [])]).
  reflexivity.
Defined.

(* ===================================================================== *)
(** ** Further properties of one-shot execution *)
(* ===================================================================== *)

Lemma startswith_app (p s t : str) :
  startswith p s = true -> startswith p (s ++ t) = true.
Proof.
  revert s. induction p as [|x p IH]; intros s H; [reflexivity|].
  destruct s as [|y s]; simpl in *; [discriminate|].
  apply andb_true_iff in H. destruct H as [H1 H2].
  rewrite H1, (IH s H2). reflexivity.
Qed.

Lemma contains_app (n a b : str) :
  contains n a = true -> contains n (a ++ b) = true.
Proof.
  induction a as [|c a IH]; simpl; intros H.
  - rewrite orb_false_r in H. destruct n; [|discriminate].
    destruct b; reflexivity.
  - apply orb_true_iff in H. destruct H as [H | H].
    + change (c :: a ++ b) with ((c :: a) ++ b).
      rewrite (startswith_app n (c :: a) b H). reflexivity.
    + rewrite (IH H). apply orb_true_r.
Qed.

(** Lowering a text that begins with code points other than the
    capital sigma lowers these one by one. *)
Lemma lower_from_prefix (a : str) :
  Forall (fun c => (c =? 0x3A3) = false) a ->
  forall before r, exists before',
    lower_from before (a ++ r)
    = flat_map lower_cp a ++ lower_from before' r.
Proof.
  induction 1 as [|c a Hc _ IH]; intros before r.
  - exists before. reflexivity.
  - destruct (IH (if case_ignorable c then before else cased c) r)
      as [b' E].
    exists b'. cbn [app lower_from flat_map]. rewrite Hc, E, app_assoc.
    reflexivity.
Qed.

(** The message for a missing command always holds "not found". *)
Lemma not_found_in_message (text : str) :
  contains (py "not found") (lower (py "Command not found: " ++ text)) = true.
Proof.
  unfold lower.
  destruct (lower_from_prefix (py "Command not found: ")
              ltac:(repeat constructor) false text) as [b' E].
  rewrite E. apply contains_app. vm_compute. reflexivity.
Qed.

Section RunnerMore.

Variable World : Type.
Variable os_mkdtemp : World -> PosixPath * World.
Variable os_write_text : World -> PosixPath -> str -> World.
Variable os_rmtree : World -> PosixPath -> World.
Variable os_run :
  World -> list str -> PosixPath -> Z -> option str -> run_outcome * World.

Local Abbreviation runner := (_run_subprocess os_run).
Local Abbreviation RunPython :=
  (run_python os_mkdtemp os_write_text os_rmtree os_run).
Local Abbreviation RunCode :=
  (run_code os_mkdtemp os_write_text os_rmtree os_run).

(** The python branch of both endpoints, by the outcome of the first
    run. *)
Lemma python_branch_spec (tmp : PosixPath) (t : Z) (inp : option str)
  (m1 : machine World) :
  let code_path := joinpath tmp (py "main.py") in
  let first := [py "python"; str_of_path code_path] in
  let second := [py "python3"; str_of_path code_path] in
  let out :=
    match runner first tmp t inp m1 with
    | (Raise e, m2) => (Raise e, m2)
    | (Ok (stdout, stderr), m2) =>
        if contains (py "not found") (lower stderr) then
          match runner second tmp t inp m2 with
          | (Raise e, m3) => (Raise e, m3)
          | (Ok (stdout, stderr), m3) => (Ok (response stdout stderr), m3)
          end
        else (Ok (response stdout stderr), m2)
    end in
  match runner first tmp t inp m1 with
  | (Raise e, _) =>
      fst out = Raise e /\ spawned (snd out) = spawned m1 ++ [first]
  | (Ok (stdout, stderr), m2) =>
      if contains (py "not found") (lower stderr) then
        fst out = answer_of (fst (runner second tmp t inp m2))
        /\ spawned (snd out) = spawned m1 ++ [first; second]
      else
        fst out = Ok (response stdout stderr)
        /\ spawned (snd out) = spawned m1 ++ [first]
  end.
Proof.
  intros code_path first second out. subst out.
  pose proof (@run_subprocess_spawned World os_run first tmp t inp m1) as Hs1.
  destruct (runner first tmp t inp m1) as [[[o e]|x] m2]; simpl in Hs1;
    [|split; [reflexivity | exact Hs1]].
  destruct (contains (py "not found") (lower e));
    [|split; [reflexivity | exact Hs1]].
  pose proof (@run_subprocess_spawned World os_run second tmp t inp m2) as Hs2.
  destruct (runner second tmp t inp m2) as [[[o2 e2]|x2] m3]; simpl in *;
    rewrite Hs2, Hs1, <- app_assoc; split; reflexivity.
Qed.

Lemma run_python_unfold (req : PythonRunRequest) (m : machine World) tmp w0 :
  os_mkdtemp (world m) = (tmp, w0) ->
  utf8_encode (py_code req) <> None ->
  let code_path := joinpath tmp (py "main.py") in
  let first := [py "python"; str_of_path code_path] in
  let second := [py "python3"; str_of_path code_path] in
  let t := timeout_or_10 (py_timeout req) in
  let m1 := written os_write_text w0 code_path (py_code req) m in
  let out :=
    match runner first tmp t (py_stdin req) m1 with
    | (Raise e, m2) => (Raise e, m2)
    | (Ok (stdout, stderr), m2) =>
        if contains (py "not found") (lower stderr) then
          match runner second tmp t (py_stdin req) m2 with
          | (Raise e, m3) => (Raise e, m3)
          | (Ok (stdout, stderr), m3) => (Ok (response stdout stderr), m3)
          end
        else (Ok (response stdout stderr), m2)
    end in
  fst (RunPython req m) = fst out
  /\ spawned (snd (RunPython req m)) = spawned (snd out).
Proof.
  intros Hmk Henc code_path first second t m1 out.
  unfold run_python, TemporaryDirectory. rewrite Hmk.
  rewrite (@write_source_ok World os_write_text _ _ _ Henc).
  fold code_path. fold first. fold second. fold t.
  change (written os_write_text
            (world {| world := w0; spawned := spawned m |}) code_path
            (py_code req) {| world := w0; spawned := spawned m |})
    with m1.
  fold out. destruct out as [r m']. split; reflexivity.
Qed.

Lemma run_code_python_unfold (req : RunRequest) (m : machine World) tmp w0 :
  str_in (strip (lower (language req))) [py "python"; py "py"] = true ->
  os_mkdtemp (world m) = (tmp, w0) ->
  utf8_encode (code req) <> None ->
  let code_path := joinpath tmp (py "main.py") in
  let first := [py "python"; str_of_path code_path] in
  let second := [py "python3"; str_of_path code_path] in
  let m1 := written os_write_text w0 code_path (code req) m in
  let out :=
    match runner first tmp 10%Z None m1 with
    | (Raise e, m2) => (Raise e, m2)
    | (Ok (stdout, stderr), m2) =>
        if contains (py "not found") (lower stderr) then
          match runner second tmp 10%Z None m2 with
          | (Raise e, m3) => (Raise e, m3)
          | (Ok (stdout, stderr), m3) => (Ok (response stdout stderr), m3)
          end
        else (Ok (response stdout stderr), m2)
    end in
  fst (RunCode req m) = fst out
  /\ spawned (snd (RunCode req m)) = spawned (snd out).
Proof.
  intros Hlang Hmk Henc code_path first second m1 out.
  unfold run_code, TemporaryDirectory. rewrite Hmk, Hlang.
  rewrite (@write_source_ok World os_write_text _ _ _ Henc).
  fold code_path. fold first. fold second.
  change (written os_write_text
            (world {| world := w0; spawned := spawned m |}) code_path
            (code req) {| world := w0; spawned := spawned m |})
    with m1.
  unfold run_stage. fold out.
  destruct out as [r m']. split; reflexivity.
Qed.

(** X10.  On both python endpoints, when the [python] command is
    missing on the host the code is always run under [python3]: the
    message [_run_subprocess] makes of the missing command holds "not
    found" whatever the system's wording, so exactly the two commands
    are spawned and the answer is that of the second. *)
Theorem missing_python_falls_back :
  (forall req (m : machine World) tmp w0 text w2,
      os_mkdtemp (world m) = (tmp, w0) ->
      utf8_encode (py_code req) <> None ->
      let code_path := joinpath tmp (py "main.py") in
      let first := [py "python"; str_of_path code_path] in
      let second := [py "python3"; str_of_path code_path] in
      let t := timeout_or_10 (py_timeout req) in
      os_run (os_write_text w0 code_path (py_code req)) first tmp t
        (py_stdin req) = (NotFound text, w2) ->
      fst (RunPython req m)
      = answer_of (fst (runner second tmp t (py_stdin req)
                          {| world := w2; spawned := spawned m ++ [first] |}))
      /\ spawned (snd (RunPython req m)) = spawned m ++ [first; second])
  /\ (forall req (m : machine World) tmp w0 text w2,
      str_in (strip (lower (language req))) [py "python"; py "py"] = true ->
      os_mkdtemp (world m) = (tmp, w0) ->
      utf8_encode (code req) <> None ->
      let code_path := joinpath tmp (py "main.py") in
      let first := [py "python"; str_of_path code_path] in
      let second := [py "python3"; str_of_path code_path] in
      os_run (os_write_text w0 code_path (code req)) first tmp 10%Z None
      = (NotFound text, w2) ->
      fst (RunCode req m)
      = answer_of (fst (runner second tmp 10%Z None
                          {| world := w2; spawned := spawned m ++ [first] |}))
      /\ spawned (snd (RunCode req m)) = spawned m ++ [first; second]).
Proof.
  split.
  - intros req m tmp w0 text w2 Hmk Henc code_path first second t Hrun.
    destruct (run_python_unfold req m tmp w0 Hmk Henc) as [E1 E2].
    rewrite E1, E2. clear E1 E2.
    pose proof (python_branch_spec tmp t (py_stdin req)
      (written os_write_text w0 code_path (py_code req) m)) as H.
    cbv zeta in H. fold code_path first second in H.
    unfold _run_subprocess at 1 3 in H. unfold written in H.
    simpl world in H. simpl spawned in H.
    unfold _run_subprocess at 1 3. unfold written.
    simpl world. simpl spawned.
    rewrite Hrun in *. rewrite not_found_in_message in *. exact H.
  - intros req m tmp w0 text w2 Hlang Hmk Henc code_path first second Hrun.
    destruct (run_code_python_unfold req m tmp w0 Hlang Hmk Henc) as [E1 E2].
    rewrite E1, E2. clear E1 E2.
    pose proof (python_branch_spec tmp 10%Z None
      (written os_write_text w0 code_path (code req) m)) as H.
    cbv zeta in H. fold code_path first second in H.
    unfold _run_subprocess at 1 3 in H. unfold written in H.
    simpl world in H. simpl spawned in H.
    unfold _run_subprocess at 1 3. unfold written.
    simpl world. simpl spawned.
    rewrite Hrun in *. rewrite not_found_in_message in *. exact H.
Qed.

(** X11.  On both python endpoints, when the [stderr] of the run under
    [python] does not hold "not found", that run is the only command
    spawned and its output is the answer. *)
Theorem python_single_run :
  (forall req (m : machine World) tmp w0 out1 err1 m2,
      os_mkdtemp (world m) = (tmp, w0) ->
      utf8_encode (py_code req) <> None ->
      let code_path := joinpath tmp (py "main.py") in
      let first := [py "python"; str_of_path code_path] in
      runner first tmp (timeout_or_10 (py_timeout req)) (py_stdin req)
        (written os_write_text w0 code_path (py_code req) m)
      = (Ok (out1, err1), m2) ->
      contains (py "not found") (lower err1) = false ->
      fst (RunPython req m) = Ok (response out1 err1)
      /\ spawned (snd (RunPython req m)) = spawned m ++ [first])
  /\ (forall req (m : machine World) tmp w0 out1 err1 m2,
      str_in (strip (lower (language req))) [py "python"; py "py"] = true ->
      os_mkdtemp (world m) = (tmp, w0) ->
      utf8_encode (code req) <> None ->
      let code_path := joinpath tmp (py "main.py") in
      let first := [py "python"; str_of_path code_path] in
      runner first tmp 10%Z None
        (written os_write_text w0 code_path (code req) m)
      = (Ok (out1, err1), m2) ->
      contains (py "not found") (lower err1) = false ->
      fst (RunCode req m) = Ok (response out1 err1)
      /\ spawned (snd (RunCode req m)) = spawned m ++ [first]).
Proof.
  split.
  - intros req m tmp w0 out1 err1 m2 Hmk Henc code_path first Hrun Hnf.
    destruct (run_python_unfold req m tmp w0 Hmk Henc) as [E1 E2].
    rewrite E1, E2. clear E1 E2.
    pose proof (python_branch_spec tmp (timeout_or_10 (py_timeout req))
      (py_stdin req)
      (written os_write_text w0 code_path (py_code req) m)) as H.
    cbv zeta in H. subst code_path first.
    rewrite Hrun in *. rewrite Hnf in *. exact H.
  - intros req m tmp w0 out1 err1 m2 Hlang Hmk Henc code_path first Hrun Hnf.
    destruct (run_code_python_unfold req m tmp w0 Hlang Hmk Henc) as [E1 E2].
    rewrite E1, E2. clear E1 E2.
    pose proof (python_branch_spec tmp 10%Z None
      (written os_write_text w0 code_path (code req) m)) as H.
    cbv zeta in H. subst code_path first.
    rewrite Hrun in *. rewrite Hnf in *. exact H.
Qed.

Lemma temporary_directory_spec
  (body : PosixPath -> machine World -> result json * machine World)
  (m : machine World) tmp w0 :
  os_mkdtemp (world m) = (tmp, w0) ->
  let out := body tmp {| world := w0; spawned := spawned m |} in
  fst (TemporaryDirectory os_mkdtemp os_rmtree body m) = fst out
  /\ spawned (snd (TemporaryDirectory os_mkdtemp os_rmtree body m))
     = spawned (snd out)
  /\ world (snd (TemporaryDirectory os_mkdtemp os_rmtree body m))
     = os_rmtree (world (snd out)) tmp.
Proof.
  intros Hmk out. unfold TemporaryDirectory. rewrite Hmk. fold out.
  destruct out as [r m']. repeat split.
Qed.

Lemma run_stage_bounded argv tmp (m1 : machine World) :
  exists cmds,
    spawned (snd (run_stage os_run argv tmp m1)) = spawned m1 ++ cmds
    /\ (List.length cmds <= 2)%nat.
Proof.
  destruct (@run_stage_spec World os_run argv tmp m1) as [_ Hs].
  exists [argv]. split; [exact Hs | simpl; lia].
Qed.

Lemma compile_then_run_bounded cargv rargv tmp (m1 : machine World) :
  exists cmds,
    spawned (snd (compile_then_run os_run cargv rargv tmp m1))
    = spawned m1 ++ cmds
    /\ (List.length cmds <= 2)%nat.
Proof.
  pose proof (@compile_then_run_spec World os_run cargv rargv tmp m1) as H.
  destruct (runner cargv tmp 10%Z None m1) as [[[o e]|x] m2].
  - destruct (nonempty e); destruct H as [_ H].
    + exists [cargv]. split; [exact H | simpl; lia].
    + exists [cargv; rargv]. split; [exact H | simpl; lia].
  - destruct H as [_ H]. exists [cargv]. split; [exact H | simpl; lia].
Qed.

Lemma python_branch_bounded tmp t inp (m1 : machine World) :
  let code_path := joinpath tmp (py "main.py") in
  let first := [py "python"; str_of_path code_path] in
  let second := [py "python3"; str_of_path code_path] in
  exists cmds,
    spawned
      (snd
         (match runner first tmp t inp m1 with
          | (Raise e, m2) => (Raise e, m2)
          | (Ok (stdout, stderr), m2) =>
              if contains (py "not found") (lower stderr) then
                match runner second tmp t inp m2 with
                | (Raise e, m3) => (Raise e, m3)
                | (Ok (stdout, stderr), m3) =>
                    (Ok (response stdout stderr), m3)
                end
              else (Ok (response stdout stderr), m2)
          end : result json * machine World))
    = spawned m1 ++ cmds
    /\ (List.length cmds <= 2)%nat.
Proof.
  intros code_path first second.
  pose proof (python_branch_spec tmp t inp m1) as H. cbv zeta in H.
  fold code_path first second in H.
  destruct (runner first tmp t inp m1) as [[[o e]|x] m2].
  - destruct (contains (py "not found") (lower e)); destruct H as [_ H].
    + exists [first; second]. split; [exact H | simpl; lia].
    + exists [first]. split; [exact H | simpl; lia].
  - destruct H as [_ H]. exists [first]. split; [exact H | simpl; lia].
Qed.

(** Writing the source spawns nothing. *)
Lemma write_source_spawned code_path text (m0 : machine World) :
  spawned (snd (write_source os_write_text code_path text m0)) = spawned m0.
Proof. unfold write_source. destruct (utf8_encode text); reflexivity. Qed.

(** A branch that writes the source and goes on only when that
    succeeded. *)
Lemma after_write_bounded code_path text (m0 : machine World)
  (next : machine World -> result json * machine World) sp :
  spawned m0 = sp ->
  (forall m1, exists cmds,
        spawned (snd (next m1)) = spawned m1 ++ cmds
        /\ (List.length cmds <= 2)%nat) ->
  exists cmds,
    spawned
      (snd (match write_source os_write_text code_path text m0 with
            | (Fail e, m1) => (Raise (Uncaught e), m1)
            | (Done _, m1) => next m1
            end))
    = sp ++ cmds
    /\ (List.length cmds <= 2)%nat.
Proof.
  intros <- Hnext.
  pose proof (write_source_spawned code_path text m0) as Hs.
  destruct (write_source os_write_text code_path text m0) as [[u|e] m1];
    simpl in Hs.
  - destruct (Hnext m1) as (cmds & H & Hlen). exists cmds.
    rewrite H, Hs. split; [reflexivity | exact Hlen].
  - exists []. simpl. rewrite Hs, app_nil_r.
    split; [reflexivity | lia].
Qed.

(** X12.  Every one-shot request, whatever its language and whatever
    the commands do, spawns at most two commands, and ends with the
    removal of the scratch directory it created. *)
Theorem one_shot_bounded :
  (forall req (m : machine World),
      (exists cmds,
          spawned (snd (RunCode req m)) = spawned m ++ cmds
          /\ (List.length cmds <= 2)%nat)
      /\ exists w,
          world (snd (RunCode req m))
          = os_rmtree w (fst (os_mkdtemp (world m))))
  /\ (forall req (m : machine World),
      (exists cmds,
          spawned (snd (RunPython req m)) = spawned m ++ cmds
          /\ (List.length cmds <= 2)%nat)
      /\ exists w,
          world (snd (RunPython req m))
          = os_rmtree w (fst (os_mkdtemp (world m)))).
Proof.
  split; intros req m; destruct (os_mkdtemp (world m)) as [tmp w0] eqn:Hmk.
  - unfold run_code.
    match goal with
    | |- context [TemporaryDirectory _ _ ?b m] =>
        destruct (temporary_directory_spec b m tmp w0 Hmk) as (_ & Hs & Hw)
    end.
    cbv zeta in Hs, Hw. split; [|eexists; exact Hw].
    rewrite Hs. clear Hs Hw.
    destruct (str_in _ [py "python"; py "py"]).
    { apply (after_write_bounded _ _ {| world := w0; spawned := spawned m |}
               (fun m1 =>
                  match
                    runner [py "python";
                            str_of_path (joinpath tmp (py "main.py"))]
                      tmp 10%Z None m1
                  with
                  | (Raise e, m2) => (Raise e, m2)
                  | (Ok (stdout, stderr), m2) =>
                      if contains (py "not found") (lower stderr) then
                        run_stage os_run
                          [py "python3";
                           str_of_path (joinpath tmp (py "main.py"))] tmp m2
                      else (Ok (response stdout stderr), m2)
                  end) (spawned m) eq_refl).
      intros m1. exact (python_branch_bounded tmp 10%Z None m1). }
    destruct (str_in _ [py "c"]).
    { apply (after_write_bounded _ _ {| world := w0; spawned := spawned m |} (compile_then_run os_run _ _ tmp)
               (spawned m) eq_refl).
      intros m1. apply compile_then_run_bounded. }
    destruct (str_in _ [py "cpp"; py "c++"]).
    { apply (after_write_bounded _ _ {| world := w0; spawned := spawned m |} (compile_then_run os_run _ _ tmp)
               (spawned m) eq_refl).
      intros m1. apply compile_then_run_bounded. }
    destruct (str_in _ [py "javascript"; py "js"; py "node"]).
    { apply (after_write_bounded _ _ {| world := w0; spawned := spawned m |} (run_stage os_run _ tmp)
               (spawned m) eq_refl).
      intros m1. apply run_stage_bounded. }
    destruct (str_in _ [py "java"]).
    { apply (after_write_bounded _ _ {| world := w0; spawned := spawned m |} (compile_then_run os_run _ _ tmp)
               (spawned m) eq_refl).
      intros m1. apply compile_then_run_bounded. }
    exists []. split; [simpl; rewrite app_nil_r; reflexivity | simpl; lia].
  - unfold run_python.
    match goal with
    | |- context [TemporaryDirectory _ _ ?b m] =>
        destruct (temporary_directory_spec b m tmp w0 Hmk) as (_ & Hs & Hw)
    end.
    cbv zeta in Hs, Hw. split; [|eexists; exact Hw].
    rewrite Hs. clear Hs Hw.
    apply (after_write_bounded _ _ {| world := w0; spawned := spawned m |}
             (fun m1 =>
                match
                  runner [py "python";
                          str_of_path (joinpath tmp (py "main.py"))]
                    tmp (timeout_or_10 (py_timeout req)) (py_stdin req) m1
                with
                | (Raise e, m2) => (Raise e, m2)
                | (Ok (stdout, stderr), m2) =>
                    if contains (py "not found") (lower stderr) then
                      match
                        runner [py "python3";
                                str_of_path (joinpath tmp (py "main.py"))]
                          tmp (timeout_or_10 (py_timeout req))
                          (py_stdin req) m2
                      with
                      | (Raise e, m3) => (Raise e, m3)
                      | (Ok (stdout, stderr), m3) =>
                          (Ok (response stdout stderr), m3)
                      end
                    else (Ok (response stdout stderr), m2)
                end) (spawned m) eq_refl).
    intros m1.
    exact (python_branch_bounded tmp (timeout_or_10 (py_timeout req))
             (py_stdin req) m1).
Qed.

(** X14.  JavaScript is run as it is: for [javascript], [js] or [node],
    once the source is written, the only command spawned is [node] on
    the source file, and its output is the answer, with no second
    attempt whatever it printed.  A source that cannot be encoded ends
    the request with [UnicodeEncodeError], nothing spawned. *)
Theorem javascript_single_stage (req : RunRequest) (m : machine World)
  tmp w0 :
  str_in (strip (lower (language req)))
    [py "javascript"; py "js"; py "node"] = true ->
  os_mkdtemp (world m) = (tmp, w0) ->
  let code_path := joinpath tmp (py "main.js") in
  let argv := [py "node"; str_of_path code_path] in
  (utf8_encode (code req) <> None ->
   fst (RunCode req m)
   = answer_of (fst (runner argv tmp 10%Z None
                       (written os_write_text w0 code_path (code req) m)))
   /\ spawned (snd (RunCode req m)) = spawned m ++ [argv])
  /\ (utf8_encode (code req) = None ->
      fst (RunCode req m) = Raise (Uncaught UnicodeEncodeError)
      /\ spawned (snd (RunCode req m)) = spawned m).
Proof.
  intros Hlang Hmk code_path argv. apply str_in_cases in Hlang.
  assert (E : RunCode req m
              = (let (r, m') :=
                   match write_source os_write_text code_path (code req)
                           {| world := w0; spawned := spawned m |} with
                   | (Fail e, m1) => (Raise (Uncaught e), m1)
                   | (Done _, m1) => run_stage os_run argv tmp m1
                   end in
                 (r, {| world := os_rmtree (world m') tmp;
                        spawned := spawned m' |}))).
  { unfold run_code, TemporaryDirectory. rewrite Hmk. simpl in Hlang.
    destruct Hlang as [E | [E | [E | []]]]; rewrite <- E; reflexivity. }
  rewrite E. clear E. split.
  - intros Henc.
    rewrite (@write_source_ok World os_write_text _ _ _ Henc).
    change (written os_write_text
              (world {| world := w0; spawned := spawned m |}) code_path
              (code req) {| world := w0; spawned := spawned m |})
      with (written os_write_text w0 code_path (code req) m).
    destruct (@run_stage_spec World os_run argv tmp
                (written os_write_text w0 code_path (code req) m))
      as [Hr Hs].
    destruct (run_stage os_run argv tmp _) as [r m']. simpl in *.
    split; assumption.
  - intros Henc. unfold write_source. rewrite Henc. split; reflexivity.
Qed.

(** The compiled branches of [run_code], each with the command it
    starts with. *)
Lemma run_code_compiled (req : RunRequest) (m : machine World) tmp w0 :
  str_in (strip (lower (language req))) compiled_languages = true ->
  os_mkdtemp (world m) = (tmp, w0) ->
  exists source_name rargv,
    compile_gate os_write_text os_run req m tmp w0 source_name
      (first_command (strip (lower (language req))) tmp) rargv
      (RunCode req m).
Proof.
  intros Hlang Hmk. apply str_in_cases in Hlang. simpl in Hlang.
  destruct Hlang as [E | [E | [E | [E | []]]]]; rewrite <- E.
  - exists (py "main.c"). eexists.
    apply (@compiled_branch World os_write_text os_rmtree os_run).
    unfold run_code, TemporaryDirectory. rewrite Hmk, <- E. reflexivity.
  - exists (py "main.cpp"). eexists.
    apply (@compiled_branch World os_write_text os_rmtree os_run).
    unfold run_code, TemporaryDirectory. rewrite Hmk, <- E. reflexivity.
  - exists (py "main.cpp"). eexists.
    apply (@compiled_branch World os_write_text os_rmtree os_run).
    unfold run_code, TemporaryDirectory. rewrite Hmk, <- E. reflexivity.
  - exists (py "Main.java"). eexists.
    apply (@compiled_branch World os_write_text os_rmtree os_run).
    unfold run_code, TemporaryDirectory. rewrite Hmk, <- E. reflexivity.
Qed.

(** X15.  For a compiled language and a source that can be written, a
    compiler that is missing or that does not end in time stops the
    pipeline like a compile error: the answer is an empty [stdout] with
    a non-empty [stderr] (the message of the failure), and the compiler
    of the language, on the source file, is the only command spawned. *)
Theorem compiler_failure_stops_pipeline (req : RunRequest)
  (m : machine World) :
  (forall w args cwd t inp, not_completed (fst (os_run w args cwd t inp))) ->
  str_in (strip (lower (language req))) compiled_languages = true ->
  utf8_encode (code req) <> None ->
  exists err,
    fst (RunCode req m) = Ok (response (py "") err)
    /\ nonempty err = true
    /\ spawned (snd (RunCode req m))
       = spawned m
         ++ [first_command (strip (lower (language req)))
               (fst (os_mkdtemp (world m)))].
Proof.
  intros Hhost Hlang Henc.
  destruct (os_mkdtemp (world m)) as [tmp w0] eqn:Hmk.
  destruct (run_code_compiled req m tmp w0 Hlang Hmk)
    as (src & rargv & H).
  simpl fst.
  set (cargv := first_command (strip (lower (language req))) tmp) in *.
  unfold compile_gate in H.
  destruct (utf8_encode (code req)) as [b|]; [|congruence].
  cbv zeta in H.
  set (m1 := written os_write_text w0 (joinpath tmp src) (code req) m) in *.
  assert (Hc : exists err m2,
             runner cargv tmp 10%Z None m1 = (Ok (py "", err), m2)
             /\ nonempty err = true).
  { unfold _run_subprocess.
    specialize (Hhost (world m1) cargv tmp 10%Z None).
    destruct (os_run (world m1) cargv tmp 10%Z None) as [o w].
    destruct o; simpl in Hhost; try contradiction;
      eexists; eexists; split; reflexivity. }
  destruct Hc as (err & m2 & Hc & Hne). rewrite Hc in H. rewrite Hne in H.
  destruct H as [H1 H2].
  exists err. repeat split; assumption.
Qed.

End RunnerMore.

Lemma missing_python_falls_back_witness :
  spawned (snd (run_python tmp_host write_host rmtree_host bare_host
                  {| py_code := py "print(1)"; py_stdin := None;
                     py_timeout := None |} boot))
  = [[py "python"; py "/tmp/tmpab12/main.py"];
     [py "python3"; py "/tmp/tmpab12/main.py"]].
Proof.
  destruct (missing_python_falls_back unit tmp_host write_host rmtree_host
              bare_host) as [H _].
  assert (E : utf8_encode (py "print(1)") <> None) by discriminate.
  exact (proj2 (H {| py_code := py "print(1)"; py_stdin := None;
                     py_timeout := None |}
                  boot [py "tmp"; py "tmpab12"] tt
                  (py "[Errno 2] No such file or directory") tt
                  eq_refl E eq_refl)).
Defined.

Lemma python_single_run_witness :
  fst (run_code tmp_host write_host rmtree_host quiet_host
         {| language := py "py"; code := py "pass" |} boot)
  = Ok (response (py "") (py "")).
Proof.
  destruct (python_single_run unit tmp_host write_host rmtree_host
              quiet_host) as [_ H].
  assert (E : utf8_encode (py "pass") <> None) by discriminate.
  assert (Hl : str_in (strip (lower (py "py"))) [py "python"; py "py"] = true)
    by (vm_compute; reflexivity).
  assert (Hnf : contains (py "not found") (lower (py "")) = false)
    by (vm_compute; reflexivity).
  exact (proj1 (H {| language := py "py"; code := py "pass" |}
                  boot [py "tmp"; py "tmpab12"] tt (py "") (py "")
                  {| world := tt;
                     spawned := [[py "python"; py "/tmp/tmpab12/main.py"]] |}
                  Hl eq_refl E eq_refl Hnf)).
Defined.

Lemma javascript_single_stage_witness :
  spawned (snd (run_code tmp_host write_host rmtree_host chatty_host
                  {| language := py "js"; code := py "x" |} boot))
  = [[py "node"; py "/tmp/tmpab12/main.js"]].
Proof.
  assert (Hl : str_in (strip (lower (py "js")))
                 [py "javascript"; py "js"; py "node"] = true)
    by (vm_compute; reflexivity).
  assert (E : utf8_encode (py "x") <> None) by discriminate.
  exact (proj2 (proj1 (javascript_single_stage unit tmp_host write_host
                         rmtree_host chatty_host
                         {| language := py "js"; code := py "x" |} boot
                         [py "tmp"; py "tmpab12"] tt Hl eq_refl) E)).
Defined.

Lemma compiler_failure_stops_pipeline_witness :
  exists err,
    fst (run_code tmp_host write_host rmtree_host bare_host
           {| language := py "java"; code := py "class Main {}" |} boot)
    = Ok (response (py "") err)
    /\ nonempty err = true
    /\ spawned (snd (run_code tmp_host write_host rmtree_host bare_host
                       {| language := py "java";
                          code := py "class Main {}" |} boot))
       = [[py "javac"; py "/tmp/tmpab12/Main.java"]].
Proof.
  assert (Hl : str_in (strip (lower (py "java"))) compiled_languages = true)
    by (vm_compute; reflexivity).
  assert (E : utf8_encode (py "class Main {}") <> None) by discriminate.
  destruct (compiler_failure_stops_pipeline unit tmp_host write_host
              rmtree_host bare_host
              {| language := py "java"; code := py "class Main {}" |} boot
              (fun _ _ _ _ _ => I) Hl E) as (err & H1 & H2 & H3).
  exists err. split; [exact H1|]. split; [exact H2|]. exact H3.
Defined.

(* ===================================================================== *)
(** ** Further properties of the interactive session *)
(* ===================================================================== *)

Section SessionMore.

Variable json_loads : str -> option json.

Local Abbreviation Step := (step json_loads).
Local Abbreviation Run := (run json_loads).
Local Abbreviation WsPython := (ws_python json_loads).

Lemma step_process_inv (s s' : session) (ev : event) :
  process_inv s -> Step s ev = Some s' -> process_inv s'.
Proof.
  intros Hinv Hstep.
  destruct ev as [msg a| |e|t line a|t e|status]; simpl in Hstep.
  - destruct (state s) eqn:Hst; [| |discriminate]; injection Hstep as <-.
    + unfold start. destruct (source_text (first_code json_loads msg));
        [destruct a|]; unfold process_inv; simpl; auto.
      split; [eexists; reflexivity|]. repeat split; discriminate.
    + unfold forward. unfold process_inv in Hinv. rewrite Hst in Hinv.
      destruct Hinv as ([rc Hp] & Hsrc & Ho & He). rewrite Hp.
      destruct (utf8_encode (msg ++ [10])); [destruct a|];
        unfold process_inv; simpl; auto.
      rewrite Hst. split; [eexists; reflexivity|]. repeat split; assumption.
  - destruct (state s); [| |discriminate]; injection Hstep as <-;
      unfold process_inv; simpl; exact I.
  - destruct (state s); [| |discriminate]; injection Hstep as <-;
      unfold process_inv; simpl; exact I.
  - destruct (task_of s t) as [[| | |]|] eqn:Ht; try discriminate.
    injection Hstep as <-.
    unfold process_inv in *. unfold pump.
    destruct line; [|destruct a]; simpl; destruct (state s); auto;
      destruct Hinv as (Hp & Hsrc & Ho & He);
      (split; [exact Hp|]); (split; [exact Hsrc|]);
      destruct t; split; try assumption; discriminate.
  - destruct (task_of s t) as [[| | |]|] eqn:Ht; try discriminate.
    injection Hstep as <-.
    unfold process_inv in *. simpl. destruct (state s); auto.
    destruct Hinv as (Hp & Hsrc & Ho & He).
    (split; [exact Hp|]); (split; [exact Hsrc|]);
      destruct t; split; try assumption; discriminate.
  - unfold exited in Hstep. destruct (proc s) as [pr|] eqn:Hp; [|discriminate].
    destruct (returncode pr) eqn:Hrc; [discriminate|]. injection Hstep as <-.
    unfold process_inv in *. simpl. destruct (state s); auto.
    + congruence.
    + destruct Hinv as ([rc Hpr] & Hrest). rewrite Hp in Hpr.
      injection Hpr as ->. simpl.
      split; [eexists; reflexivity | exact Hrest].
Qed.

Lemma run_process_inv (evs : list event) :
  forall s s', process_inv s -> Run s evs = Some s' -> process_inv s'.
Proof.
  induction evs as [|ev evs IH]; intros s s' Hinv H; simpl in H.
  - injection H as <-. exact Hinv.
  - destruct (Step s ev) as [s1|] eqn:Hs; [|discriminate].
    apply (IH s1 s'); [apply (step_process_inv s s1 ev Hinv Hs) | exact H].
Qed.

(** X16.  While the handler of a session is in its input loop, under
    any schedule: the subprocess exists and has not been sent a kill,
    the scratch directory exists, the source has been written, and both
    pump tasks exist. *)
Theorem running_session_intact (evs : list event) (s : session) :
  WsPython evs = Some s -> state s = Running ->
  (exists rc, proc s = Some {| returncode := rc; kill_sent := false |})
  /\ scratch s = ScratchExists
  /\ source s <> None
  /\ stdout_task s <> None /\ stderr_task s <> None.
Proof.
  intros Hrun Hst.
  assert (H0 : process_inv accepted) by reflexivity.
  pose proof (run_process_inv evs accepted s H0 Hrun) as H1.
  pose proof (@run_inv json_loads evs accepted s accepted_inv Hrun) as H2.
  unfold process_inv in H1. unfold session_inv in H2. rewrite Hst in *.
  destruct H1 as (Hp & Hsrc & Ho & He). destruct H2 as [_ Hsc].
  repeat split; assumption.
Qed.

(** X17.  The session outlives its subprocess and its streams: an event
    of a pump or of the subprocess (a line, the end of a stream, a read
    error, the exit of the subprocess) changes neither the state of the
    handler nor what was written to [stdin].  A handler in its loop is
    ended only by a disconnect, by an error of the channel, or by a
    received message that cannot be encoded or whose drain raises. *)
Theorem what_ends_the_handler :
  (forall s s' ev,
      Step s ev = Some s' -> background ev ->
      state s' = state s /\ stdin_log s' = stdin_log s)
  /\ (forall s s' ev e,
      state s = Running -> Step s ev = Some s' -> state s' = Terminated e ->
      (ev = Disconnect /\ e = None)
      \/ (exists x, ev = ChannelError x /\ e = Some x)
      \/ (exists msg a,
             ev = Receive msg a
             /\ ((utf8_encode (msg ++ [10]) = None
                  /\ e = Some UnicodeEncodeError)
                 \/ (exists x, a = Fail x /\ e = Some x)))).
Proof.
  split.
  - intros s s' ev Hstep Hbg.
    destruct ev as [msg a| |e|t line a|t e|status]; simpl in Hbg;
      try contradiction; simpl in Hstep.
    + destruct (task_of s t) as [[| | |]|]; try discriminate.
      injection Hstep as <-. unfold pump.
      destruct line; [|destruct a]; split; reflexivity.
    + destruct (task_of s t) as [[| | |]|]; try discriminate.
      injection Hstep as <-. split; reflexivity.
    + unfold exited in Hstep. destruct (proc s) as [pr|]; [|discriminate].
      destruct (returncode pr); [discriminate|]. injection Hstep as <-.
      split; reflexivity.
  - intros s s' ev e Hst Hstep He.
    destruct ev as [msg a| |x|t line a|t x|status]; simpl in Hstep.
    + rewrite Hst in Hstep. injection Hstep as <-.
      right. right. exists msg, a. split; [reflexivity|].
      unfold forward in He. destruct (proc s); [|congruence].
      destruct (utf8_encode (msg ++ [10])).
      * destruct a; simpl in He; [congruence|].
        right. eexists. split; [reflexivity | congruence].
      * left. simpl in He. split; [reflexivity | congruence].
    + rewrite Hst in Hstep. injection Hstep as <-. simpl in He.
      left. split; [reflexivity | congruence].
    + rewrite Hst in Hstep. injection Hstep as <-. simpl in He.
      right. left. exists x. split; [reflexivity | congruence].
    + destruct (task_of s t) as [[| | |]|]; try discriminate.
      injection Hstep as <-. unfold pump in He.
      destruct line; [|destruct a]; simpl in He; congruence.
    + destruct (task_of s t) as [[| | |]|]; try discriminate.
      injection Hstep as <-. simpl in He. congruence.
    + unfold exited in Hstep. destruct (proc s) as [pr|]; [|discriminate].
      destruct (returncode pr); [discriminate|]. injection Hstep as <-.
      simpl in He. congruence.
Qed.

Lemma source_text_string (s : str) :
  utf8_encode s <> None -> source_text (JStr s) = Done s.
Proof.
  intros H. unfold source_text. destruct s as [|c r]; [reflexivity|].
  cbn [truthy]. destruct (utf8_encode (c :: r)); [reflexivity | congruence].
Qed.

(** X18.  The first message of a session decides the program.  If it is
    not JSON, or is JSON but not an object, the message itself is the
    program; if it is an object with a string under [code], that string
    is; if the object has no [code], the empty program is run; and if
    [code] holds a non-empty value that is not a string, the handler
    ends with [TypeError] before any subprocess is created, the scratch
    directory removed. *)
Theorem first_message_program (first : str) :
  let s' := start json_loads accepted first (Done tt) in
  (match json_loads first with
   | Some v => is_object v = false
   | None => True
   end ->
   utf8_encode first <> None ->
   state s' = Running /\ source s' = Some first)
  /\ (forall fields c,
         json_loads first = Some (JObj fields) ->
         assoc (py "code") fields = Some (JStr c) ->
         utf8_encode c <> None ->
         state s' = Running /\ source s' = Some c)
  /\ (forall fields,
         json_loads first = Some (JObj fields) ->
         assoc (py "code") fields = None ->
         state s' = Running /\ source s' = Some (py ""))
  /\ (forall fields v,
         json_loads first = Some (JObj fields) ->
         assoc (py "code") fields = Some v ->
         truthy v = true -> is_string v = false ->
         state s' = Terminated (Some TypeError)
         /\ proc s' = None /\ scratch s' = ScratchDeleted).
Proof.
  intros s'. subst s'. unfold start, first_code.
  split; [|split; [|split]].
  - intros Hv Henc.
    assert (E : match json_loads first with
                | Some (JObj fields) =>
                    dict_get (JObj fields) (py "code") (JStr (py ""))
                | _ => JStr first
                end = JStr first).
    { destruct (json_loads first) as [[]|]; try reflexivity. discriminate. }
    rewrite E, (source_text_string first Henc). split; reflexivity.
  - intros fields c Hj Ha Henc. rewrite Hj. cbn [dict_get]. rewrite Ha.
    rewrite (source_text_string c Henc). split; reflexivity.
  - intros fields Hj Ha. rewrite Hj. cbn [dict_get]. rewrite Ha.
    split; reflexivity.
  - intros fields v Hj Ha Ht Hs. rewrite Hj. cbn [dict_get]. rewrite Ha.
    unfold source_text. rewrite Ht.
    destruct v; try discriminate; repeat split.
Qed.

End SessionMore.

Lemma running_session_intact_witness :
  (exists rc, proc (forward
                      (start no_json accepted
                         (py "while True: print(input())") (Done tt))
                      (py "hello") (Done tt))
              = Some {| returncode := rc; kill_sent := false |}).
Proof.
  apply (running_session_intact no_json
           [Receive (py "while True: print(input())") (Done tt);
            Receive (py "hello") (Done tt)] _ eq_refl eq_refl).
Defined.

Lemma what_ends_the_handler_witness :
  state (start no_json accepted (py "x") (Done tt)) = Running
  /\ option_map state
       (step no_json (start no_json accepted (py "x") (Done tt))
          (ProcessExit 0%Z))
     = Some Running.
Proof.
  split; [reflexivity|].
  destruct (what_ends_the_handler no_json) as [H _].
  destruct (H (start no_json accepted (py "x") (Done tt)) _
              (ProcessExit 0%Z) eq_refl I) as [E _].
  simpl. f_equal.
Defined.

Lemma first_message_program_witness :
  source (start toy_json accepted msg_program (Done tt))
  = Some (py "print(1)")
  /\ source (start toy_json accepted msg_empty (Done tt)) = Some (py "")
  /\ state (start toy_json accepted msg_number (Done tt))
     = Terminated (Some TypeError)
  /\ source (start toy_json accepted (py "print(2)") (Done tt))
     = Some (py "print(2)").
Proof.
  split; [|split; [|split]].
  - apply (proj1 (proj2 (first_message_program toy_json msg_program))
             [(py "code", JStr (py "print(1)"))] (py "print(1)"));
      [reflexivity | reflexivity | discriminate].
  - apply (proj1 (proj2 (proj2 (first_message_program toy_json msg_empty)))
             []); reflexivity.
  - apply (proj2 (proj2 (proj2 (first_message_program toy_json msg_number)))
             [(py "code", JNum 5%Z)] (JNum 5%Z)); reflexivity.
  - apply (proj1 (first_message_program toy_json (py "print(2)")));
      [exact I | discriminate].
Defined.

(* ===================================================================== *)
(** ** Containment of saving, absolute paths, and files in the way *)
(* ===================================================================== *)

Lemma prefix_of_within (ws path q : PosixPath) :
  within ws path -> is_prefix q path -> is_prefix q ws \/ within ws q.
Proof.
  intros Hw [x Hx].
  assert (Hr : exists rest, path = ws ++ rest).
  { destruct Hw as [E | [rest [_ E]]].
    - exists []. rewrite app_nil_r. exact E.
    - exists rest. exact E. }
  destruct Hr as [rest Hr]. rewrite Hr in Hx.
  apply app_eq_app in Hx. destruct Hx as [l [[E _] | [E _]]].
  - left. exists l. exact E.
  - right. destruct l as [|c l].
    + left. rewrite app_nil_r in E. exact E.
    + right. exists (c :: l). split; [discriminate | exact E].
Qed.

Lemma mkdir_rec_below_file (q : PosixPath) :
  forall (n : node) (r : PosixPath) (b : bytes),
    Forall (fun c => (NAME_MAX <? fs_length c) = false) q ->
    lookup n q = Some (File b) ->
    mkdir_rec n (q ++ r) = (Fail (mkdir_blocked r), n).
Proof.
  induction q as [|c q IH]; intros n r b Hs H; simpl in H.
  - injection H as ->. destruct r; reflexivity.
  - destruct n as [d|es]; [discriminate|].
    inversion Hs as [|? ? Hc Hq]; subst. simpl. rewrite Hc.
    destruct (assoc c es) as [ch|] eqn:Ha; [|discriminate].
    rewrite (IH ch r b Hq H), (put_same _ _ _ Ha). reflexivity.
Qed.

(** The first test of the kernel on a path whose names can be
    converted is the one of its length. *)
Lemma getname_convertible (p : PosixPath) :
  first_name_error p = None ->
  getname p = if PATH_MAX <=? path_length p then Some OSError else None.
Proof.
  intros H. destruct (first_name_error_none _ H) as [H1 H2].
  unfold getname. rewrite H1, H2. reflexivity.
Qed.

Lemma getname_first_name_error (p : PosixPath) :
  getname p = None -> first_name_error p = None.
Proof.
  intros H. apply getname_none in H. destruct H as (H1 & H2 & _).
  induction p as [|c p IH]; [reflexivity|].
  simpl in H1, H2. apply orb_false_iff in H1, H2.
  destruct H1 as [H1 H1'], H2 as [H2 H2'].
  simpl. unfold name_error. rewrite H1, H2. apply IH; assumption.
Qed.

Lemma guard_convertible (base : PosixPath) (p : str) (fs : node)
  (path : PosixPath) :
  fst (safe_workspace_path resolve base p fs) = Ok path ->
  first_name_error path = None.
Proof.
  intros H. destruct (guard_target base p fs path H) as [He ->].
  apply (first_name_error_normalize _ [] eq_refl He).
Qed.

(** A path that is too long is refused before anything is made; below a
    regular file nothing can be made. *)
Lemma mkdir_p_below_file (q : PosixPath) (n : node) (r : PosixPath)
  (b : bytes) :
  first_name_error (q ++ r) = None ->
  Forall (fun c => (NAME_MAX <? fs_length c) = false) q ->
  lookup n q = Some (File b) ->
  mkdir_p n (q ++ r)
  = (Fail (if PATH_MAX <=? path_length (q ++ r) then OSError
           else mkdir_blocked r), n).
Proof.
  intros He Hs H. unfold mkdir_p. rewrite (getname_convertible _ He).
  destruct (PATH_MAX <=? path_length (q ++ r)); [reflexivity|].
  apply (mkdir_rec_below_file q n r b Hs H).
Qed.

(** Creating directories creates no file and changes none. *)
Lemma mkdir_rec_files (p : PosixPath) :
  forall (n n' : node) (o : io unit) (q : PosixPath) (b : bytes),
    mkdir_rec n p = (o, n') ->
    lookup n' q = Some (File b) -> lookup n q = Some (File b).
Proof.
  induction p as [|c r IH]; intros n n' o q b H Hl; simpl in H.
  - destruct n; injection H as _ <-; exact Hl.
  - destruct n as [|es]; [injection H as _ <-; exact Hl|].
    destruct (NAME_MAX <? fs_length c); [injection H as _ <-; exact Hl|].
    destruct (mkdir_rec
                (match assoc c es with Some ch => ch | None => Dir [] end) r)
      as [o' ch'] eqn:Hm.
    injection H as _ <-.
    destruct q as [|d q]; [discriminate|].
    rewrite lookup_put in Hl.
    destruct (str_eqb d c) eqn:E; [|exact Hl].
    pose proof (IH _ ch' o' q b Hm Hl) as H0.
    apply str_eqb_eq in E. subst d. simpl.
    destruct (assoc c es); [exact H0|].
    destruct q; simpl in H0; discriminate.
Qed.

Lemma mkdir_p_files (p : PosixPath) (n n' : node) (o : io unit)
  (q : PosixPath) (b : bytes) :
  mkdir_p n p = (o, n') ->
  lookup n' q = Some (File b) -> lookup n q = Some (File b).
Proof.
  unfold mkdir_p. destruct (getname p).
  - intros [= _ <-] H. exact H.
  - apply mkdir_rec_files.
Qed.

Section SaveContained.

Variable BASE_DIR : PosixPath.

Local Abbreviation WS := (WORKSPACE_DIR BASE_DIR).

(** X19.  Saving never reaches outside the workspace: at every location
    that is neither in the workspace nor one of the directories above
    it, the file system holds after [save_file] (whatever the path and
    the text asked for, and whether the call succeeded or raised) what
    it held before. *)
Theorem save_file_contained (p c : str) (fs : node) (q : PosixPath) :
  ~ is_prefix q WS -> ~ within WS q ->
  lookup (snd (save_file BASE_DIR {| save_path := p; save_content := c |} fs)) q
  = lookup fs q.
Proof.
  intros Habove Hin. unfold save_file. cbn [save_path save_content].
  rewrite safe_workspace_path_pure.
  destruct (fst (safe_workspace_path resolve BASE_DIR p (Dir [])))
    as [path|e] eqn:Hguard; [|reflexivity].
  pose proof (@safe_workspace_path_plain _ _ _ _ Hguard) as Hplain.
  pose proof (@safe_workspace_path_within _ _ _ _ Hguard) as Hw.
  assert (Hq : ~ is_prefix q path).
  { intros Hp. destruct (prefix_of_within WS path q Hw Hp); contradiction. }
  destruct (mkdir_p fs (parent path)) as [o fs2] eqn:Hmk.
  assert (H2 : lookup fs2 q = lookup fs q).
  { apply (mkdir_p_frame (parent path) fs fs2 o q Hmk).
    intros Hp. apply Hq. apply is_prefix_parent. exact Hp. }
  destruct o as [u|e]; [|exact H2].
  assert (Hwr : forall d fs3, write_bytes fs2 path d = Done fs3 ->
                              lookup fs3 q = lookup fs q).
  { intros d fs3 E. apply (@write_bytes_plain fs2 fs3 path d Hplain) in E.
    rewrite (@store_frame path fs2 fs3 q d E Hq). exact H2. }
  unfold write_text. destruct (utf8_encode c) as [b|].
  - destruct (write_bytes fs2 path b) as [fs3|e] eqn:E; simpl;
      [apply (Hwr b fs3 E) | exact H2].
  - destruct (write_bytes fs2 path []) as [fs3|e] eqn:E; simpl;
      [apply (Hwr [] fs3 E) | exact H2].
Qed.

(** X21.  The [mkdir] calls of [save_file] and [upload_files] are
    outside any [try]: when a regular file is where a directory is
    needed (at the parent of the file to save or above it; at the
    destination of an upload or above it), the exception of [mkdir]
    leaves the endpoint as it is, not as an [HTTPException], and nothing
    has been written.  The exception is the one of the file in the way,
    unless the path is too long for the system, which is found first. *)
Theorem file_in_the_way (p : str) (fs : node) (path q r : PosixPath)
  (b : bytes) :
  fst (safe_workspace_path resolve BASE_DIR p fs) = Ok path ->
  lookup fs q = Some (File b) ->
  Forall (fun c => (NAME_MAX <? fs_length c) = false) q ->
  (parent path = q ++ r ->
   forall c,
     save_file BASE_DIR {| save_path := p; save_content := c |} fs
     = (Raise (Uncaught (if PATH_MAX <=? path_length (parent path)
                         then OSError else mkdir_blocked r)), fs))
  /\ (path = q ++ r ->
      forall files,
        upload_files BASE_DIR files p fs
        = (Raise (Uncaught (if PATH_MAX <=? path_length path
                            then OSError else mkdir_blocked r)), fs)).
Proof.
  intros Hguard Hfile Hshort.
  rewrite safe_workspace_path_pure in Hguard. simpl in Hguard.
  pose proof (guard_convertible BASE_DIR p (Dir []) path Hguard) as He.
  split.
  - intros Hpar c. unfold save_file. cbn [save_path save_content].
    rewrite safe_workspace_path_pure, Hguard.
    apply first_name_error_removelast in He. fold (parent path) in He.
    rewrite Hpar in *.
    rewrite (mkdir_p_below_file q fs r b He Hshort Hfile). reflexivity.
  - intros Hpath files. unfold upload_files.
    rewrite safe_workspace_path_pure, Hguard. rewrite Hpath in *.
    rewrite (mkdir_p_below_file q fs r b He Hshort Hfile). reflexivity.
Qed.

End SaveContained.

Lemma save_file_contained_witness :
  lookup (snd (save_file srv_backend
                 {| save_path := py "b/new.txt"; save_content := py "x" |}
                 srv_fs))
         [py "srv"; py "backend"; py "main.py"]
  = Some (File []).
Proof.
  rewrite (save_file_contained srv_backend (py "b/new.txt") (py "x") srv_fs
             [py "srv"; py "backend"; py "main.py"]).
  - reflexivity.
  - intros [x Hx]. vm_compute in Hx. discriminate.
  - intros [E | [rest [_ E]]]; vm_compute in E; discriminate.
Defined.

Lemma file_in_the_way_witness :
  save_file srv_backend
    {| save_path := py "c/x/y.txt"; save_content := py "text" |} srv_fs
  = (Raise (Uncaught NotADirectoryError), srv_fs)
  /\ upload_files srv_backend [] (py "c") srv_fs
     = (Raise (Uncaught FileExistsError), srv_fs).
Proof.
  assert (Hs : Forall (fun c => (NAME_MAX <? fs_length c) = false)
                 [py "srv"; py "backend"; py "workspace"; py "c"]).
  { repeat constructor. }
  split.
  - apply (proj1 (file_in_the_way srv_backend (py "c/x/y.txt") srv_fs
                    [py "srv"; py "backend"; py "workspace"; py "c"; py "x";
                     py "y.txt"]
                    [py "srv"; py "backend"; py "workspace"; py "c"]
                    [py "x"] (py "hi") eq_refl eq_refl Hs) eq_refl).
  - apply (proj2 (file_in_the_way srv_backend (py "c") srv_fs
                    [py "srv"; py "backend"; py "workspace"; py "c"]
                    [py "srv"; py "backend"; py "workspace"; py "c"]
                    [] (py "hi") eq_refl eq_refl Hs) eq_refl).
Defined.

(* ===================================================================== *)
(** ** How saving, uploading, listing and opening compose *)
(* ===================================================================== *)

Lemma lookup_snoc (q : PosixPath) :
  forall (n x : node) (c : str),
    lookup n (q ++ [c]) = Some x ->
    exists es, lookup n q = Some (Dir es) /\ assoc c es = Some x.
Proof.
  induction q as [|d q IH]; intros n x c H; simpl in *.
  - destruct n as [b|es]; [discriminate|]. exists es.
    split; [reflexivity|]. destruct (assoc c es); [exact H | discriminate].
  - destruct n as [b|es]; [discriminate|].
    destruct (assoc d es) as [ch|]; [|discriminate]. apply IH. exact H.
Qed.

Lemma assoc_In (A : Type) (k : str) (l : list (str * A)) (v : A) :
  assoc k l = Some v -> In (k, v) l.
Proof.
  induction l as [|[k' v'] l IH]; simpl; [discriminate|].
  destruct (str_eqb k k') eqn:E.
  - apply str_eqb_eq in E. subst k'. intros H. left. congruence.
  - intros H. right. apply IH. exact H.
Qed.

Lemma Forall2_In_left (A B : Type) (R : A -> B -> Prop) (l : list A)
  (l' : list B) (x : A) :
  Forall2 R l l' -> In x l -> exists y, In y l' /\ R x y.
Proof.
  induction 1 as [|a b l l' Hab _ IH]; intros Hin; [destruct Hin|].
  destruct Hin as [<- | Hin].
  - exists b. split; [left; reflexivity | exact Hab].
  - destruct (IH Hin) as (y & Hy & Hr). exists y.
    split; [right; exact Hy | exact Hr].
Qed.

Lemma split_on_components (sep : N) (s : str) :
  Forall (fun c => ~ In sep c) (split_on sep s).
Proof.
  induction s as [|c r IH]; simpl.
  - constructor; [intros [] | constructor].
  - destruct (c =? sep) eqn:E.
    + constructor; [intros [] | exact IH].
    + apply N.eqb_neq in E. destruct (split_on sep r) as [|h t].
      * constructor; [|constructor]. intros [H | []]. congruence.
      * inversion IH as [|? ? Hh Ht]; subst. constructor; [|exact Ht].
        intros [H | H]; [congruence | exact (Hh H)].
Qed.

Lemma path_parts_components (s : str) : Forall component (path_parts s).
Proof.
  unfold path_parts. apply Forall_forall. intros c Hc.
  apply filter_In in Hc. destruct Hc as [Hin Hf].
  apply negb_true_iff, orb_false_iff in Hf. destruct Hf as [H1 H2].
  apply str_eqb_neq in H1, H2.
  pose proof (split_on_components 47 s) as Hall.
  rewrite Forall_forall in Hall.
  split; [exact H1 | split; [exact (Hall c Hin) | exact H2]].
Qed.

Lemma split_on_app_sep (sep : N) (x s : str) :
  ~ In sep x -> split_on sep (x ++ sep :: s) = x :: split_on sep s.
Proof.
  induction x as [|c x IH]; intros H; simpl.
  - rewrite N.eqb_refl. reflexivity.
  - destruct (c =? sep) eqn:E.
    + apply N.eqb_eq in E. exfalso. apply H. left. exact E.
    + rewrite IH; [reflexivity|]. intros Hin. apply H. right. exact Hin.
Qed.

Lemma path_parts_join_slash (l : list str) :
  Forall component l -> path_parts (join_slash l) = l.
Proof.
  induction l as [|x l IH]; intros Hall; [reflexivity|].
  inversion Hall as [|? ? (Hne & Hsl & Hdot) Hrest]; subst.
  apply str_eqb_neq in Hne, Hdot.
  destruct l as [|y l].
  - simpl. unfold path_parts. rewrite (split_on_no_sep 47 x Hsl).
    simpl. rewrite Hne, Hdot. reflexivity.
  - change (join_slash (x :: y :: l)) with (x ++ 47 :: join_slash (y :: l)).
    unfold path_parts. rewrite (split_on_app_sep 47 x _ Hsl).
    simpl filter. rewrite Hne, Hdot. simpl negb. cbv iota.
    f_equal. apply (IH Hrest).
Qed.

Lemma join_slash_relative (l : list str) :
  Forall component l -> is_absolute (join_slash l) = false.
Proof.
  intros Hall. destruct l as [|x l]; [reflexivity|].
  inversion Hall as [|? ? (Hne & Hsl & _) _]; subst.
  destruct x as [|c r]; [contradiction|].
  assert (E : (c =? 47) = false).
  { apply N.eqb_neq. intros ->. apply Hsl. left. reflexivity. }
  destruct l; simpl; exact E.
Qed.

Lemma simple_name_component (nm : str) : simple_name nm -> component nm.
Proof. intros (H1 & H2 & H3 & _). split; [|split]; assumption. Qed.

Section Composition.

Variable BASE_DIR : PosixPath.

Local Abbreviation WS := (WORKSPACE_DIR BASE_DIR).

Lemma plain_workspace : plain BASE_DIR -> plain WS.
Proof.
  intros Hb. rewrite workspace_dir_eq. apply plain_app; [exact Hb|].
  constructor; [discriminate | constructor].
Qed.

(** X22.  A file saved in the workspace root shows up in the tree: after
    a successful save under a plain file name, [GET /files] answers with
    the root folder, and among its children is the file entry of that
    name, whose path is the name. *)
Theorem saved_file_is_listed (nm c : str) (fs fs' : node) (r : json) :
  plain BASE_DIR -> simple_name nm ->
  save_file BASE_DIR {| save_path := nm; save_content := c |} fs
  = (Ok r, fs') ->
  exists children,
    fst (get_files BASE_DIR fs')
    = Ok (JObj [(py "type", JStr (py "folder"));
                (py "name", JStr (py "workspace"));
                (py "path", JStr (py ""));
                (py "children", JArr children)])
    /\ In (JObj [(py "type", JStr (py "file"));
                 (py "name", JStr nm);
                 (py "path", JStr nm)]) children.
Proof.
  intros Hb Hs Hsave.
  destruct (save_file_stored BASE_DIR nm c fs fs' r Hsave)
    as (path & b & fs2 & Hguard & Hplain & Hlim & Hmk & Henc & Hst & _).
  pose proof (plain_workspace Hb) as Hws.
  assert (Hpath : path = WS ++ [nm]).
  { destruct (guard_target BASE_DIR nm (Dir []) path Hguard) as [_ ->].
    rewrite (joinpath_simple WS nm Hs).
    apply (normalize_plain_app (WS ++ [nm]) []).
    apply plain_app; [exact Hws|]. constructor; [|constructor].
    destruct Hs as (_ & _ & _ & H). exact H. }
  subst path.
  assert (Hlw : within_limits WS).
  { pose proof (within_limits_parent _ Hlim) as H. unfold parent in H.
    rewrite removelast_last in H. exact H. }
  pose proof (@store_lookup _ fs2 fs' b Hst) as Hfile.
  destruct (lookup_snoc WS fs' (File b) nm Hfile) as (es & Hdir & Hassoc).
  destruct (get_files_children BASE_DIR fs' es) as (children & Hget & Hall).
  { rewrite (stat_plain fs' WS Hws Hlw). exact Hdir. }
  exists children. split; [exact Hget|].
  apply assoc_In in Hassoc.
  assert (Hin : In (nm, File b) (sorted child_key es)).
  { apply (Permutation_in _ (Permutation_sym (@sorted_perm _ child_key es))).
    exact Hassoc. }
  destruct (Forall2_In_left _ _ _ _ _ _ Hall Hin) as (j & Hj & Hl).
  inversion Hl; subst. exact Hj.
Qed.

(** The files of a successful upload are at paths within the limits. *)
Lemma upload_loop_limits (d : PosixPath) (files : list UploadFile) :
  forall (acc : list str) (fs fs' : node) (stored : list str),
    plain d ->
    Forall (fun uf => simple_name (filename uf)) files ->
    upload_loop BASE_DIR d files acc fs = (Ok stored, fs') ->
    forall uf, In uf files -> within_limits (d ++ [filename uf]).
Proof.
  induction files as [|uf files IH]; intros acc fs fs' stored Hd Hall H;
    simpl in H; [intros uf []|].
  inversion Hall as [|? ? Hs Hrest]; subst.
  rewrite (joinpath_simple _ _ Hs) in H.
  destruct (write_bytes fs (d ++ [filename uf]) (file uf))
    as [fs1|e] eqn:Hw; [|discriminate].
  cbn [uncaught] in H.
  destruct (relative_str BASE_DIR (d ++ [filename uf])) as [rel|e];
    [|discriminate].
  assert (Hp : plain (d ++ [filename uf])).
  { apply plain_app; [exact Hd|]. constructor; [|constructor].
    destruct Hs as (_ & _ & _ & Hdd). exact Hdd. }
  intros uf' [<- | Hin].
  - apply (@write_bytes_done fs fs1 _ _ Hp Hw).
  - apply (IH _ _ _ _ Hd Hrest H uf' Hin).
Qed.

(** X23.  What an upload answers can be opened: for a relative
    destination without [..] and distinct plain file names, a successful
    upload lists each file as destination, slash, name, and opening that
    very string returns the text of the file sent (decoded as UTF-8,
    read with universal newlines). *)
Theorem upload_then_open (files : list UploadFile) (dest : str)
  (fs fs' : node) (j : json) :
  plain BASE_DIR -> is_absolute dest = false -> plain (path_parts dest) ->
  Forall (fun uf => simple_name (filename uf)) files ->
  NoDup (List.map filename files) ->
  upload_files BASE_DIR files dest fs = (Ok j, fs') ->
  let stored := fun uf => join_slash (path_parts dest ++ [filename uf]) in
  j = JObj [(py "stored", JArr (List.map (fun uf => JStr (stored uf)) files))]
  /\ forall uf s,
      In uf files -> utf8_decode (file uf) = Some s ->
      fst (open_file BASE_DIR {| open_path := stored uf |} fs')
      = Ok (JObj [(py "path", JStr (stored uf));
                  (py "content", JStr (universal_newlines s))]).
Proof.
  intros Hb Ha Hp Hall Hnd Hup stored.
  pose proof (plain_workspace Hb) as Hws.
  pose proof (plain_app _ _ Hws Hp) as Hd.
  unfold upload_files in Hup. rewrite safe_workspace_path_pure in Hup.
  destruct (fst (safe_workspace_path resolve BASE_DIR dest (Dir [])))
    as [d|e] eqn:Hguard; [|discriminate].
  assert (Hdd : d = WS ++ path_parts dest).
  { destruct (guard_target BASE_DIR dest (Dir []) d Hguard) as [_ ->].
    unfold joinpath at 1. rewrite Ha.
    apply (normalize_plain_app _ [] Hd). }
  subst d.
  destruct (mkdir_p fs (WS ++ path_parts dest)) as [[u|e] fs2] eqn:Hmk;
    [|discriminate].
  destruct (upload_loop BASE_DIR (WS ++ path_parts dest) files [] fs2)
    as [[names|e] fs3] eqn:Hloop; [|discriminate].
  injection Hup as <- <-.
  destruct (upload_loop_simple BASE_DIR (path_parts dest) files [] fs2 fs3
              names Hd Hall Hloop) as (E & _ & Hget).
  split.
  - rewrite E. simpl. rewrite List.map_map. reflexivity.
  - intros uf s Hin Hdec.
    pose proof (upload_loop_limits _ files [] fs2 fs3 names Hd Hall Hloop
                  uf Hin) as Hlim.
    rewrite <- app_assoc in Hlim.
    assert (Hc : Forall component (path_parts dest ++ [filename uf])).
    { apply Forall_app. split; [apply path_parts_components|].
      constructor; [|constructor]. apply simple_name_component.
      rewrite Forall_forall in Hall. apply (Hall uf Hin). }
    assert (Hpl : plain (WS ++ path_parts dest ++ [filename uf])).
    { apply plain_app; [exact Hws|]. apply plain_app; [exact Hp|].
      constructor; [|constructor]. rewrite Forall_forall in Hall.
      destruct (Hall uf Hin) as (_ & _ & _ & H). exact H. }
    assert (Hj : joinpath WS (stored uf)
                 = WS ++ path_parts dest ++ [filename uf]).
    { unfold joinpath, stored.
      rewrite (join_slash_relative _ Hc), (path_parts_join_slash _ Hc).
      reflexivity. }
    assert (Hopen : fst (safe_workspace_path resolve BASE_DIR (stored uf)
                           (Dir []))
                    = Ok (WS ++ path_parts dest ++ [filename uf])).
    { rewrite (guard_accepts_normal BASE_DIR (stored uf) (Dir [])
                 (path_parts dest ++ [filename uf])); [reflexivity | |].
      - rewrite Hj. apply getname_first_name_error. apply Hlim.
      - rewrite Hj. apply (normalize_plain_app _ [] Hpl). }
    rewrite (open_file_at BASE_DIR (stored uf) fs3 _ Hopen Hlim).
    rewrite app_assoc, (Hget Hnd uf Hin), Hdec. reflexivity.
Qed.

End Composition.

Lemma saved_file_is_listed_witness :
  exists children,
    fst (get_files srv_backend
           (snd (save_file srv_backend
                   {| save_path := py "new.txt"; save_content := py "text" |}
                   srv_fs)))
    = Ok (JObj [(py "type", JStr (py "folder"));
                (py "name", JStr (py "workspace"));
                (py "path", JStr (py ""));
                (py "children", JArr children)])
    /\ In (JObj [(py "type", JStr (py "file"));
                 (py "name", JStr (py "new.txt"));
                 (py "path", JStr (py "new.txt"))]) children.
Proof.
  apply (saved_file_is_listed srv_backend (py "new.txt") (py "text") srv_fs
           _ (JObj [(py "ok", JBool true)])).
  - repeat constructor; discriminate.
  - repeat split; try discriminate. cbn. intuition discriminate.
  - reflexivity.
Defined.

Lemma upload_then_open_witness :
  fst (open_file srv_backend {| open_path := py "b/one.txt" |}
         (snd (upload_files srv_backend
                 [{| filename := py "one.txt"; file := py "1" |}]
                 (py "b") srv_fs)))
  = Ok (JObj [(py "path", JStr (py "b/one.txt"));
              (py "content", JStr (py "1"))]).
Proof.
  assert (Hall : Forall (fun uf => simple_name (filename uf))
                   [{| filename := py "one.txt"; file := py "1" |}]).
  { repeat constructor; try discriminate; cbn; intuition discriminate. }
  assert (Hnd : NoDup (List.map filename
                         [{| filename := py "one.txt"; file := py "1" |}])).
  { repeat constructor. intros []. }
  assert (Hb : plain srv_backend) by (repeat constructor; discriminate).
  assert (Hp : plain (path_parts (py "b")))
    by (repeat constructor; discriminate).
  apply (proj2 (upload_then_open srv_backend
                  [{| filename := py "one.txt"; file := py "1" |}]
                  (py "b") srv_fs _ _ Hb eq_refl Hp Hall Hnd eq_refl)
           {| filename := py "one.txt"; file := py "1" |} (py "1")).
  - left. reflexivity.
  - reflexivity.
Defined.

(* ===================================================================== *)
(** ** An upload that fails half way *)
(* ===================================================================== *)

Section UploadFailure.

Variable BASE_DIR : PosixPath.

Local Abbreviation WS := (WORKSPACE_DIR BASE_DIR).

Lemma upload_loop_raises (rel : list str) (files : list UploadFile) :
  forall (acc : list str) (fs fs' : node) (e : exn),
    plain (WS ++ rel) ->
    Forall (fun uf => simple_name (filename uf)) files ->
    NoDup (List.map filename files) ->
    upload_loop BASE_DIR (WS ++ rel) files acc fs = (Raise e, fs') ->
    exists pre bad post,
      files = pre ++ bad :: post
      /\ (forall uf, In uf pre ->
                     lookup fs' ((WS ++ rel) ++ [filename uf])
                     = Some (File (file uf)))
      /\ (forall q,
             ~ is_prefix q (WS ++ rel) ->
             (forall uf, In uf pre -> q <> (WS ++ rel) ++ [filename uf]) ->
             lookup fs' q = lookup fs q).
Proof.
  induction files as [|uf files IH]; intros acc fs fs' e Hd Hall Hnd H;
    simpl in H; [discriminate|].
  inversion Hall as [|? ? Hs Hrest]; subst.
  simpl in Hnd. inversion Hnd as [|? ? Hnotin Hnd']; subst.
  rewrite (joinpath_simple _ _ Hs) in H.
  destruct (write_bytes fs ((WS ++ rel) ++ [filename uf]) (file uf))
    as [fs1|x] eqn:Hw; cbn [uncaught] in H.
  - rewrite relative_str_child in H.
    assert (Hp : plain ((WS ++ rel) ++ [filename uf])).
    { apply plain_app; [exact Hd|]. constructor; [|constructor].
      destruct Hs as (_ & _ & _ & Hdd). exact Hdd. }
    apply (@write_bytes_plain fs fs1 _ _ Hp) in Hw.
    destruct (IH _ _ _ _ Hd Hrest Hnd' H)
      as (pre & bad & post & E & Hget & Hframe).
    exists (uf :: pre), bad, post. split; [rewrite E; reflexivity|]. split.
    + intros uf' [<- | Hin]; [|apply Hget; exact Hin].
      rewrite Hframe.
      * apply (@store_lookup _ fs fs1 _ Hw).
      * apply snoc_not_prefix.
      * intros uf' Hin E'. apply app_inj_tail in E'. destruct E' as [_ E'].
        apply Hnotin. rewrite E'. apply in_map. rewrite E.
        apply in_or_app. left. exact Hin.
    + intros q Hq Hneq. rewrite Hframe.
      * apply (@store_frame _ fs fs1 q _ Hw).
        intros Hp'. apply is_prefix_snoc in Hp'. destruct Hp' as [Hp' | Hp'].
        -- apply Hq. exact Hp'.
        -- apply (Hneq uf); [left; reflexivity | exact Hp'].
      * exact Hq.
      * intros uf' Hin. apply Hneq. right. exact Hin.
  - injection H as _ <-. exists [], uf, files.
    split; [reflexivity|]. split; [intros uf' [] | reflexivity].
Qed.

(** X24.  An upload is not undone when it fails.  For distinct plain
    file names and an accepted destination, if [upload_files] raises,
    then either the destination could not be made: the exception is the
    one of [mkdir], no file has been created or changed, and nothing has
    changed apart from the destination and the directories above it; or
    the files before the one that failed are stored in the destination
    with the content sent, and apart from them, the destination
    directory and its ancestors, the file system is as it was. *)
Theorem upload_keeps_earlier_files (files : list UploadFile) (dest : str)
  (fs fs' : node) (d : PosixPath) (e : exn) :
  fst (safe_workspace_path resolve BASE_DIR dest fs) = Ok d ->
  Forall (fun uf => simple_name (filename uf)) files ->
  NoDup (List.map filename files) ->
  upload_files BASE_DIR files dest fs = (Raise e, fs') ->
  ((exists x, e = Uncaught x /\ fst (mkdir_p fs d) = Fail x)
   /\ (forall q b, lookup fs' q = Some (File b) -> lookup fs q = Some (File b))
   /\ (forall q, ~ is_prefix q d -> lookup fs' q = lookup fs q))
  \/ exists pre bad post,
      files = pre ++ bad :: post
      /\ (forall uf, In uf pre ->
                     lookup fs' (d ++ [filename uf]) = Some (File (file uf)))
      /\ (forall q,
             ~ is_prefix q d ->
             (forall uf, In uf pre -> q <> d ++ [filename uf]) ->
             lookup fs' q = lookup fs q).
Proof.
  intros Hguard Hall Hnd Hup.
  rewrite safe_workspace_path_pure in Hguard. simpl in Hguard.
  pose proof (@safe_workspace_path_plain _ _ _ _ Hguard) as Hplain.
  assert (Hrel : exists rel, d = WS ++ rel).
  { destruct (@safe_workspace_path_within BASE_DIR dest (Dir []) d Hguard)
      as [E | [rest [_ E]]].
    - exists []. rewrite app_nil_r. exact E.
    - exists rest. exact E. }
  destruct Hrel as [rel ->].
  unfold upload_files in Hup.
  rewrite safe_workspace_path_pure, Hguard in Hup.
  destruct (mkdir_p fs (WS ++ rel)) as [[u|x] fs2] eqn:Hmk.
  - destruct (upload_loop BASE_DIR (WS ++ rel) files [] fs2)
      as [[stored|e'] fs3] eqn:Hloop; [discriminate|].
    injection Hup as _ <-. right.
    destruct (upload_loop_raises rel files [] fs2 fs3 e' Hplain Hall Hnd Hloop)
      as (pre & bad & post & E & Hget & Hframe).
    exists pre, bad, post. split; [exact E|]. split; [exact Hget|].
    intros q Hq Hneq. rewrite (Hframe q Hq Hneq).
    apply (mkdir_p_frame _ fs fs2 _ q Hmk Hq).
  - injection Hup as <- <-. left. split; [|split].
    + exists x. split; reflexivity.
    + intros q b Hl. apply (mkdir_p_files _ fs fs2 _ q b Hmk Hl).
    + intros q Hq. apply (mkdir_p_frame _ fs fs2 _ q Hmk Hq).
Qed.

End UploadFailure.

(** A destination that could be made only in part: the directory
    above the name that is refused stays. *)
Lemma upload_failed_mkdir_keeps_directories :
  let out := upload_files srv_backend [] (py "new/" ++ repeat 97 256) srv_fs in
  fst out = Raise (Uncaught OSError)
  /\ lookup (snd out) [py "srv"; py "backend"; py "workspace"; py "new"]
     = Some (Dir [])
  /\ lookup srv_fs [py "srv"; py "backend"; py "workspace"; py "new"]
     = None.
Proof. vm_compute. repeat split. Qed.

Lemma upload_keeps_earlier_files_witness :
  upload_files srv_backend
    [{| filename := py "one.txt"; file := py "1" |};
     {| filename := py "b"; file := py "2" |};
     {| filename := py "three.txt"; file := py "3" |}]
    (py "") srv_fs
  = (Raise (Uncaught IsADirectoryError),
     snd (upload_files srv_backend
            [{| filename := py "one.txt"; file := py "1" |}] (py "") srv_fs))
  /\ (((exists x, Uncaught IsADirectoryError = Uncaught x
                  /\ fst (mkdir_p srv_fs (WORKSPACE_DIR srv_backend)) = Fail x)
       /\ (forall q b,
              lookup (snd (upload_files srv_backend
                             [{| filename := py "one.txt"; file := py "1" |}]
                             (py "") srv_fs)) q = Some (File b) ->
              lookup srv_fs q = Some (File b))
       /\ (forall q,
              ~ is_prefix q (WORKSPACE_DIR srv_backend) ->
              lookup (snd (upload_files srv_backend
                             [{| filename := py "one.txt"; file := py "1" |}]
                             (py "") srv_fs)) q
              = lookup srv_fs q))
      \/ exists pre bad post,
          [{| filename := py "one.txt"; file := py "1" |};
           {| filename := py "b"; file := py "2" |};
           {| filename := py "three.txt"; file := py "3" |}]
          = pre ++ bad :: post
          /\ (forall uf, In uf pre ->
                lookup (snd (upload_files srv_backend
                               [{| filename := py "one.txt"; file := py "1" |}]
                               (py "") srv_fs))
                  (WORKSPACE_DIR srv_backend ++ [filename uf])
                = Some (File (file uf)))
          /\ (forall q,
                 ~ is_prefix q (WORKSPACE_DIR srv_backend) ->
                 (forall uf, In uf pre ->
                             q <> WORKSPACE_DIR srv_backend ++ [filename uf]) ->
                 lookup (snd (upload_files srv_backend
                                [{| filename := py "one.txt"; file := py "1" |}]
                                (py "") srv_fs)) q
                 = lookup srv_fs q)).
Proof.
  assert (Hall : Forall (fun uf => simple_name (filename uf))
                   [{| filename := py "one.txt"; file := py "1" |};
                    {| filename := py "b"; file := py "2" |};
                    {| filename := py "three.txt"; file := py "3" |}]).
  { repeat constructor; try discriminate; cbn; intuition discriminate. }
  assert (Hnd : NoDup (List.map filename
                   [{| filename := py "one.txt"; file := py "1" |};
                    {| filename := py "b"; file := py "2" |};
                    {| filename := py "three.txt"; file := py "3" |}])).
  { repeat constructor; cbn; intuition discriminate. }
  split; [reflexivity|].
  apply (upload_keeps_earlier_files srv_backend _ (py "") srv_fs _
           (WORKSPACE_DIR srv_backend) (Uncaught IsADirectoryError)
           eq_refl Hall Hnd eq_refl).
Defined.
